(** * Retention clean-up of a container registry: model and properties

    A shallow embedding of [manage/delete-registry-image.py].

    - Python [str] values are [string]s; a character stands for one code
      point, taken from U+0000..U+00FF, where the regular-expression class
      [\d] matches exactly the ten ASCII digits.
    - A [datetime] is the number of microseconds its wall-clock fields are
      away from 1970-01-01T00:00:00, together with its [tzinfo], the UTC
      offset in microseconds when there is one.
    - The registry, the clock, the file system and the sub-processes are a
      [Host]: each answer is a function of the events of the run so far.
      A request gets a response or none, in which case the [requests]
      library raises; the body of a response is JSON or not, an object or
      not, and is read through the keys the script looks up; a command
      exits with a status or cannot be launched.
    - A [World] is a host on which nothing of this fails: every request
      gets a response whose body is an object, every command is launched.
      The properties that speak of what the registry answers are stated on
      a [World]; the section on calls that fail is about any [Host].
    - What is found under a key and is not null has the type the registry
      API gives it: a list of strings, a string, an object.
    - [datetime.fromisoformat] belongs to the Python library: the model
      takes it as a parameter.
    - The script starts from a [Config], the values it reads from
      [config.ini] at start-up; the splitting of the exclusion list and the
      tables of overrides are modelled apart.  The handler of the
      interrupt signal is outside the model: a run goes to its end. *)

From Stdlib Require Import ZArith String Ascii List Sorted Lia.
From stdpp Require Import base gmap sets list strings.

Local Open Scope string_scope.
Local Open Scope list_scope.
Local Open Scope Z_scope.

(** ** Strings *)

(** [s[:-1]]: the string without its last character; the empty string
    stays empty. *)
Fixpoint drop_last (s : string) : string :=
  match s with
  | EmptyString => EmptyString
  | String c s' =>
      match s' with
      | EmptyString => EmptyString
      | String _ _ => String c (drop_last s')
      end
  end.

(** The class [\d]. *)
Definition is_digit (c : ascii) : bool :=
  ((48 <=? nat_of_ascii c) && (nat_of_ascii c <=? 57))%nat.

Definition plus_sign : ascii := "+"%char.
Definition colon : ascii := ":"%char.
Definition zero_digit : ascii := "0"%char.
Definition newline : ascii := ascii_of_nat 10.

(** [re.sub(r'(?<=\+\d{2}):(\d)$', r'0\1', s)], on the reversed characters
    of [s].  Without the MULTILINE flag [$] matches at the end of the
    string and just before a newline that ends the string, so the pattern
    can match at one place only: a colon and a digit that close the string
    (or stand before its final newline), the colon being preceded by a plus
    sign and two digits.  The colon is replaced by the character 0. *)
Definition offset_fixup_rev (r : list ascii) : list ascii :=
  match r with
  | d :: c :: d2 :: d1 :: p :: rest =>
      if is_digit d && bool_decide (c = colon) && is_digit d2 && is_digit d1
         && bool_decide (p = plus_sign)
      then d :: zero_digit :: d2 :: d1 :: p :: rest
      else
        match rest with
        | p' :: rest' =>
            if bool_decide (d = newline) && is_digit c
               && bool_decide (d2 = colon) && is_digit d1 && is_digit p
               && bool_decide (p' = plus_sign)
            then d :: c :: zero_digit :: d1 :: p :: p' :: rest'
            else r
        | [] => r
        end
  | _ => r
  end.

Definition offset_fixup (s : string) : string :=
  string_of_list_ascii (rev (offset_fixup_rev (rev (list_ascii_of_string s)))).

(** The argument the script hands to [datetime.fromisoformat]
    (the variable [fixed_date] of [fetch_creation_date]). *)
Definition fixed_date (created_date : string) : string :=
  offset_fixup (drop_last created_date).

(** ** Dates *)

Record datetime := mk_datetime {
  wall : Z;            (* microseconds of the wall-clock reading *)
  tzinfo : option Z    (* UTC offset in microseconds, [None] when naive *)
}.

(** [dt.replace(tzinfo=timezone.utc)] *)
Definition replace_tzinfo_utc (dt : datetime) : datetime :=
  {| wall := wall dt; tzinfo := Some 0 |}.

(** [dt if dt.tzinfo else dt.replace(tzinfo=timezone.utc)] *)
Definition ensure_aware (dt : datetime) : datetime :=
  match tzinfo dt with
  | Some _ => dt
  | None => replace_tzinfo_utc dt
  end.

(** The point in time of an aware datetime, in microseconds of UTC: aware
    datetimes are ordered by it. *)
Definition instant (dt : datetime) : Z := wall dt - default 0 (tzinfo dt).

Definition utc (t : Z) : datetime := {| wall := t; tzinfo := Some 0 |}.

Definition DAY : Z := 86400000000.
(** [datetime.min] and [datetime.max], read in UTC. *)
Definition datetime_min : Z := -62135596800000000.
Definition datetime_max : Z := 253402300799999999.
(** The largest number of days a [timedelta] holds. *)
Definition timedelta_max_days : Z := 999999999.

(** [now - timedelta(days=days_threshold)] for [now] in UTC: [None] stands
    for the OverflowError of a result (or of a timedelta) out of range. *)
Definition minus_days (now days_threshold : Z) : option Z :=
  let t := now - days_threshold * DAY in
  if (Z.abs days_threshold <=? timedelta_max_days)
     && (datetime_min <=? t) && (t <=? datetime_max)
  then Some t else None.

(** ** The retention decision (lines 153-164 of the script) *)

(** An entry of [tag_details]: [(tag, creation_date, digest)]. *)
Definition tag_detail : Type := string * datetime * string.

Definition td_tag (x : tag_detail) : string := x.1.1.
Definition td_creation_date (x : tag_detail) : datetime := x.1.2.
Definition td_digest (x : tag_detail) : string := x.2.

(** [tag_details.sort(key=lambda x: x[1], reverse=True)]: most recent
    first; the sort is stable, also in reverse, so records of equal
    creation time keep their order. *)
Fixpoint insert_desc (x : tag_detail) (l : list tag_detail) : list tag_detail :=
  match l with
  | [] => [x]
  | y :: l' =>
      if instant (td_creation_date y) >? instant (td_creation_date x)
      then y :: insert_desc x l'
      else x :: y :: l'
  end.

Definition sort_desc (l : list tag_detail) : list tag_detail :=
  foldr insert_desc [] l.

(** [l[:n]] for any integer [n]: a negative [n] counts from the end. *)
Definition slice_to {A} (n : Z) (l : list A) : list A :=
  if 0 <=? n then take (Z.to_nat n) l
  else take (Z.to_nat (Z.of_nat (length l) + n)) l.

(** [{tag for tag, _, _ in tag_details[:recent_count]}] *)
Definition recent_tags (tag_details : list tag_detail) (recent_count : Z)
  : gset string :=
  list_to_set (td_tag <$> slice_to recent_count tag_details).

(** The records that reach the age test: those outside the protected set. *)
Definition eligible (recent : gset string) (tag_details : list tag_detail)
  : list tag_detail :=
  filter (λ x, td_tag x ∉ recent) tag_details.

(** The records the loop hands to [delete_image], in order: not protected,
    and strictly older than the threshold. *)
Definition to_delete (recent : gset string) (threshold_date : Z)
    (tag_details : list tag_detail) : list tag_detail :=
  filter (λ x, (td_tag x ∉ recent) ∧
               (instant (td_creation_date x) < threshold_date)) tag_details.

(** The whole decision for the resolved records of one repository. *)
Definition decide_deletions (records : list tag_detail)
    (recent_count : Z) (threshold_date : Z) : list tag_detail :=
  let tag_details := sort_desc records in
  to_delete (recent_tags tag_details recent_count) threshold_date tag_details.

Definition protected_tags (records : list tag_detail) (recent_count : Z)
  : gset string :=
  recent_tags (sort_desc records) recent_count.

(** The tags of the records handed to deletion. *)
Definition deletion_tags (records : list tag_detail)
    (recent_count : Z) (threshold_date : Z) : gset string :=
  list_to_set (td_tag <$> decide_deletions records recent_count threshold_date).

(** The records the loop passes without a deletion although they are not
    protected: the test [creation_date < threshold_date] fails for them. *)
Definition kept_by_age (recent : gset string) (threshold_date : Z)
    (tag_details : list tag_detail) : list tag_detail :=
  filter (λ x, (td_tag x ∉ recent) ∧
               ¬ (instant (td_creation_date x) < threshold_date)) tag_details.

(** ** Configuration, requests, events *)

(** The values read from [config.ini] at start-up.  [REGISTRY] and
    [LOG_FILE] only name the registry and the log: they are part of the
    environment. *)
Record Config := mk_Config {
  DEFAULT_DAYS_THRESHOLD : Z;
  DEFAULT_RECENT_IMAGES : Z;
  EXCLUDE_REPOS : list string;
  REPOSITORY_PATH : string;
  SPECIFIC_RECENT_IMAGES : gmap string Z;
  SPECIFIC_DAYS_THRESHOLD : gmap string Z
}.

Inductive Request :=
| GET_catalog
| GET_tags (repository : string)
| GET_manifest (repository tag : string)
| GET_blob (repository config_digest : string)
| DELETE_manifest (repository digest : string).

(** What the script reads of a response whose body is a JSON object: the
    status, the Docker-Content-Digest header ([None] when there is none),
    and what it finds in the body: the list under [repositories] ([None]
    when the key is missing), the list under [tags] ([None] when the key
    is missing or null), the digest of the object under [config] ([None]
    when [config] is missing, or [digest] missing or null in it) and the
    string under [created] ([None] when missing or null). *)
Record Response := mk_Response {
  status_code : Z;
  docker_content_digest : option string;
  json_repositories : option (list string);
  json_tags : option (list string);
  json_config_digest : option string;
  json_created : option string
}.

Inductive Command :=
| garbage_collect            (* docker exec docker-registry registry garbage-collect ... *)
| rm_rf (repo_path : string).

Inductive Exn :=
| HTTPError (status : Z)                  (* response.raise_for_status() *)
| ValueError (isoformat_string : string)  (* datetime.fromisoformat *)
| OverflowError                           (* now - timedelta(days=...) *)
| CalledProcessError (returncode : Z)     (* subprocess.run(check=True) *)
| RequestException      (* requests.get, requests.delete: no response *)
| JSONDecodeError       (* response.json(): the body is not JSON *)
| AttributeError        (* .get on a JSON value that is not an object *)
| TypeError             (* for ... in None *)
| OSError.              (* subprocess.run: the command cannot be launched *)

Inductive Message :=
| Deleted_image (repository tag digest : string)
| Garbage_collection_completed
| Garbage_collection_failed
| Removing_orphaned_repository (repo : string)
| Orphaned_repository_removed (repo : string)
| Failed_to_remove_orphaned_repository (repo : string) (e : Exn)
| Skipping_no_images (repository : string)
| Skipping_no_eligible_images (repository : string)
| Skipping_within_retention_policy (repository : string)
| Error_message (e : Exn).

Inductive Event :=
| Http (rq : Request) (status : Z)
| Now (t : Z)
| Run (cmd : Command) (returncode : Z)
| OnDisk (path : string) (b : bool)
| LogInfo (m : Message)
| LogError (m : Message)
| Unanswered (rq : Request)       (* a request that got no response *)
| Unlaunched (cmd : Command).     (* a command that could not be launched *)

Definition Trace : Type := list Event.

Record World := mk_World {
  respond : Trace → Request → Response;
  clock : Trace → Z;                        (* datetime.now(timezone.utc) *)
  exit_status : Trace → Command → Z;        (* of subprocess.run *)
  on_disk : Trace → string → bool           (* os.path.exists *)
}.

(** *** The environment in general

    A [World] answers every call, and with a body in which the script
    finds an object and, under each key, nothing or what the registry API
    puts there.  The calls of the script can fail in more ways, and a
    [Host] has them: a request may get no response; a body may not be
    JSON, or not be an object; the key [repositories] may hold null; the
    key [config] may hold something that is not an object; a command may
    not be launched at all.  The script runs on a [Host]. *)

(** What [d.get(key)] finds. *)
Inductive Lookup (A : Type) :=
| missing
| null
| holds (a : A).
Arguments missing {A}.
Arguments null {A}.
Arguments holds {A} a.

(** What [manifest.get("config", {})] is looked up in: [digest] is what
    [.get("digest")] returns for an object, [None] when the key is missing
    or null. *)
Inductive ConfigEntry :=
| no_config
| config_not_an_object
| config_object (digest : option string).

(** A JSON object, through the keys the script looks up.  For [tags] and
    [created] a missing key and a null have the same effect ([None]). *)
Record Document := mk_Document {
  doc_repositories : Lookup (list string);
  doc_tags : option (list string);
  doc_config : ConfigEntry;
  doc_created : option string
}.

(** What [response.json()] returns. *)
Inductive Json :=
| not_an_object
| object (d : Document).

Record Reply := mk_Reply {
  reply_status : Z;
  reply_digest : option string;    (* the Docker-Content-Digest header *)
  reply_body : option Json         (* [None]: the body is not JSON *)
}.

Inductive Answer :=
| unanswered
| answered (reply : Reply).

Inductive Launch :=
| not_launched
| exited (returncode : Z).

Record Host := mk_Host {
  answer : Trace → Request → Answer;        (* requests.get, requests.delete *)
  host_clock : Trace → Z;                   (* datetime.now(timezone.utc) *)
  launch : Trace → Command → Launch;        (* subprocess.run *)
  host_on_disk : Trace → string → bool      (* os.path.exists *)
}.

(** A response of a [World], as a reply. *)
Definition reply_of (response : Response) : Reply :=
  {| reply_status := status_code response;
     reply_digest := docker_content_digest response;
     reply_body :=
       Some (object
         {| doc_repositories :=
              match json_repositories response with
              | Some repositories => holds repositories
              | None => missing
              end;
            doc_tags := json_tags response;
            doc_config :=
              match json_config_digest response with
              | Some digest => config_object (Some digest)
              | None => no_config
              end;
            doc_created := json_created response |}) |}.

(** A [World] is the [Host] on which nothing fails. *)
Definition host_of_world (w : World) : Host :=
  {| answer := λ tr rq, answered (reply_of (respond w tr rq));
     host_clock := clock w;
     launch := λ tr cmd, exited (exit_status w tr cmd);
     host_on_disk := on_disk w |}.

Coercion host_of_world : World >-> Host.

(** ** The monad of the script: a trace of events, and exceptions *)

Inductive Result (A : Type) :=
| Ok (a : A)
| Raised (e : Exn).
Arguments Ok {A} a.
Arguments Raised {A} e.

Definition Script (A : Type) : Type := Trace → Result A * Trace.

Definition ret {A} (a : A) : Script A := λ tr, (Ok a, tr).

Definition bind {A B} (m : Script A) (f : A → Script B) : Script B :=
  λ tr, match m tr with
        | (Ok a, tr') => f a tr'
        | (Raised e, tr') => (Raised e, tr')
        end.

Definition raise {A} (e : Exn) : Script A := λ tr, (Raised e, tr).

Definition try_except {A} (m : Script A) (handler : Exn → Script A) : Script A :=
  λ tr, match m tr with
        | (Ok a, tr') => (Ok a, tr')
        | (Raised e, tr') => handler e tr'
        end.

Definition emit (ev : Event) : Script unit := λ tr, (Ok tt, tr ++ [ev]).

Declare Scope script_scope.
Delimit Scope script_scope with script.
Notation "x <- m ;; k" := (bind m (λ x, k))
  (at level 100, m at next level, right associativity) : script_scope.
Notation "m ;; k" := (bind m (λ _, k))
  (at level 100, right associativity) : script_scope.
Local Open Scope script_scope.

(** [for x in l: s = body(x, s)] *)
Fixpoint for_fold {A S} (l : list A) (body : A → S → Script S) (s : S)
  : Script S :=
  match l with
  | [] => ret s
  | x :: l' => s' <- body x s ;; for_fold l' body s'
  end.

(** [for x in l: body(x)] *)
Fixpoint for_each {A} (l : list A) (body : A → Script unit) : Script unit :=
  match l with
  | [] => ret tt
  | x :: l' => body x ;; for_each l' body
  end.

(** Truth value of a string that may be [None]. *)
Definition truthy (o : option string) : bool :=
  match o with
  | Some s => negb (String.eqb s "")
  | None => false
  end.

(** [os.path.join(a, b)] on a POSIX system. *)
Definition ends_with_slash (s : string) : bool :=
  match rev (list_ascii_of_string s) with
  | c :: _ => bool_decide (c = "/"%char)
  | [] => false
  end.

Definition path_join (a b : string) : string :=
  if String.prefix "/" b then b
  else if String.eqb a "" || ends_with_slash a then String.append a b
  else String.append a (String.append "/" b).

(** ** The script *)

Section Script.

(** [datetime.fromisoformat]; [None] stands for its ValueError. *)
Variable fromisoformat : string → option datetime.
Variable cfg : Config.
Variable h : Host.

(** [requests.get] and [requests.delete] *)
Definition request (rq : Request) : Script Reply :=
  λ tr, match answer h tr rq with
        | answered response =>
            (Ok response, tr ++ [Http rq (reply_status response)])
        | unanswered => (Raised RequestException, tr ++ [Unanswered rq])
        end.

(** [datetime.now(timezone.utc)] *)
Definition now_utc : Script Z :=
  λ tr, let t := host_clock h tr in (Ok t, tr ++ [Now t]).

(** [subprocess.run(..., check=True)] *)
Definition subprocess_run_check (cmd : Command) : Script unit :=
  λ tr, match launch h tr cmd with
        | exited returncode =>
            (if returncode =? 0 then Ok tt
             else Raised (CalledProcessError returncode),
             tr ++ [Run cmd returncode])
        | not_launched => (Raised OSError, tr ++ [Unlaunched cmd])
        end.

(** [os.path.exists] *)
Definition path_exists (path : string) : Script bool :=
  λ tr, let b := host_on_disk h tr path in (Ok b, tr ++ [OnDisk path b]).

Definition logging_info (m : Message) : Script unit := emit (LogInfo m).
Definition logging_error (m : Message) : Script unit := emit (LogError m).

(** [response.raise_for_status()] *)
Definition raise_for_status (response : Reply) : Script unit :=
  if (400 <=? reply_status response) && (reply_status response <? 600)
  then raise (HTTPError (reply_status response))
  else ret tt.

(** [response.json()] *)
Definition json (response : Reply) : Script Json :=
  match reply_body response with
  | Some body => ret body
  | None => raise JSONDecodeError
  end.

(** The object in which a [.get] looks a key up. *)
Definition get_in (body : Json) : Script Document :=
  match body with
  | object d => ret d
  | not_an_object => raise AttributeError
  end.

(** [None] stands for the [None] of Python, which
    [.get("repositories", [])] returns for a null. *)
Definition fetch_repositories : Script (option (list string)) :=
  response <- request GET_catalog ;;
  raise_for_status response ;;
  body <- json response ;;
  d <- get_in body ;;
  match doc_repositories d with
  | missing => ret (Some [])
  | null => ret None
  | holds repositories => ret (Some repositories)
  end.

(** [for repo in repositories]: a [None] cannot be iterated. *)
Definition for_each_repository (repositories : option (list string))
    (body : string → Script unit) : Script unit :=
  match repositories with
  | Some repositories => for_each repositories body
  | None => raise TypeError
  end.

(** The callers only test the result for emptiness before they iterate
    over it: the [None] that [.get("tags", [])] returns for a null is
    returned as the empty list. *)
Definition fetch_image_tags (repository : string) : Script (list string) :=
  response <- request (GET_tags repository) ;;
  if negb (reply_status response =? 200) then ret []
  else
    body <- json response ;;
    d <- get_in body ;;
    ret (default [] (doc_tags d)).

(** [manifest.get("config", {}).get("digest")] *)
Definition get_config_digest (manifest : Document) : Script (option string) :=
  match doc_config manifest with
  | no_config => ret None
  | config_not_an_object => raise AttributeError
  | config_object digest => ret digest
  end.

(** The first component is the manifest; it is returned only with a
    config digest in it. *)
Definition fetch_manifest_and_config_digest (repository tag : string)
  : Script (option Document * option string * option string) :=
  response <- request (GET_manifest repository tag) ;;
  if reply_status response =? 200 then
    body <- json response ;;
    let digest := reply_digest response in
    manifest <- get_in body ;;
    config_digest <- get_config_digest manifest ;;
    if negb (truthy config_digest) then ret (None, None, None)
    else ret (Some manifest, digest, config_digest)
  else ret (None, None, None).

Definition fetch_creation_date (repository config_digest : string)
  : Script (option datetime) :=
  response <- request (GET_blob repository config_digest) ;;
  if reply_status response =? 200 then
    body <- json response ;;
    blob_data <- get_in body ;;
    let created_date := doc_created blob_data in
    if truthy created_date then
      let fixed := fixed_date (default "" created_date) in
      match fromisoformat fixed with
      | Some dt => ret (Some (ensure_aware dt))
      | None => raise (ValueError fixed)
      end
    else ret None
  else ret None.

Definition delete_image (repository tag digest : string) : Script unit :=
  response <- request (DELETE_manifest repository digest) ;;
  if reply_status response =? 202
  then logging_info (Deleted_image repository tag digest)
  else ret tt.

Definition run_garbage_collection : Script unit :=
  try_except
    (subprocess_run_check garbage_collect ;;
     logging_info Garbage_collection_completed)
    (λ e, match e with
          | CalledProcessError _ => logging_error Garbage_collection_failed
          | _ => raise e
          end).

(** The branch [if not tags:] of [remove_empty_repositories]. *)
Definition remove_orphan (repo : string) : Script unit :=
  logging_info (Removing_orphaned_repository repo) ;;
  try_except
    (let repo_path := path_join (REPOSITORY_PATH cfg) repo in
     b <- path_exists repo_path ;;
     if b then
       subprocess_run_check (rm_rf repo_path) ;;
       logging_info (Orphaned_repository_removed repo)
     else ret tt)
    (λ e, logging_error (Failed_to_remove_orphaned_repository repo e)).

(** The body of the loop of [remove_empty_repositories]. *)
Definition remove_if_empty (repo : string) : Script unit :=
  tags <- fetch_image_tags repo ;;
  match tags with
  | [] => remove_orphan repo
  | _ :: _ => ret tt
  end.

Definition remove_empty_repositories : Script unit :=
  repositories <- fetch_repositories ;;
  for_each_repository repositories remove_if_empty.

(** The body of the loop that fills [tag_details] (lines 138-147).  A
    manifest that is returned holds a config key, so it is a non-empty
    dictionary and [not manifest] is false for it. *)
Definition resolve_tag (repository tag : string)
    (tag_details : list tag_detail) : Script (list tag_detail) :=
  fetched <- fetch_manifest_and_config_digest repository tag ;;
  let '(manifest, digest, config_digest) := fetched in
  if negb (bool_decide (is_Some manifest)) || negb (truthy digest)
     || negb (truthy config_digest)
  then ret tag_details
  else
    creation_date <-
      fetch_creation_date repository (default "" config_digest) ;;
    match creation_date with
    | None => ret tag_details
    | Some creation_date =>
        ret (tag_details ++ [(tag, creation_date, default "" digest)])
    end.

(** The body of the deletion loop (lines 158-164). *)
Definition delete_if_old (repository : string) (recent : gset string)
    (threshold_date : Z) (x : tag_detail) (deleted_count : Z) : Script Z :=
  let '(tag, creation_date, digest) := x in
  if bool_decide (tag ∈ recent) then ret deleted_count
  else if instant creation_date <? threshold_date then
    delete_image repository tag digest ;;
    ret (deleted_count + 1)
  else ret deleted_count.

(** [SPECIFIC_RECENT_IMAGES.get(repository, DEFAULT_RECENT_IMAGES)] *)
Definition recent_count_of (repository : string) : Z :=
  default (DEFAULT_RECENT_IMAGES cfg) (SPECIFIC_RECENT_IMAGES cfg !! repository).

(** [SPECIFIC_DAYS_THRESHOLD.get(repository, DEFAULT_DAYS_THRESHOLD)] *)
Definition days_threshold_of (repository : string) : Z :=
  default (DEFAULT_DAYS_THRESHOLD cfg) (SPECIFIC_DAYS_THRESHOLD cfg !! repository).

(** Lines 153-167: the decision on the resolved records, and the
    deletions. *)
Definition retain (repository : string) (tag_details : list tag_detail)
    (recent_count days_threshold : Z) : Script unit :=
  let tag_details := sort_desc tag_details in
  let recent := recent_tags tag_details recent_count in
  now <- now_utc ;;
  match minus_days now days_threshold with
  | None => raise OverflowError
  | Some threshold_date =>
      deleted_count <-
        for_fold tag_details
          (delete_if_old repository recent threshold_date) 0 ;;
      if deleted_count =? 0
      then logging_info (Skipping_within_retention_policy repository)
      else ret tt
  end.

(** Lines 134-167: a repository with a non-empty list of tags. *)
Definition process_tags (repository : string) (tags : list string)
  : Script unit :=
  let recent_count := recent_count_of repository in
  let days_threshold := days_threshold_of repository in
  tag_details <- for_fold tags (resolve_tag repository) [] ;;
  match tag_details with
  | [] => logging_info (Skipping_no_eligible_images repository)
  | _ :: _ => retain repository tag_details recent_count days_threshold
  end.

Definition process_repository (repository : string) : Script unit :=
  if bool_decide (repository ∈ EXCLUDE_REPOS cfg) then ret tt
  else
    tags <- fetch_image_tags repository ;;
    match tags with
    | [] => logging_info (Skipping_no_images repository)
    | _ :: _ => process_tags repository tags
    end.

(** Lines 172-174: the catalog, and every repository of it. *)
Definition process_catalog : Script unit :=
  repositories <- fetch_repositories ;;
  for_each_repository repositories process_repository.

Definition main : Script unit :=
  try_except
    (process_catalog ;;
     run_garbage_collection ;;
     remove_empty_repositories)
    (λ e, logging_error (Error_message e)).

(** The run of the script: it starts with no event behind it. *)
Definition run : Trace := (main []).2.

End Script.

(** ** A reader of timestamps, to run the script on examples

    The properties below hold for any [fromisoformat].  To run the script
    on a concrete registry, [read_isoformat] reads the plain forms
    [YYYY-MM-DDTHH:MM:SS], alone or followed by an offset [+HH:MM],
    [-HH:MM], [+HHMM] or [-HHMM], as Python 3.11 does, and rejects
    everything else. *)

Definition digit_value (c : ascii) : option Z :=
  if is_digit c then Some (Z.of_nat (nat_of_ascii c) - 48) else None.

Definition number (cs : list ascii) : option Z :=
  foldl (λ acc c, n ← acc; d ← digit_value c; Some (10 * n + d)) (Some 0) cs.

Definition is_leap (y : Z) : bool :=
  (y mod 4 =? 0) && (negb (y mod 100 =? 0) || (y mod 400 =? 0)).

Definition days_in_month (y m : Z) : Z :=
  if m =? 2 then (if is_leap y then 29 else 28)
  else if (m =? 4) || (m =? 6) || (m =? 9) || (m =? 11) then 30 else 31.

(** Days from 1970-01-01 to the given day of the proleptic Gregorian
    calendar. *)
Definition days_from_civil (y m d : Z) : Z :=
  let y' := if m <=? 2 then y - 1 else y in
  let era := y' / 400 in
  let yoe := y' - era * 400 in
  let doy := (153 * (if 2 <? m then m - 3 else m + 9) + 2) / 5 + d - 1 in
  let doe := yoe * 365 + yoe / 4 - yoe / 100 + doy in
  era * 146097 + doe - 719468.

Definition read_date_time (cs : list ascii) : option Z :=
  match cs with
  | [y1; y2; y3; y4; s1; m1; m2; s2; d1; d2; t; h1; h2; s3; i1; i2; s4; c1; c2] =>
      if bool_decide (s1 = "-"%char) && bool_decide (s2 = "-"%char)
         && bool_decide (t = "T"%char)
         && bool_decide (s3 = colon) && bool_decide (s4 = colon)
      then
        y ← number [y1; y2; y3; y4]; m ← number [m1; m2]; d ← number [d1; d2];
        h ← number [h1; h2]; i ← number [i1; i2]; c ← number [c1; c2];
        if (1 <=? y) && (1 <=? m) && (m <=? 12) && (1 <=? d)
           && (d <=? days_in_month y m) && (h <? 24) && (i <? 60) && (c <? 60)
        then Some ((days_from_civil y m d * 86400 + h * 3600 + i * 60 + c)
                   * 1000000)
        else None
      else None
  | _ => None
  end.

Definition read_offset (cs : list ascii) : option (option Z) :=
  let hhmm (sign : ascii) (h1 h2 m1 m2 : ascii) : option (option Z) :=
    h ← number [h1; h2]; m ← number [m1; m2];
    if (h <? 24) && (m <? 60) then
      let o := (h * 3600 + m * 60) * 1000000 in
      if bool_decide (sign = plus_sign) then Some (Some o)
      else if bool_decide (sign = "-"%char) then Some (Some (- o))
      else None
    else None in
  match cs with
  | [] => Some None
  | [sign; h1; h2; c; m1; m2] =>
      if bool_decide (c = colon) then hhmm sign h1 h2 m1 m2 else None
  | [sign; h1; h2; m1; m2] => hhmm sign h1 h2 m1 m2
  | _ => None
  end.

Definition read_isoformat (s : string) : option datetime :=
  let cs := list_ascii_of_string s in
  t ← read_date_time (take 19 cs);
  o ← read_offset (drop 19 cs);
  Some {| wall := t; tzinfo := o |}.

(** ** Registries to run the script on *)

Definition no_body (status : Z) : Response :=
  mk_Response status None None None None None.

Definition default_config (exclude : list string) : Config :=
  {| DEFAULT_DAYS_THRESHOLD := 20;
     DEFAULT_RECENT_IMAGES := 1;
     EXCLUDE_REPOS := exclude;
     REPOSITORY_PATH := "/var/lib/registry/docker/registry/v2/repositories";
     SPECIFIC_RECENT_IMAGES := ∅;
     SPECIFIC_DAYS_THRESHOLD := ∅ |}.

(** 2024-03-01T00:00:00 UTC, in microseconds. *)
Definition march_first : Z := 1709251200000000.

(** One repository [app] with the tags A, B and C, pushed 40, 10 and 1 days
    before the first of March 2024; deletions are answered with
    [delete_status]; the clock shows the first of March. *)
Definition app_registry (delete_status : Z) : World :=
  {| respond := λ _ rq,
       match rq with
       | GET_catalog => mk_Response 200 None (Some ["app"]) None None None
       | GET_tags _ => mk_Response 200 None None (Some ["A"; "B"; "C"]) None None
       | GET_manifest _ tag =>
           mk_Response 200 (Some (String.append "sha256:m" tag)) None None
                       (Some (String.append "sha256:c" tag)) None
       | GET_blob _ config_digest =>
           mk_Response 200 None None None None
             (if String.eqb config_digest "sha256:cA"
              then Some "2024-01-21T00:00:00Z"
              else if String.eqb config_digest "sha256:cB"
              then Some "2024-02-20T00:00:00Z"
              else Some "2024-02-29T00:00:00Z")
       | DELETE_manifest _ _ => no_body delete_status
       end;
     clock := λ _, march_first;
     exit_status := λ _ _, 0;
     on_disk := λ _ _, true |}.

(** A registry whose catalog lists the single repository [keep], which has
    no tag. *)
Definition keep_registry : World :=
  {| respond := λ _ rq,
       match rq with
       | GET_catalog => mk_Response 200 None (Some ["keep"]) None None None
       | GET_tags _ => mk_Response 200 None None (Some []) None None
       | _ => no_body 404
       end;
     clock := λ _, march_first;
     exit_status := λ _ _, 0;
     on_disk := λ _ _, true |}.

(** A registry that answers every request with the status 500. *)
Definition failing_registry : World :=
  {| respond := λ _ _, no_body 500;
     clock := λ _, march_first;
     exit_status := λ _ _, 0;
     on_disk := λ _ _, true |}.

(** One repository [app] with the single tag A, whose config blob carries
    the creation date [created]. *)
Definition stamp_registry (created : string) : World :=
  {| respond := λ _ rq,
       match rq with
       | GET_catalog => mk_Response 200 None (Some ["app"]) None None None
       | GET_tags _ => mk_Response 200 None None (Some ["A"]) None None
       | GET_manifest _ _ =>
           mk_Response 200 (Some "sha256:mA") None None (Some "sha256:cA") None
       | GET_blob _ _ => mk_Response 200 None None None None (Some created)
       | DELETE_manifest _ _ => no_body 202
       end;
     clock := λ _, march_first;
     exit_status := λ _ _, 0;
     on_disk := λ _ _, false |}.

(** A registry whose catalog lists the repository [app] and which answers
    every other request with the status 503. *)
Definition flaky_registry : World :=
  {| respond := λ _ rq,
       match rq with
       | GET_catalog => mk_Response 200 None (Some ["app"]) None None None
       | _ => no_body 503
       end;
     clock := λ _, march_first;
     exit_status := λ _ _, 0;
     on_disk := λ _ _, true |}.

(** A registry with failures: the catalog lists [app] and [web]; the tag
    list of [web] is answered with 503; [app] has the tags A, B, C and D;
    the manifest of A is answered with 404 and the config blob of B with
    500; C and D were pushed 40 days and 1 day before the first of March
    2024. *)
Definition patchy_registry : World :=
  {| respond := λ _ rq,
       match rq with
       | GET_catalog => mk_Response 200 None (Some ["app"; "web"]) None None None
       | GET_tags repository =>
           if String.eqb repository "app"
           then mk_Response 200 None None (Some ["A"; "B"; "C"; "D"]) None None
           else no_body 503
       | GET_manifest _ tag =>
           if String.eqb tag "A" then no_body 404
           else mk_Response 200 (Some (String.append "sha256:m" tag)) None None
                            (Some (String.append "sha256:c" tag)) None
       | GET_blob _ config_digest =>
           if String.eqb config_digest "sha256:cB" then no_body 500
           else mk_Response 200 None None None None
                  (if String.eqb config_digest "sha256:cC"
                   then Some "2024-01-21T00:00:00Z"
                   else Some "2024-02-29T00:00:00Z")
       | DELETE_manifest _ _ => no_body 202
       end;
     clock := λ _, march_first;
     exit_status := λ _ _, 0;
     on_disk := λ _ _, false |}.

(** The records A, B and C, created 40, 10 and 1 days before the first of
    March 2024. *)
Definition sample_records : list tag_detail :=
  [("A", utc (march_first - 40 * DAY), "sha256:mA");
   ("B", utc (march_first - 10 * DAY), "sha256:mB");
   ("C", utc (march_first - 1 * DAY), "sha256:mC")].

(** ** Reading a trace *)

(** The request of an event, answered or not. *)
Definition requested (ev : Event) : option Request :=
  match ev with
  | Http rq _ | Unanswered rq => Some rq
  | _ => None
  end.

(** The repositories whose tag list was requested, in order. *)
Definition tags_requested (tr : Trace) : list string :=
  omap (λ ev, match requested ev with
              | Some (GET_tags r) => Some r
              | _ => None
              end) tr.

(** The manifests requested by tag, in order. *)
Definition manifests_requested (tr : Trace) : list (string * string) :=
  omap (λ ev, match requested ev with
              | Some (GET_manifest r t) => Some (r, t)
              | _ => None
              end) tr.

(** The deletions requested, in order. *)
Definition deletes_requested (tr : Trace) : list (string * string) :=
  omap (λ ev, match requested ev with
              | Some (DELETE_manifest r d) => Some (r, d)
              | _ => None
              end) tr.

(** The exit statuses of the garbage collections of a run. *)
Definition garbage_collections (tr : Trace) : list Z :=
  omap (λ ev, match ev with Run garbage_collect rc => Some rc | _ => None end) tr.

(** The requests made for the repository [repo]. *)
Definition concerns (repo : string) (ev : Event) : Prop :=
  match requested ev with
  | Some (GET_tags r) | Some (GET_manifest r _)
  | Some (GET_blob r _) | Some (DELETE_manifest r _) => r = repo
  | _ => False
  end.

(** The events [process_repository] may add for the repository [repo]. *)
Definition processes (repo : string) (ev : Event) : Prop :=
  match ev with
  | Http _ _ | Unanswered _ => concerns repo ev
  | LogInfo (Deleted_image r _ _)
  | LogInfo (Skipping_no_images r) | LogInfo (Skipping_no_eligible_images r)
  | LogInfo (Skipping_within_retention_policy r) => r = repo
  | Now _ => True
  | _ => False
  end.

(** The events of the first phase of a run: the catalog and the
    processing of its repositories. *)
Definition is_processing_event (ev : Event) : Prop :=
  match requested ev with
  | Some GET_catalog => True
  | _ => ∃ repo, processes repo ev
  end.

(** The events of the orphan sweep. *)
Definition is_sweep_event (ev : Event) : Prop :=
  match ev with
  | Http GET_catalog _ | Http (GET_tags _) _
  | Unanswered GET_catalog | Unanswered (GET_tags _)
  | OnDisk _ _ | Run (rm_rf _) _ | Unlaunched (rm_rf _)
  | LogInfo (Removing_orphaned_repository _)
  | LogInfo (Orphaned_repository_removed _)
  | LogError (Failed_to_remove_orphaned_repository _ _) => True
  | _ => False
  end.

(** The log line of [run_garbage_collection] for an exit status. *)
Definition garbage_collection_logged (returncode : Z) : Event :=
  if returncode =? 0 then LogInfo Garbage_collection_completed
  else LogError Garbage_collection_failed.

(** The events of one deletion request answered with [status]: the
    request, and the line "Deleted image" when the status is 202. *)
Definition deletion_events (repository : string) (x : tag_detail)
    (status : Z) : list Event :=
  Http (DELETE_manifest repository (td_digest x)) status
  :: (if status =? 202
      then [LogInfo (Deleted_image repository (td_tag x) (td_digest x))]
      else []).

(** The trace after a deletion request for each record of [l], from [tr]. *)
Fixpoint deletions_from (w : World) (repository : string)
    (l : list tag_detail) (tr : Trace) : Trace :=
  match l with
  | [] => tr
  | x :: l' =>
      let status :=
        status_code (respond w tr (DELETE_manifest repository (td_digest x))) in
      deletions_from w repository l' (tr ++ deletion_events repository x status)
  end.

(** ** What a script does, whatever happened before *)

(** Every event [m] adds to the trace satisfies [P]. *)
Definition emits {A} (P : Event → Prop) (m : Script A) : Prop :=
  ∀ tr, ∃ ext, (m tr).2 = tr ++ ext ∧ Forall P ext.

(** [m] raises no exception. *)
Definition succeeds {A} (m : Script A) : Prop :=
  ∀ tr, ∃ a, (m tr).1 = Ok a.

(** ** Registries without the failures that end a run *)

(** No catalog request is answered with a status [raise_for_status]
    rejects. *)
Definition catalog_listed (w : World) : Prop :=
  ∀ tr, ¬ (400 ≤ status_code (respond w tr GET_catalog) < 600).

(** Every creation date served with a status 200 is one the parser reads
    after the normalization. *)
Definition timestamps_readable (fromisoformat : string → option datetime)
    (w : World) : Prop :=
  ∀ tr repository config_digest created_date,
    status_code (respond w tr (GET_blob repository config_digest)) = 200 →
    json_created (respond w tr (GET_blob repository config_digest))
      = Some created_date →
    created_date ≠ "" →
    is_Some (fromisoformat (fixed_date created_date)).

(** The threshold date of every repository is a date the calendar holds. *)
Definition threshold_in_range (cfg : Config) (w : World) : Prop :=
  ∀ tr repository,
    is_Some (minus_days (clock w tr) (days_threshold_of cfg repository)).

(** ** The configuration read at start-up (lines 26-40) *)

(** [raw.split(',')]: the fields between the commas, none stripped; a
    string without a comma is its only field, the empty string included. *)
Fixpoint split_commas (raw : string) : list string :=
  match raw with
  | EmptyString => [EmptyString]
  | String c raw' =>
      if bool_decide (c = ","%char) then EmptyString :: split_commas raw'
      else
        match split_commas raw' with
        | field :: fields => String c field :: fields
        | [] => [String c EmptyString]
        end
  end.

(** [{key: int(value) for key, value in items if key not in default}]:
    [items] is what [config.items(section)] returns, [default_keys] the
    options of the DEFAULT section, [int] the conversion of Python, whose
    ValueError is [None] here as for the whole table. *)
Definition specific_table (int : string → option Z)
    (default_keys : gset string) (items : list (string * string))
  : option (gmap string Z) :=
  foldl (λ table item,
           m ← table;
           if bool_decide (item.1 ∈ default_keys) then Some m
           else n ← int item.2; Some (<[item.1 := n]> m))
        (Some ∅) items.

(** ** More readers of a trace, and more registries *)

(** The requests for the images of the repository [repo]: a manifest, a
    blob, a deletion. *)
Definition image_request (repo : string) (ev : Event) : Prop :=
  match requested ev with
  | Some (GET_manifest r _) | Some (GET_blob r _)
  | Some (DELETE_manifest r _) => r = repo
  | _ => False
  end.

(** A registry whose catalog has no repository. *)
Definition empty_registry : World :=
  {| respond := λ _ rq,
       match rq with
       | GET_catalog => mk_Response 200 None None None None None
       | _ => no_body 404
       end;
     clock := λ _, march_first;
     exit_status := λ _ _, 1;
     on_disk := λ _ _, true |}.

(** The registry [flaky_registry] on a machine where every command
    fails. *)
Definition stubborn_registry : World :=
  {| respond := respond flaky_registry;
     clock := clock flaky_registry;
     exit_status := λ _ _, 1;
     on_disk := λ _ _, true |}.

(** A registry whose answers lack what the script looks up: the manifest
    of A comes without the Docker-Content-Digest header, that of B without
    a config digest, and the config blob of C without a creation date. *)
Definition bare_registry : World :=
  {| respond := λ _ rq,
       match rq with
       | GET_catalog => mk_Response 200 None (Some ["app"]) None None None
       | GET_tags _ => mk_Response 200 None None (Some ["A"; "B"; "C"]) None None
       | GET_manifest _ tag =>
           if String.eqb tag "A"
           then mk_Response 200 None None None (Some "sha256:cA") None
           else if String.eqb tag "B"
           then mk_Response 200 (Some "sha256:mB") None None None None
           else mk_Response 200 (Some "sha256:mC") None None
                            (Some "sha256:cC") None
       | GET_blob _ _ => mk_Response 200 None None None None None
       | DELETE_manifest _ _ => no_body 202
       end;
     clock := λ _, march_first;
     exit_status := λ _ _, 0;
     on_disk := λ _ _, true |}.

(** *** Hosts on which a call fails *)

(** The host of [w] on which [docker] cannot be run: the garbage
    collection is not launched. *)
Definition without_docker (w : World) : Host :=
  {| answer := answer w;
     host_clock := host_clock w;
     launch := λ tr cmd,
       match cmd with
       | garbage_collect => not_launched
       | rm_rf _ => launch w tr cmd
       end;
     host_on_disk := host_on_disk w |}.

(** The host of [w] on which no command can be launched. *)
Definition without_commands (w : World) : Host :=
  {| answer := answer w;
     host_clock := host_clock w;
     launch := λ _ _, not_launched;
     host_on_disk := host_on_disk w |}.

(** The host of [w] on which the requests [special] names get the answer
    it gives. *)
Definition answering (special : Request → option Answer) (w : World) : Host :=
  {| answer := λ tr rq,
       match special rq with
       | Some a => a
       | None => answer w tr rq
       end;
     host_clock := host_clock w;
     launch := launch w;
     host_on_disk := host_on_disk w |}.

(** A catalog whose body is [{"repositories": null}]. *)
Definition null_catalog (rq : Request) : option Answer :=
  match rq with
  | GET_catalog =>
      Some (answered (mk_Reply 200 None
              (Some (object (mk_Document null None no_config None)))))
  | _ => None
  end.

(** The manifest of the tag B with the body [{"config": null}]. *)
Definition null_config (rq : Request) : option Answer :=
  match rq with
  | GET_manifest _ tag =>
      if String.eqb tag "B"
      then Some (answered (mk_Reply 200 (Some "sha256:mB")
                   (Some (object (mk_Document missing None
                                    config_not_an_object None)))))
      else None
  | _ => None
  end.

(** No response to the deletion requests. *)
Definition deletions_unanswered (rq : Request) : option Answer :=
  match rq with
  | DELETE_manifest _ _ => Some unanswered
  | _ => None
  end.

(** No response to the requests of tag lists. *)
Definition tags_unanswered (rq : Request) : option Answer :=
  match rq with
  | GET_tags _ => Some unanswered
  | _ => None
  end.

(** A tag list answered with the status 503 and a page of HTML. *)
Definition html_error_page (rq : Request) : option Answer :=
  match rq with
  | GET_tags _ => Some (answered (mk_Reply 503 None None))
  | _ => None
  end.

(** The events of a deletion in the repository [repo]: the request, and
    the line logged when it is accepted. *)
Definition is_deletion_event (repo : string) (ev : Event) : Prop :=
  match ev with
  | Http (DELETE_manifest r _) _ | Unanswered (DELETE_manifest r _)
  | LogInfo (Deleted_image r _ _) => r = repo
  | _ => False
  end.

(** A record the script resolved for the repository [repo]: its digest is
    the Docker-Content-Digest of a manifest served with the status 200 for
    its tag, and its creation date is the parse of the creation date of the
    config blob of that manifest, served with the status 200 right after
    it. *)
Definition resolved (fromisoformat : string → option datetime) (w : World)
    (repo : string) (x : tag_detail) : Prop :=
  ∃ tr config_digest created_date dt,
    let manifest := respond w tr (GET_manifest repo (td_tag x)) in
    let blob :=
      respond w (tr ++ [Http (GET_manifest repo (td_tag x)) 200])
              (GET_blob repo config_digest) in
    status_code manifest = 200
    ∧ docker_content_digest manifest = Some (td_digest x)
    ∧ td_digest x ≠ ""
    ∧ json_config_digest manifest = Some config_digest
    ∧ config_digest ≠ ""
    ∧ status_code blob = 200
    ∧ json_created blob = Some created_date
    ∧ created_date ≠ ""
    ∧ fromisoformat (fixed_date created_date) = Some dt
    ∧ td_creation_date x = ensure_aware dt.

(** A configuration with one override, for the repository [app/web]. *)
Definition override_config : Config :=
  {| DEFAULT_DAYS_THRESHOLD := 20;
     DEFAULT_RECENT_IMAGES := 1;
     EXCLUDE_REPOS := [""];
     REPOSITORY_PATH := "/var/lib/registry/docker/registry/v2/repositories";
     SPECIFIC_RECENT_IMAGES := {[ "app/web" := 5 ]};
     SPECIFIC_DAYS_THRESHOLD := ∅ |}.

(** A conversion of the strings of decimal digits, to run the examples. *)
Definition int_of_digits (s : string) : option Z :=
  match s with
  | EmptyString => None
  | String _ _ => number (list_ascii_of_string s)
  end.

(** * Properties *)

(** ** The retention decision *)

Section Retention.

Implicit Types (records tag_details : list tag_detail) (x : tag_detail).

Lemma insert_desc_perm x l : insert_desc x l ≡ₚ x :: l.
Proof.
  induction l as [|y l IH]; simpl; [done|].
  case_match; [|done].
  rewrite IH. apply Permutation_swap.
Qed.

Lemma sort_desc_perm records : sort_desc records ≡ₚ records.
Proof.
  induction records as [|x l IH]; [done|].
  unfold sort_desc in *. simpl. rewrite insert_desc_perm. by rewrite IH.
Qed.

Lemma elem_of_sort_desc x records : x ∈ sort_desc records ↔ x ∈ records.
Proof. by rewrite sort_desc_perm. Qed.

(** [sort_desc] is the stable sort the script asks for: its result is in
    descending order of creation, and records created at the same time
    keep the order they had. *)
Lemma sort_desc_sorted records :
  StronglySorted
    (λ x y, instant (td_creation_date y) ≤ instant (td_creation_date x))
    (sort_desc records).
Proof.
  induction records as [|x l IH]; [constructor|].
  change (sort_desc (x :: l)) with (insert_desc x (sort_desc l)).
  induction IH as [|y l' Hl' IHl' Hy]; simpl.
  { repeat constructor. }
  destruct (Z.gtb_spec (instant (td_creation_date y))
                       (instant (td_creation_date x))).
  - constructor; [done|]. rewrite insert_desc_perm.
    constructor; [lia|done].
  - constructor; [by constructor|]. constructor; [lia|].
    eapply Forall_impl; [done|]. simpl. intros z Hz. lia.
Qed.

Lemma insert_desc_stable t x l :
  filter (λ y, instant (td_creation_date y) = t) (insert_desc x l)
  = filter (λ y, instant (td_creation_date y) = t) (x :: l).
Proof.
  induction l as [|y l IH]; [done|]. simpl.
  destruct (Z.gtb_spec (instant (td_creation_date y))
                       (instant (td_creation_date x))); [|done].
  destruct (decide (instant (td_creation_date y) = t)) as [Hy|Hy].
  - rewrite (filter_cons_True _ y) by done. rewrite IH.
    rewrite (filter_cons_False _ x) by (simpl; lia).
    rewrite (filter_cons_False _ x) by (simpl; lia).
    by rewrite (filter_cons_True _ y).
  - rewrite (filter_cons_False _ y) by done. rewrite IH.
    destruct (decide (instant (td_creation_date x) = t)).
    + rewrite !(filter_cons_True _ x) by done.
      by rewrite (filter_cons_False _ y).
    + rewrite !(filter_cons_False _ x) by done.
      by rewrite (filter_cons_False _ y).
Qed.

Lemma sort_desc_stable t records :
  filter (λ y, instant (td_creation_date y) = t) (sort_desc records)
  = filter (λ y, instant (td_creation_date y) = t) records.
Proof.
  induction records as [|x l IH]; [done|].
  change (sort_desc (x :: l)) with (insert_desc x (sort_desc l)).
  rewrite insert_desc_stable.
  destruct (decide (instant (td_creation_date x) = t)).
  - by rewrite !(filter_cons_True _ x), IH.
  - by rewrite !(filter_cons_False _ x), IH.
Qed.

Lemma elem_of_to_delete recent threshold_date tag_details x :
  x ∈ to_delete recent threshold_date tag_details ↔
  x ∈ tag_details ∧ (td_tag x ∉ recent) ∧
  instant (td_creation_date x) < threshold_date.
Proof. unfold to_delete. rewrite list_elem_of_filter. tauto. Qed.

Lemma elem_of_decide_deletions records recent_count threshold_date x :
  x ∈ decide_deletions records recent_count threshold_date ↔
  x ∈ records ∧ (td_tag x ∉ protected_tags records recent_count) ∧
  instant (td_creation_date x) < threshold_date.
Proof.
  unfold decide_deletions, protected_tags.
  by rewrite elem_of_to_delete, elem_of_sort_desc.
Qed.

Lemma minus_days_Some now days_threshold threshold_date :
  minus_days now days_threshold = Some threshold_date →
  threshold_date = now - days_threshold * DAY.
Proof. unfold minus_days. case_match; congruence. Qed.

Lemma slice_to_take {A} n (l : list A) : ∃ k, slice_to n l = take k l.
Proof. unfold slice_to. case_match; eauto. Qed.

Lemma filter_all {A} (P : A → Prop) `{∀ a, Decision (P a)} (l : list A) :
  Forall P l → filter P l = l.
Proof.
  induction 1 as [|a l Ha _ IH]; [done|].
  by rewrite filter_cons_True, IH.
Qed.

Lemma filter_none {A} (P : A → Prop) `{∀ a, Decision (P a)} (l : list A) :
  Forall (λ a, ¬ P a) l → filter P l = [].
Proof.
  induction 1 as [|a l Ha _ IH]; [done|].
  by rewrite filter_cons_False.
Qed.

(** With pairwise distinct tags, the records outside the protected set
    are the records after the protected ones. *)
Lemma eligible_app l1 l2 :
  NoDup (td_tag <$> l1 ++ l2) →
  eligible (list_to_set (td_tag <$> l1)) (l1 ++ l2) = l2.
Proof.
  intros Hnd. unfold eligible. rewrite fmap_app in Hnd.
  apply NoDup_app in Hnd as (_ & Hdisj & _).
  rewrite filter_app, filter_none, filter_all; [done| |].
  - apply Forall_forall. intros x Hx. rewrite elem_of_list_to_set.
    intros Hin. apply (Hdisj _ Hin). by apply list_elem_of_fmap_2.
  - apply Forall_forall. intros x Hx Hn. apply Hn.
    rewrite elem_of_list_to_set. by apply list_elem_of_fmap_2.
Qed.

Lemma eligible_drop tag_details k :
  NoDup (td_tag <$> tag_details) →
  eligible (list_to_set (td_tag <$> take k tag_details)) tag_details
  = drop k tag_details.
Proof.
  intros Hnd.
  rewrite <- (eligible_app (take k tag_details) (drop k tag_details))
    by by rewrite take_drop.
  by rewrite take_drop.
Qed.

Lemma to_delete_eligible recent threshold_date tag_details :
  to_delete recent threshold_date tag_details ⊆ eligible recent tag_details.
Proof.
  intros x. rewrite elem_of_to_delete. unfold eligible.
  rewrite list_elem_of_filter. tauto.
Qed.

Lemma tags_of_sort_desc records :
  td_tag <$> sort_desc records ≡ₚ td_tag <$> records.
Proof. by rewrite sort_desc_perm. Qed.

(** The unprotected records are those handed to deletion and those kept
    for their age. *)
Lemma eligible_split recent threshold_date tag_details :
  to_delete recent threshold_date tag_details
  ++ kept_by_age recent threshold_date tag_details
  ≡ₚ eligible recent tag_details.
Proof.
  unfold to_delete, kept_by_age, eligible.
  induction tag_details as [|x l IH]; [done|].
  destruct (decide (td_tag x ∈ recent)) as [Hin|Hin].
  { by rewrite !filter_cons_False by tauto. }
  rewrite (filter_cons_True (λ x, td_tag x ∉ recent)) by done.
  destruct (decide (instant (td_creation_date x) < threshold_date)).
  - rewrite filter_cons_True, filter_cons_False by tauto.
    simpl. by rewrite IH.
  - rewrite filter_cons_False, filter_cons_True by tauto.
    by rewrite <- Permutation_middle, IH.
Qed.

Lemma elem_of_kept_by_age recent threshold_date tag_details x :
  x ∈ kept_by_age recent threshold_date tag_details ↔
  x ∈ tag_details ∧ (td_tag x ∉ recent) ∧
  threshold_date ≤ instant (td_creation_date x).
Proof.
  unfold kept_by_age. rewrite list_elem_of_filter.
  split; [intros [[? ?] ?]|intros (? & ? & ?)]; split_and!; try done; lia.
Qed.

Lemma NoDup_fmap_eq {A B} (f : A → B) (l : list A) (a1 a2 : A) :
  NoDup (f <$> l) → a1 ∈ l → a2 ∈ l → f a1 = f a2 → a1 = a2.
Proof.
  induction l as [|a l IH]; simpl; [by intros _ H1; inversion H1|].
  intros [Ha Hnd]%NoDup_cons [->|H1]%elem_of_cons [->|H2]%elem_of_cons Hf;
    [done| | |by apply IH].
  - destruct Ha. rewrite Hf. by apply list_elem_of_fmap_2.
  - destruct Ha. rewrite <- Hf. by apply list_elem_of_fmap_2.
Qed.

Lemma protected_tags_slice records recent_count :
  protected_tags records recent_count
  = list_to_set (td_tag <$> slice_to recent_count (sort_desc records)).
Proof. done. Qed.

End Retention.

(** ** Running scripts *)

Lemma bind_ok {A B} (m : Script A) (f : A → Script B) tr a tr' :
  m tr = (Ok a, tr') → bind m f tr = f a tr'.
Proof. unfold bind. by intros ->. Qed.

Section Emits.

Context (P : Event → Prop).

Lemma emits_ret {A} (a : A) : emits P (ret a).
Proof. intros tr. exists []. by rewrite app_nil_r. Qed.

Lemma emits_raise {A} e : emits P (@raise A e).
Proof. intros tr. exists []. by rewrite app_nil_r. Qed.

Lemma emits_emit ev : P ev → emits P (emit ev).
Proof. intros Hev tr. exists [ev]. split; [done|]. by constructor. Qed.

Lemma emits_bind {A B} (m : Script A) (f : A → Script B) :
  emits P m → (∀ a, emits P (f a)) → emits P (bind m f).
Proof.
  intros Hm Hf tr. destruct (Hm tr) as (ext & Htr & Hext).
  unfold bind. destruct (m tr) as [[a|e] tr1]; simpl in Htr; subst tr1.
  - destruct (Hf a (tr ++ ext)) as (ext' & -> & Hext').
    exists (ext ++ ext'). rewrite app_assoc. split; [done|].
    by apply Forall_app.
  - by exists ext.
Qed.

Lemma emits_try_except {A} (m : Script A) handler :
  emits P m → (∀ e, emits P (handler e)) → emits P (try_except m handler).
Proof.
  intros Hm Hh tr. destruct (Hm tr) as (ext & Htr & Hext).
  unfold try_except. destruct (m tr) as [[a|e] tr1]; simpl in Htr; subst tr1.
  - by exists ext.
  - destruct (Hh e (tr ++ ext)) as (ext' & -> & Hext').
    exists (ext ++ ext'). rewrite app_assoc. split; [done|].
    by apply Forall_app.
Qed.

Lemma emits_for_each {A} (l : list A) body :
  (∀ x, emits P (body x)) → emits P (for_each l body).
Proof.
  intros Hbody. induction l as [|x l IH]; simpl.
  - apply emits_ret.
  - apply emits_bind; [apply Hbody|done].
Qed.

Lemma emits_for_each_repository repositories body :
  (∀ x, emits P (body x)) → emits P (for_each_repository repositories body).
Proof.
  intros Hbody. destruct repositories as [l|]; simpl.
  - by apply emits_for_each.
  - apply emits_raise.
Qed.

Lemma emits_for_fold {A S} (l : list A) (body : A → S → Script S) s :
  (∀ x s, emits P (body x s)) → emits P (for_fold l body s).
Proof.
  intros Hbody. revert s. induction l as [|x l IH]; intros s; simpl.
  - apply emits_ret.
  - apply emits_bind; [apply Hbody|done].
Qed.

Context (h : Host).

Lemma emits_request rq :
  (∀ status, P (Http rq status)) → P (Unanswered rq) →
  emits P (request h rq).
Proof.
  intros H Hno tr. unfold request.
  destruct (answer h tr rq); eexists [_]; (split; [done|]); by constructor.
Qed.

Lemma emits_now_utc : (∀ t, P (Now t)) → emits P (now_utc h).
Proof. intros H tr. eexists [_]. split; [done|]. by constructor. Qed.

Lemma emits_subprocess_run_check cmd :
  (∀ rc, P (Run cmd rc)) → P (Unlaunched cmd) →
  emits P (subprocess_run_check h cmd).
Proof.
  intros H Hno tr. unfold subprocess_run_check.
  destruct (launch h tr cmd); eexists [_]; (split; [done|]); by constructor.
Qed.

Lemma emits_path_exists path :
  (∀ b, P (OnDisk path b)) → emits P (path_exists h path).
Proof. intros H tr. eexists [_]. split; [done|]. by constructor. Qed.

End Emits.

Lemma succeeds_ret {A} (a : A) : succeeds (ret a).
Proof. intros tr. by exists a. Qed.

Lemma succeeds_emit ev : succeeds (emit ev).
Proof. intros tr. by exists tt. Qed.

Lemma succeeds_bind {A B} (m : Script A) (f : A → Script B) :
  succeeds m → (∀ a, succeeds (f a)) → succeeds (bind m f).
Proof.
  intros Hm Hf tr. destruct (Hm tr) as (a & Ha).
  unfold bind. destruct (m tr) as [[a'|e] tr1]; simpl in Ha; [|done].
  apply Hf.
Qed.

Lemma succeeds_try_except {A} (m : Script A) handler :
  (∀ e, succeeds (handler e)) → succeeds (try_except m handler).
Proof.
  intros Hh tr. unfold try_except.
  destruct (m tr) as [[a|e] tr1]; [by exists a|apply Hh].
Qed.

Lemma succeeds_for_each {A} (l : list A) body :
  (∀ x, succeeds (body x)) → succeeds (for_each l body).
Proof.
  intros Hbody. induction l as [|x l IH]; simpl.
  - apply succeeds_ret.
  - apply succeeds_bind; [apply Hbody|done].
Qed.

Lemma succeeds_for_fold {A S} (l : list A) (body : A → S → Script S) s :
  (∀ x s, succeeds (body x s)) → succeeds (for_fold l body s).
Proof.
  intros Hbody. revert s. induction l as [|x l IH]; intros s; simpl.
  - apply succeeds_ret.
  - apply succeeds_bind; [apply Hbody|done].
Qed.

Lemma succeeds_request (w : World) rq : succeeds (request w rq).
Proof. intros tr. by eexists. Qed.

Lemma succeeds_now_utc w : succeeds (now_utc w).
Proof. intros tr. by eexists. Qed.

Lemma succeeds_path_exists w path : succeeds (path_exists w path).
Proof. intros tr. by eexists. Qed.

(** A script that succeeds and emits only [P] events, run from [tr]. *)
Lemma run_succeeds_emits {A} P (m : Script A) tr :
  succeeds m → emits P m → ∃ a ext, m tr = (Ok a, tr ++ ext) ∧ Forall P ext.
Proof.
  intros Hs He. destruct (Hs tr) as (a & Ha), (He tr) as (ext & Hext & HP).
  exists a, ext. split; [|done]. destruct (m tr) as [r tr']; simpl in *. by subst.
Qed.

Lemma omap_none {A B} (f : A → option B) (P : A → Prop) l :
  (∀ a, P a → f a = None) → Forall P l → omap f l = [].
Proof.
  intros Hf. induction 1 as [|a l Ha _ IH]; [done|].
  simpl. by rewrite (Hf a Ha).
Qed.

Ltac script_unfold :=
  unfold process_catalog, process_repository, process_tags, retain,
    resolve_tag, delete_if_old, delete_image, fetch_creation_date,
    fetch_manifest_and_config_digest, remove_empty_repositories,
    remove_if_empty, remove_orphan, run_garbage_collection,
    fetch_image_tags, fetch_repositories, for_each_repository,
    raise_for_status, json, get_in, get_config_digest,
    logging_info, logging_error.

Ltac emits_step :=
  first
    [ match goal with
      | |- emits _ (if ?c then _ else _) => destruct c
      | |- emits _ (match ?x with _ => _ end) => destruct x
      | |- emits _ (let '(_, _) := ?x in _) => destruct x
      end
    | progress cbv zeta
    | apply emits_ret | apply emits_raise
    | apply emits_bind; [|intros ?]
    | apply emits_try_except; [|intros ?]
    | apply emits_for_each; intros ?
    | apply emits_for_fold; intros ? ?
    | apply emits_emit | apply emits_request; [intros ?|]
    | apply emits_now_utc; intros ?
    | apply emits_subprocess_run_check; [intros ?|]
    | apply emits_path_exists; intros ? ].

Ltac succeeds_step :=
  first
    [ match goal with
      | |- succeeds (if ?c then _ else _) => destruct c
      | |- succeeds (match ?x with _ => _ end) => destruct x
      | |- succeeds (let '(_, _) := ?x in _) => destruct x
      end
    | progress cbv zeta
    | apply succeeds_ret | apply succeeds_emit
    | apply succeeds_bind; [|intros ?]
    | apply succeeds_try_except; intros ?
    | apply succeeds_for_each; intros ?
    | apply succeeds_for_fold; intros ? ?
    | apply succeeds_request | apply succeeds_now_utc
    | apply succeeds_path_exists ].

Section Requests.

Context (w : World).


(** *** What each function emits *)

Lemma fetch_repositories_run tr :
  let response := respond w tr GET_catalog in
  fetch_repositories w tr =
    (if (400 <=? status_code response) && (status_code response <? 600)
     then Raised (HTTPError (status_code response))
     else Ok (Some (default [] (json_repositories response))),
     tr ++ [Http GET_catalog (status_code response)]).
Proof.
  unfold fetch_repositories, bind, request, raise_for_status, json, get_in.
  simpl. destruct (_ && _); [done|].
  by destruct (json_repositories _).
Qed.

Lemma fetch_image_tags_run repository tr :
  let response := respond w tr (GET_tags repository) in
  fetch_image_tags w repository tr =
    (Ok (if status_code response =? 200
         then default [] (json_tags response) else []),
     tr ++ [Http (GET_tags repository) (status_code response)]).
Proof.
  unfold fetch_image_tags, bind, request. simpl. by destruct (_ =? _).
Qed.

Lemma delete_image_run repository tag digest tr :
  let status := status_code (respond w tr (DELETE_manifest repository digest)) in
  delete_image w repository tag digest tr =
    (Ok tt, tr ++ Http (DELETE_manifest repository digest) status
                 :: (if status =? 202
                     then [LogInfo (Deleted_image repository tag digest)]
                     else [])).
Proof.
  unfold delete_image, bind, request. simpl.
  destruct (_ =? _); unfold ret, logging_info, emit; simpl; [|done].
  by rewrite <- app_assoc.
Qed.

Lemma run_garbage_collection_run tr :
  let rc := exit_status w tr garbage_collect in
  run_garbage_collection w tr =
    (Ok tt, tr ++ [Run garbage_collect rc; garbage_collection_logged rc]).
Proof.
  unfold run_garbage_collection, try_except, bind, subprocess_run_check,
    garbage_collection_logged, logging_info, logging_error, emit. simpl.
  destruct (_ =? _); simpl; by rewrite <- app_assoc.
Qed.

Lemma delete_loop_run repository recent threshold_date tag_details c tr :
  for_fold tag_details (delete_if_old w repository recent threshold_date) c tr
  = (Ok (c + Z.of_nat (length (to_delete recent threshold_date tag_details))),
     deletions_from w repository
       (to_delete recent threshold_date tag_details) tr).
Proof.
  revert c tr. unfold to_delete.
  induction tag_details as [|[[tag creation_date] digest] l IH];
    intros c tr; simpl.
  { unfold ret. do 2 f_equal. lia. }
  unfold bind at 1. unfold delete_if_old at 1.
  destruct (decide (tag ∈ recent)) as [Hin|Hin].
  - rewrite bool_decide_eq_true_2 by done. unfold ret at 1.
    rewrite filter_cons_False by (simpl; tauto). apply IH.
  - rewrite bool_decide_eq_false_2 by done.
    destruct (Z.ltb_spec (instant creation_date) threshold_date) as [Hlt|Hge].
    + rewrite filter_cons_True by done.
      unfold bind at 1. rewrite delete_image_run. unfold ret at 1.
      rewrite IH. simpl. do 2 f_equal. lia.
    + unfold ret at 1.
      rewrite filter_cons_False by (simpl; unfold td_creation_date; simpl; lia).
      apply IH.
Qed.

Lemma deletions_from_requests repository l tr :
  ∃ ext, deletions_from w repository l tr = tr ++ ext ∧
         deletes_requested ext = (λ x, (repository, td_digest x)) <$> l.
Proof.
  revert tr. induction l as [|x l IH]; intros tr; simpl.
  { exists []. by rewrite app_nil_r. }
  destruct (IH (tr ++ deletion_events repository x
      (status_code (respond w tr (DELETE_manifest repository (td_digest x))))))
    as (ext & -> & Hext).
  eexists. rewrite <- app_assoc. split; [done|].
  unfold deletes_requested in *. rewrite omap_app, Hext.
  unfold deletion_events. simpl. by destruct (_ =? _).
Qed.

(** The deletions of a repository are the decided ones: after the clock
    is read, a deletion is requested for each record of the decision, in
    order; the line saying that nothing was to delete follows when the
    decision is empty. *)
Lemma retain_run repository tag_details recent_count days_threshold tr :
  let now := clock w tr in
  retain w repository tag_details recent_count days_threshold tr =
    match minus_days now days_threshold with
    | None => (Raised OverflowError, tr ++ [Now now])
    | Some threshold_date =>
        let decided :=
          decide_deletions tag_details recent_count threshold_date in
        (Ok tt,
         deletions_from w repository decided (tr ++ [Now now])
         ++ match decided with
            | [] => [LogInfo (Skipping_within_retention_policy repository)]
            | _ :: _ => []
            end)
    end.
Proof.
  unfold retain, now_utc. unfold bind at 1. cbv zeta.
  destruct (minus_days _ _) as [threshold_date|]; [|done].
  unfold bind. rewrite delete_loop_run. unfold decide_deletions. cbv zeta.
  destruct (to_delete _ _ _) as [|x l]; simpl.
  - done.
  - destruct (Z.eqb_spec (Z.pos (Pos.of_succ_nat (length l))) 0); [lia|].
    by rewrite app_nil_r.
Qed.

End Requests.

Lemma fetch_creation_date_run fromisoformat (w : World) repository config_digest tr :
  let response := respond w tr (GET_blob repository config_digest) in
  fetch_creation_date fromisoformat w repository config_digest tr =
    (if status_code response =? 200 then
       if truthy (json_created response) then
         let fixed := fixed_date (default "" (json_created response)) in
         match fromisoformat fixed with
         | Some dt => Ok (Some (ensure_aware dt))
         | None => Raised (ValueError fixed)
         end
       else Ok None
     else Ok None,
     tr ++ [Http (GET_blob repository config_digest) (status_code response)]).
Proof.
  unfold fetch_creation_date, bind, request, json, get_in. simpl.
  destruct (_ =? _); [|done]. destruct (truthy _); [|done].
  by destruct (fromisoformat _).
Qed.

(** C2. Whatever the records, the policy and the clock, a record created
    at or after the threshold [now - age_threshold_days] is not handed to
    deletion, protected or not: the records handed to deletion are exactly
    the unprotected ones created strictly before the threshold.  With
    [recent_count = 0] and [age_threshold_days = 0] a record created at
    [now] is kept.  These records are the ones whose deletion the script
    requests when its clock shows [now]. *)
Theorem C2_not_older_than_threshold_is_kept
    (records : list tag_detail) (recent_count days_threshold now : Z)
    (threshold_date : Z) (x : tag_detail)
    (Hthreshold : minus_days now days_threshold = Some threshold_date) :
  threshold_date = now - days_threshold * DAY ∧
  (threshold_date ≤ instant (td_creation_date x) →
   x ∉ decide_deletions records recent_count threshold_date) ∧
  (x ∈ decide_deletions records recent_count threshold_date ↔
   x ∈ records ∧ (td_tag x ∉ protected_tags records recent_count) ∧
   instant (td_creation_date x) < threshold_date) ∧
  (recent_count = 0 → days_threshold = 0 →
   instant (td_creation_date x) = now →
   x ∉ decide_deletions records recent_count threshold_date) ∧
  (∀ w repository tr,
     clock w tr = now →
     let decided := decide_deletions records recent_count threshold_date in
     retain w repository records recent_count days_threshold tr =
       (Ok tt,
        deletions_from w repository decided (tr ++ [Now now])
        ++ match decided with
           | [] => [LogInfo (Skipping_within_retention_policy repository)]
           | _ :: _ => []
           end)).
Proof.
  pose proof (minus_days_Some _ _ _ Hthreshold) as Hthr.
  split_and!; [done| | | |].
  - intros Hle. rewrite elem_of_decide_deletions. lia.
  - apply elem_of_decide_deletions.
  - intros _ -> Hnow. rewrite elem_of_decide_deletions. lia.
  - intros w repository tr Hclock. rewrite retain_run. cbv zeta.
    by rewrite Hclock, Hthreshold.
Qed.


(** C3 (amended). For records with pairwise distinct tags, the decision
    accounts for every tag exactly once among three sets: the protected
    tags, the tags handed to deletion (not protected, older than the
    threshold) and the tags kept for their age (not protected, not older
    than the threshold).  The protected tags and the tags handed to
    deletion are disjoint; their union is the set of all input tags exactly
    when no record is kept for its age, that is, when every record outside
    the protected set is older than the threshold.  The tags handed to
    deletion are those whose deletion the script requests. *)
Theorem C3_protected_deleted_and_kept_partition
    (records : list tag_detail) (recent_count threshold_date : Z)
    (Hdistinct : NoDup (td_tag <$> records)) :
  let protected := slice_to recent_count (sort_desc records) in
  let marked := decide_deletions records recent_count threshold_date in
  let kept :=
    kept_by_age (protected_tags records recent_count) threshold_date
                (sort_desc records) in
  protected_tags records recent_count = list_to_set (td_tag <$> protected) ∧
  (td_tag <$> protected) ++ (td_tag <$> marked) ++ (td_tag <$> kept)
    ≡ₚ td_tag <$> records ∧
  NoDup ((td_tag <$> protected) ++ (td_tag <$> marked) ++ (td_tag <$> kept)) ∧
  protected_tags records recent_count
    ## deletion_tags records recent_count threshold_date ∧
  (protected_tags records recent_count
     ∪ deletion_tags records recent_count threshold_date
     = list_to_set (td_tag <$> records)
   ↔ kept = []) ∧
  (kept = [] ↔
   ∀ x, x ∈ records →
        td_tag x ∉ protected_tags records recent_count →
        instant (td_creation_date x) < threshold_date) ∧
  (∀ w repository days_threshold tr,
     minus_days (clock w tr) days_threshold = Some threshold_date →
     ∃ ext,
       retain w repository records recent_count days_threshold tr
         = (Ok tt, tr ++ ext)
       ∧ deletes_requested ext = (λ x, (repository, td_digest x)) <$> marked).
Proof.
  intros protected marked kept.
  assert (Hnd : NoDup (td_tag <$> sort_desc records))
    by by rewrite tags_of_sort_desc.
  assert (Hperm : (td_tag <$> protected) ++ (td_tag <$> marked)
                    ++ (td_tag <$> kept) ≡ₚ td_tag <$> records).
  { subst protected marked kept.
    unfold decide_deletions, protected_tags, recent_tags. cbv zeta.
    destruct (slice_to_take recent_count (sort_desc records)) as [k ->].
    rewrite <- fmap_app, eligible_split, (eligible_drop _ k Hnd).
    by rewrite <- fmap_app, take_drop, tags_of_sort_desc. }
  assert (Hkept : kept = [] ↔
            ∀ x, x ∈ records →
                 td_tag x ∉ protected_tags records recent_count →
                 instant (td_creation_date x) < threshold_date).
  { split.
    - intros Hnil x Hx Hp.
      destruct (decide (instant (td_creation_date x) < threshold_date))
        as [|Hge]; [done|].
      assert (Hin : x ∈ kept).
      { apply elem_of_kept_by_age. rewrite elem_of_sort_desc.
        split_and!; [done|done|lia]. }
      rewrite Hnil in Hin. by inversion Hin.
    - intros Hall. apply filter_none, Forall_forall.
      intros x Hx [Hp Hge]. rewrite elem_of_sort_desc in Hx. apply Hge. by apply Hall. }
  split_and!; [done|done|by rewrite Hperm| | |done|].
  - intros t Hp [x [-> Hx]]%elem_of_list_to_set%list_elem_of_fmap.
    by apply elem_of_decide_deletions in Hx as (_ & ? & _).
  - split.
    + intros Hunion.
      destruct kept as [|x l] eqn:Hk; [done|]. exfalso.
      assert (Hx : x ∈ kept) by (rewrite Hk; apply list_elem_of_here).
      apply elem_of_kept_by_age in Hx as (Hx & Hp & Hge). rewrite elem_of_sort_desc in Hx.
      assert (Ht : td_tag x ∈ protected_tags records recent_count
                     ∪ deletion_tags records recent_count threshold_date).
      { rewrite Hunion, elem_of_list_to_set. by apply list_elem_of_fmap_2. }
      apply elem_of_union in Ht as [Ht|Ht]; [done|].
      apply elem_of_list_to_set, list_elem_of_fmap in Ht as (y & Hy & Hm).
      apply elem_of_decide_deletions in Hm as (Hyin & _ & Hlt).
      rewrite (NoDup_fmap_eq td_tag records x y) in Hge by done. lia.
    + intros Hnil. apply set_eq. intros t.
      rewrite elem_of_union. unfold deletion_tags.
      rewrite (protected_tags_slice records recent_count).
      rewrite !elem_of_list_to_set, <- Hperm, Hnil, !elem_of_app.
      fold protected marked. rewrite elem_of_nil. tauto.
  - intros w repository days_threshold tr Hthr.
    rewrite retain_run. cbv zeta. rewrite Hthr. fold marked.
    destruct (deletions_from_requests w repository marked
                (tr ++ [Now (clock w tr)])) as (ext & -> & Hext).
    eexists. rewrite <- !app_assoc. split; [done|].
    unfold deletes_requested in *. simpl. rewrite omap_app, Hext.
    clearbody marked. destruct marked; simpl; by rewrite ?app_nil_r.
Qed.

(** *** The events of each function, on any host *)

Section Events.

Context (fromisoformat : string → option datetime) (cfg : Config) (h : Host).

Lemma emits_impl {A} (P Q : Event → Prop) (m : Script A) :
  (∀ ev, P ev → Q ev) → emits P m → emits Q m.
Proof.
  intros HPQ Hm tr. destruct (Hm tr) as (ext & ? & ?).
  exists ext. split; [done|]. by eapply Forall_impl.
Qed.

Lemma emits_fetch_image_tags P repository :
  (∀ status, P (Http (GET_tags repository) status)) →
  P (Unanswered (GET_tags repository)) →
  emits P (fetch_image_tags h repository).
Proof. intros. script_unfold. repeat emits_step; auto. Qed.

Lemma emits_fetch_repositories P :
  (∀ status, P (Http GET_catalog status)) →
  P (Unanswered GET_catalog) →
  emits P (fetch_repositories h).
Proof.
  intros. script_unfold. repeat emits_step; auto.
Qed.

Lemma emits_process_tags repository tags :
  emits (λ ev, processes repository ev ∧ tags_requested [ev] = [])
        (process_tags fromisoformat cfg h repository tags).
Proof.
  script_unfold. repeat emits_step; done.
Qed.

Lemma emits_process_repository repository :
  emits (processes repository)
        (process_repository fromisoformat cfg h repository).
Proof.
  script_unfold. repeat emits_step; done.
Qed.

Lemma emits_remove_empty_repositories :
  emits is_sweep_event (remove_empty_repositories cfg h).
Proof.
  script_unfold. repeat emits_step; done.
Qed.

Lemma processes_is_processing_event repository ev :
  processes repository ev → is_processing_event ev.
Proof.
  unfold is_processing_event, processes, concerns.
  destruct ev as [[]| | | | | |[]|]; simpl; eauto.
Qed.

Lemma emits_process_catalog :
  emits is_processing_event (process_catalog fromisoformat cfg h).
Proof.
  unfold process_catalog. apply emits_bind.
  - by apply emits_fetch_repositories.
  - intros repositories. apply emits_for_each_repository. intros r.
    eapply emits_impl; [|apply emits_process_repository].
    apply processes_is_processing_event.
Qed.

End Events.

Section Functions.

Context (fromisoformat : string → option datetime) (cfg : Config) (w : World).

(** *** Functions that raise nothing *)

Lemma succeeds_fetch_image_tags repository :
  succeeds (fetch_image_tags w repository).
Proof. intros tr. rewrite fetch_image_tags_run. by eexists. Qed.

Lemma succeeds_delete_loop repository recent threshold_date tag_details c :
  succeeds (for_fold tag_details
              (delete_if_old w repository recent threshold_date) c).
Proof. intros tr. rewrite delete_loop_run. by eexists. Qed.

Lemma succeeds_run_garbage_collection : succeeds (run_garbage_collection w).
Proof. intros tr. rewrite run_garbage_collection_run. by eexists. Qed.

Lemma succeeds_remove_if_empty repo : succeeds (remove_if_empty cfg w repo).
Proof.
  unfold remove_if_empty. apply succeeds_bind.
  - apply succeeds_fetch_image_tags.
  - intros [|tag tags]; [|apply succeeds_ret].
    unfold remove_orphan, logging_info, logging_error.
    repeat succeeds_step.
Qed.

Lemma succeeds_fetch_repositories :
  catalog_listed w → succeeds (fetch_repositories w).
Proof.
  intros Hcat tr. rewrite fetch_repositories_run. simpl.
  destruct (_ && _) eqn:Hst; [|by eexists].
  destruct (Hcat tr). lia.
Qed.

(** The tag list of a repository is requested once, unless the
    repository is excluded, and the events are its own. *)
Lemma process_repository_trace repository tr :
  ∃ ext,
    (process_repository fromisoformat cfg w repository tr).2 = tr ++ ext
    ∧ Forall (processes repository) ext
    ∧ tags_requested ext =
        if bool_decide (repository ∈ EXCLUDE_REPOS cfg) then []
        else [repository].
Proof.
  unfold process_repository. case_bool_decide as Hex.
  { exists []. by rewrite app_nil_r. }
  erewrite bind_ok by apply fetch_image_tags_run.
  set (st := status_code (respond w tr (GET_tags repository))).
  set (tags := if st =? 200 then _ else _).
  set (rest := match tags with [] => _ | _ :: _ => _ end).
  assert (Hrest : emits (λ ev, processes repository ev
                               ∧ tags_requested [ev] = []) rest).
  { unfold rest. destruct tags; [by apply emits_emit|apply emits_process_tags]. }
  destruct (Hrest (tr ++ [Http (GET_tags repository) st]))
    as (ext & -> & Hext).
  exists (Http (GET_tags repository) st :: ext).
  rewrite <- app_assoc. split; [done|]. split.
  - constructor; [done|]. eapply Forall_impl; [done|]. by intros ? [? _].
  - unfold tags_requested. simpl. f_equal.
    eapply omap_none; [|done]. simpl. intros ev [_ Hev].
    unfold tags_requested in Hev. simpl in Hev. by case_match.
Qed.

(** When the loop over the repositories comes to its end, every
    repository that is not excluded had its tag list requested, in
    order. *)
Lemma process_all_trace repositories tr tr' :
  for_each repositories (process_repository fromisoformat cfg w) tr
    = (Ok tt, tr') →
  ∃ ext, tr' = tr ++ ext
         ∧ Forall is_processing_event ext
         ∧ tags_requested ext =
             filter (λ r, r ∉ EXCLUDE_REPOS cfg) repositories.
Proof.
  revert tr. induction repositories as [|r l IH]; intros tr; simpl.
  { unfold ret. intros [= <-]. exists []. by rewrite app_nil_r. }
  destruct (process_repository_trace r tr) as (ext1 & Hr & Hext1 & Htags1).
  unfold bind.
  destruct (process_repository fromisoformat cfg w r tr) as [[[]|e] tr1];
    simpl in Hr; subst tr1; [|done].
  intros Hloop. destruct (IH _ Hloop) as (ext2 & -> & Hext2 & Htags2).
  exists (ext1 ++ ext2). rewrite app_assoc. split; [done|]. split.
  - apply Forall_app. split; [|done].
    eapply Forall_impl; [done|]. apply processes_is_processing_event.
  - unfold tags_requested in *. rewrite omap_app, Htags1, Htags2.
    case_bool_decide.
    + by rewrite filter_cons_False by tauto.
    + by rewrite filter_cons_True by done.
Qed.

Lemma process_catalog_trace tr tr' :
  process_catalog fromisoformat cfg w tr = (Ok tt, tr') →
  let response := respond w tr GET_catalog in
  ∃ ext, tr' = tr ++ Http GET_catalog (status_code response) :: ext
         ∧ Forall is_processing_event ext
         ∧ tags_requested ext =
             filter (λ r, r ∉ EXCLUDE_REPOS cfg)
                    (default [] (json_repositories response)).
Proof.
  unfold process_catalog, bind. rewrite fetch_repositories_run. simpl.
  destruct (_ && _); [done|]. intros Hloop.
  destruct (process_all_trace _ _ _ Hloop) as (ext & -> & ? & ?).
  exists ext. by rewrite <- app_assoc.
Qed.

(** The three phases of a run. *)
Lemma main_run tr :
  main fromisoformat cfg w tr =
    match process_catalog fromisoformat cfg w tr with
    | (Raised e, tr1) => (Ok tt, tr1 ++ [LogError (Error_message e)])
    | (Ok _, tr1) =>
        let rc := exit_status w tr1 garbage_collect in
        let tr2 :=
          tr1 ++ [Run garbage_collect rc; garbage_collection_logged rc] in
        match remove_empty_repositories cfg w tr2 with
        | (Ok _, tr3) => (Ok tt, tr3)
        | (Raised e, tr3) => (Ok tt, tr3 ++ [LogError (Error_message e)])
        end
    end.
Proof.
  unfold main, try_except. unfold bind at 1.
  destruct (process_catalog fromisoformat cfg w tr) as [[[]|e] tr1]; [|done].
  unfold bind. rewrite run_garbage_collection_run. cbv zeta.
  by destruct (remove_empty_repositories cfg w _) as [[[]|e] tr3].
Qed.

(** The resolution of a tag on a [World]: the manifest is requested; a
    status other than 200, a config digest or a header that is missing or
    empty end it there; otherwise the creation date is fetched. *)
Lemma resolve_tag_unfold repository tag tag_details tr :
  let manifest := respond w tr (GET_manifest repository tag) in
  let tr1 := tr ++ [Http (GET_manifest repository tag) (status_code manifest)] in
  resolve_tag fromisoformat w repository tag tag_details tr =
    if (status_code manifest =? 200) && truthy (json_config_digest manifest)
       && truthy (docker_content_digest manifest)
    then
      bind (fetch_creation_date fromisoformat w repository
              (default "" (json_config_digest manifest)))
           (λ creation_date,
              match creation_date with
              | None => ret tag_details
              | Some creation_date =>
                  ret (tag_details
                       ++ [(tag, creation_date,
                            default "" (docker_content_digest manifest))])
              end) tr1
    else (Ok tag_details, tr1).
Proof.
  unfold resolve_tag, fetch_manifest_and_config_digest, bind, request, json,
    get_in, get_config_digest, ret.
  simpl.
  destruct (_ =? 200); [|done]. simpl.
  destruct (json_config_digest _) as [config_digest|]; simpl; [|done].
  destruct (String.eqb config_digest "") eqn:Hcd; simpl; [done|].
  destruct (docker_content_digest _) as [digest|]; simpl; [|done].
  destruct (String.eqb digest ""); simpl; [done|].
  by rewrite Hcd.
Qed.

Section NoFailure.

Hypothesis Hts : timestamps_readable fromisoformat w.
Hypothesis Hthr : threshold_in_range cfg w.

Lemma succeeds_fetch_creation_date repository config_digest :
  succeeds (fetch_creation_date fromisoformat w repository config_digest).
Proof.
  intros tr. unfold fetch_creation_date, bind, request. simpl.
  destruct (Z.eqb_spec
    (status_code (respond w tr (GET_blob repository config_digest))) 200)
    as [Hst|]; [|by eexists].
  destruct (json_created _) as [created_date|] eqn:Hc; simpl;
    [|by eexists].
  destruct (String.eqb_spec created_date ""); simpl; [by eexists|].
  destruct (Hts tr repository config_digest created_date) as [dt ->];
    try done.
  by eexists.
Qed.

Lemma succeeds_resolve_tag repository tag tag_details :
  succeeds (resolve_tag fromisoformat w repository tag tag_details).
Proof.
  intros tr. rewrite resolve_tag_unfold. cbv zeta.
  destruct (_ && _); [|by eexists].
  apply succeeds_bind; [apply succeeds_fetch_creation_date|].
  intros [creation_date|]; apply succeeds_ret.
Qed.

Lemma succeeds_retain repository tag_details recent_count :
  succeeds (retain w repository tag_details recent_count
                   (days_threshold_of cfg repository)).
Proof.
  intros tr. rewrite retain_run. cbv zeta.
  destruct (Hthr tr repository) as [threshold_date ->]. by eexists.
Qed.

Lemma succeeds_process_repository repository :
  succeeds (process_repository fromisoformat cfg w repository).
Proof.
  unfold process_repository, process_tags, logging_info.
  repeat first [ apply succeeds_retain | apply succeeds_resolve_tag
               | apply succeeds_fetch_image_tags | succeeds_step ].
Qed.

Lemma succeeds_process_all repositories :
  succeeds (for_each repositories (process_repository fromisoformat cfg w)).
Proof. apply succeeds_for_each, succeeds_process_repository. Qed.

Lemma succeeds_process_catalog :
  catalog_listed w → succeeds (process_catalog fromisoformat cfg w).
Proof.
  intros Hcat tr. unfold process_catalog, bind.
  rewrite fetch_repositories_run. cbv zeta.
  destruct (_ && _) eqn:Hst; [destruct (Hcat tr); lia|].
  apply succeeds_process_all.
Qed.

(** Every tag of the list is looked up, whatever was answered for
    the tags before it. *)
Lemma resolve_tag_run repository tag tag_details tr :
  ∃ tag_details' ext,
    resolve_tag fromisoformat w repository tag tag_details tr
      = (Ok tag_details', tr ++ ext)
    ∧ manifests_requested ext = [(repository, tag)].
Proof.
  rewrite resolve_tag_unfold. cbv zeta.
  set (response := respond w tr (GET_manifest repository tag)).
  set (tr1 := tr ++ [Http (GET_manifest repository tag) (status_code response)]).
  destruct (_ && _).
  2: { by exists tag_details,
         [Http (GET_manifest repository tag) (status_code response)]. }
  destruct (run_succeeds_emits
              (λ ev, manifests_requested [ev] = [])
              (fetch_creation_date fromisoformat w repository
                 (default "" (json_config_digest response))) tr1)
    as (creation_date & ext & Hrun & Hext).
  { apply succeeds_fetch_creation_date. }
  { script_unfold. repeat emits_step; done. }
  erewrite bind_ok by done.
  assert (Hm : manifests_requested
            (Http (GET_manifest repository tag) (status_code response) :: ext)
          = [(repository, tag)]).
  { unfold manifests_requested. simpl. f_equal.
    eapply omap_none; [|done]. simpl. intros ev Hev.
    unfold manifests_requested in Hev. simpl in Hev. by case_match. }
  unfold tr1. rewrite <- app_assoc.
  destruct creation_date; unfold ret; eauto.
Qed.

Lemma resolve_tags_run repository tags tag_details tr :
  ∃ tag_details' ext,
    for_fold tags (resolve_tag fromisoformat w repository) tag_details tr
      = (Ok tag_details', tr ++ ext)
    ∧ manifests_requested ext = (λ tag, (repository, tag)) <$> tags.
Proof.
  revert tag_details tr.
  induction tags as [|tag tags IH]; intros tag_details tr; simpl.
  { exists tag_details, []. by rewrite app_nil_r. }
  destruct (resolve_tag_run repository tag tag_details tr)
    as (tag_details1 & ext1 & Hrun & Hext1).
  erewrite bind_ok by done.
  destruct (IH tag_details1 (tr ++ ext1)) as (tag_details2 & ext2 & -> & Hext2).
  exists tag_details2, (ext1 ++ ext2). rewrite app_assoc. split; [done|].
  unfold manifests_requested in *. by rewrite omap_app, Hext1, Hext2.
Qed.

End NoFailure.

End Functions.

Section Sweep.

Context (cfg : Config) (w : World).

Lemma remove_orphan_run repo tr :
  let repo_path := path_join (REPOSITORY_PATH cfg) repo in
  let tr1 := tr ++ [LogInfo (Removing_orphaned_repository repo)] in
  let b := on_disk w tr1 repo_path in
  let rc := exit_status w (tr1 ++ [OnDisk repo_path b]) (rm_rf repo_path) in
  remove_orphan cfg w repo tr =
    (Ok tt,
     tr ++ LogInfo (Removing_orphaned_repository repo) :: OnDisk repo_path b
        :: (if b then
              [Run (rm_rf repo_path) rc;
               if rc =? 0 then LogInfo (Orphaned_repository_removed repo)
               else LogError (Failed_to_remove_orphaned_repository repo
                             (CalledProcessError rc))]
            else [])).
Proof.
  unfold remove_orphan, try_except, bind, logging_info, logging_error, emit,
    path_exists, subprocess_run_check, ret. simpl.
  destruct (on_disk w _ _); simpl.
  - destruct (_ =? 0); simpl; by rewrite <- !app_assoc.
  - by rewrite <- !app_assoc.
Qed.

Lemma remove_if_empty_run repo tr :
  let response := respond w tr (GET_tags repo) in
  let tr1 := tr ++ [Http (GET_tags repo) (status_code response)] in
  remove_if_empty cfg w repo tr =
    match (if status_code response =? 200
           then default [] (json_tags response) else []) with
    | [] => remove_orphan cfg w repo tr1
    | _ :: _ => (Ok tt, tr1)
    end.
Proof.
  unfold remove_if_empty. erewrite bind_ok by apply fetch_image_tags_run.
  by destruct (if _ =? _ then _ else _).
Qed.

Lemma remove_if_empty_trace repo tr :
  ∃ ext, remove_if_empty cfg w repo tr = (Ok tt, tr ++ ext)
         ∧ tags_requested ext = [repo].
Proof.
  rewrite remove_if_empty_run. cbv zeta.
  destruct (if _ =? _ then _ else _).
  - rewrite remove_orphan_run. cbv zeta. rewrite <- app_assoc.
    eexists. split; [done|]. simpl.
    destruct (on_disk w _ _); [|done]. by destruct (_ =? 0).
  - by eexists.
Qed.

Lemma sweep_all_trace repositories tr :
  ∃ ext, for_each repositories (remove_if_empty cfg w) tr = (Ok tt, tr ++ ext)
         ∧ tags_requested ext = repositories.
Proof.
  revert tr. induction repositories as [|r l IH]; intros tr; simpl.
  { exists []. by rewrite app_nil_r. }
  destruct (remove_if_empty_trace r tr) as (ext1 & Hr & Htags1).
  erewrite bind_ok by done.
  destruct (IH (tr ++ ext1)) as (ext2 & -> & Htags2).
  exists (ext1 ++ ext2). rewrite app_assoc. split; [done|].
  unfold tags_requested in *. by rewrite omap_app, Htags1, Htags2.
Qed.

Lemma remove_empty_repositories_trace tr :
  let response := respond w tr GET_catalog in
  ¬ (400 ≤ status_code response < 600) →
  ∃ ext,
    remove_empty_repositories cfg w tr
      = (Ok tt, tr ++ Http GET_catalog (status_code response) :: ext)
    ∧ tags_requested ext = default [] (json_repositories response).
Proof.
  intros response Hst. subst response.
  unfold remove_empty_repositories, bind.
  rewrite fetch_repositories_run. simpl.
  destruct (_ && _) eqn:Hb; [lia|]. simpl.
  destruct (sweep_all_trace
              (default [] (json_repositories (respond w tr GET_catalog)))
              (tr ++ [Http GET_catalog
                        (status_code (respond w tr GET_catalog))]))
    as (ext & -> & Htags).
  exists ext. by rewrite <- app_assoc.
Qed.

(** An event of a repository of the list is still there at the end of
    the loop. *)
Lemma sweep_all_reaches repositories repo (Q : Event → Prop) tr :
  repo ∈ repositories →
  (∀ tr0, ∃ ev, ev ∈ (remove_if_empty cfg w repo tr0).2 ∧ Q ev) →
  ∃ ev, ev ∈ (for_each repositories (remove_if_empty cfg w) tr).2 ∧ Q ev.
Proof.
  intros Hin HQ. revert tr.
  induction repositories as [|r l IH]; intros tr; [by inversion Hin|].
  simpl. destruct (remove_if_empty_trace r tr) as (ext1 & Hr & _).
  erewrite bind_ok by done.
  apply elem_of_cons in Hin as [<-|Hin]; [|by apply IH].
  destruct (HQ tr) as (ev & Hev & HQev). rewrite Hr in Hev. simpl in Hev.
  destruct (sweep_all_trace l (tr ++ ext1)) as (ext2 & -> & _).
  exists ev. split; [|done]. simpl. apply elem_of_app. by left.
Qed.

End Sweep.

Lemma garbage_collections_processing tr :
  Forall is_processing_event tr → garbage_collections tr = [].
Proof.
  apply omap_none. intros ev Hev.
  destruct ev as [[]| |[]| | | |[]|[]]; simpl in *; try done; by destruct Hev.
Qed.

Lemma garbage_collections_sweep tr :
  Forall (λ ev, is_sweep_event ev ∨ ∃ e, ev = LogError (Error_message e)) tr →
  garbage_collections tr = [].
Proof.
  apply omap_none. intros ev [Hev|[e ->]]; [|done].
  by destruct ev as [[]| |[]| | | |[]|[]].
Qed.

Lemma garbage_collections_app tr1 tr2 :
  garbage_collections (tr1 ++ tr2)
  = garbage_collections tr1 ++ garbage_collections tr2.
Proof. apply omap_app. Qed.

Lemma garbage_collections_logged rc :
  garbage_collections [Run garbage_collect rc; garbage_collection_logged rc]
  = [rc].
Proof. unfold garbage_collection_logged. by destruct (_ =? _). Qed.

Lemma remove_empty_repositories_events cfg (w : World) tr :
  ∃ ext,
    (remove_empty_repositories cfg w tr).2
      = tr ++ Http GET_catalog (status_code (respond w tr GET_catalog)) :: ext
    ∧ Forall is_sweep_event ext.
Proof.
  unfold remove_empty_repositories, bind.
  rewrite fetch_repositories_run. simpl.
  destruct (_ && _); simpl; [by exists []|].
  destruct (emits_for_each is_sweep_event
              (default [] (json_repositories (respond w tr GET_catalog)))
              (remove_if_empty cfg w)) with
    (tr := tr ++ [Http GET_catalog (status_code (respond w tr GET_catalog))])
    as (ext & H & Hext).
  { intros r. script_unfold. repeat emits_step; done. }
  exists ext. by rewrite H, <- app_assoc.
Qed.

(** C8 (amended). No run collects garbage more than once.  A run whose
    catalog listing and repository processing raise nothing collects
    garbage exactly once: after the tag list of every repository of the
    catalog that is not excluded has been requested and the repository
    processed, and before the first event of the orphan sweep.  Whatever
    the exit status of the collection, one line is logged for it (an error
    line when it is not zero) and the sweep runs from there. *)
Theorem C8_garbage_collection_between_processing_and_sweep
    (fromisoformat : string → option datetime) (cfg : Config) (w : World) :
  (length (garbage_collections (run fromisoformat cfg w)) ≤ 1)%nat ∧
  ∀ tr1, process_catalog fromisoformat cfg w [] = (Ok tt, tr1) →
    let rc := exit_status w tr1 garbage_collect in
    let tr2 := tr1 ++ [Run garbage_collect rc; garbage_collection_logged rc] in
    let sweep := remove_empty_repositories cfg w tr2 in
    garbage_collections (run fromisoformat cfg w) = [rc]
    ∧ Forall is_processing_event tr1
    ∧ tags_requested tr1 =
        filter (λ r, r ∉ EXCLUDE_REPOS cfg)
               (default [] (json_repositories (respond w [] GET_catalog)))
    ∧ run fromisoformat cfg w =
        sweep.2 ++ match sweep.1 with
                   | Ok _ => []
                   | Raised e => [LogError (Error_message e)]
                   end
    ∧ ∃ ext, sweep.2 = tr2 ++ Http GET_catalog
                                 (status_code (respond w tr2 GET_catalog)) :: ext
             ∧ Forall is_sweep_event ext.
Proof.
  assert (Hok : ∀ tr1, process_catalog fromisoformat cfg w [] = (Ok tt, tr1) →
    let rc := exit_status w tr1 garbage_collect in
    let tr2 := tr1 ++ [Run garbage_collect rc; garbage_collection_logged rc] in
    let sweep := remove_empty_repositories cfg w tr2 in
    garbage_collections (run fromisoformat cfg w) = [rc]
    ∧ Forall is_processing_event tr1
    ∧ run fromisoformat cfg w =
        sweep.2 ++ match sweep.1 with
                   | Ok _ => []
                   | Raised e => [LogError (Error_message e)]
                   end
    ∧ ∃ ext, sweep.2 = tr2 ++ Http GET_catalog
                                 (status_code (respond w tr2 GET_catalog)) :: ext
             ∧ Forall is_sweep_event ext).
  { intros tr1 Hcat rc tr2 sweep.
    pose proof (emits_process_catalog fromisoformat cfg w []) as (ext1 & H1 & Hext1).
    rewrite Hcat in H1. simpl in H1. subst tr1.
    destruct (remove_empty_repositories_events cfg w tr2) as (ext2 & H2 & Hext2).
    assert (Hrun : run fromisoformat cfg w =
              sweep.2 ++ match sweep.1 with
                         | Ok _ => []
                         | Raised e => [LogError (Error_message e)]
                         end).
    { unfold run. rewrite main_run, Hcat. cbv zeta. fold rc tr2 sweep.
      destruct sweep as [[[]|e] tr3]; simpl; by rewrite ?app_nil_r. }
    split_and!; [|done|done|by exists ext2].
    rewrite Hrun. fold sweep in H2. rewrite H2. unfold tr2.
    rewrite !garbage_collections_app, garbage_collections_logged,
      (garbage_collections_processing ext1) by done.
    rewrite (garbage_collections_sweep (_ :: ext2)).
    - by destruct sweep.1.
    - constructor; [by left|]. eapply Forall_impl; [done|]. tauto. }
  split.
  - destruct (process_catalog fromisoformat cfg w []) as [[[]|e] tr1] eqn:Hcat.
    + destruct (Hok tr1 eq_refl) as (-> & _). simpl. lia.
    + unfold run. rewrite main_run, Hcat.
      pose proof (emits_process_catalog fromisoformat cfg w [])
        as (ext1 & H1 & Hext1).
      rewrite Hcat in H1. simpl in H1. subst tr1. simpl.
      rewrite garbage_collections_app, garbage_collections_processing by done.
      simpl. lia.
  - intros tr1 Hcat. destruct (Hok tr1 Hcat) as (? & ? & ? & ?).
    split_and!; try done.
    destruct (process_catalog_trace _ _ _ _ _ Hcat) as (ext & -> & _ & Htags).
    done.
Qed.

(** C7 (amended). A deletion request is logged as a deletion only when it
    is answered with 202; for any other status nothing is logged.  The loop
    requests the deletion of every record handed to deletion, in order and
    whatever the answers, counts every request in [deleted_count] whatever
    its answer, and raises nothing, so the repository is processed to its
    end and the next ones follow. *)
Theorem C7_rejected_deletion_is_silent_and_counted (w : World) :
  (∀ tr repository tag digest,
     let status :=
       status_code (respond w tr (DELETE_manifest repository digest)) in
     delete_image w repository tag digest tr =
       (Ok tt, tr ++ Http (DELETE_manifest repository digest) status
                  :: (if status =? 202
                      then [LogInfo (Deleted_image repository tag digest)]
                      else []))) ∧
  (∀ tr repository recent threshold_date tag_details,
     let marked := to_delete recent threshold_date tag_details in
     ∃ ext,
       for_fold tag_details
         (delete_if_old w repository recent threshold_date) 0 tr
         = (Ok (Z.of_nat (length marked)), tr ++ ext)
       ∧ tr ++ ext = deletions_from w repository marked tr
       ∧ deletes_requested ext = (λ x, (repository, td_digest x)) <$> marked) ∧
  (∀ tr repository tag_details recent_count days_threshold,
     (retain w repository tag_details recent_count days_threshold tr).1 =
       match minus_days (clock w tr) days_threshold with
       | Some _ => Ok tt
       | None => Raised OverflowError
       end).
Proof.
  split_and!.
  - intros. apply delete_image_run.
  - intros tr repository recent threshold_date tag_details marked.
    destruct (deletions_from_requests w repository marked tr) as (ext & H & ?).
    subst marked. exists ext. by rewrite delete_loop_run, H.
  - intros. unfold retain, now_utc. unfold bind at 1.
    destruct (minus_days _ _); [|done].
    unfold bind. rewrite delete_loop_run. by destruct (_ =? _).
Qed.

(** C9. In the orphan sweep a tag list that could not be fetched (any
    status other than 200) is the empty list, as for a repository that has
    no tag: in both cases the sweep goes on with the removal of the
    repository, and when its directory exists [rm -rf] is run on it.  So
    a repository of the catalog whose listing fails and whose directory
    exists has [rm -rf] run on its directory during the sweep. *)
Theorem C9_failed_listing_is_swept_as_empty (cfg : Config) (w : World)
    (repo : string) :
  let repo_path := path_join (REPOSITORY_PATH cfg) repo in
  (∀ tr,
     let response := respond w tr (GET_tags repo) in
     let tr1 := tr ++ [Http (GET_tags repo) (status_code response)] in
     status_code response ≠ 200 ∨ default [] (json_tags response) = [] →
     fetch_image_tags w repo tr = (Ok [], tr1)
     ∧ remove_if_empty cfg w repo tr = remove_orphan cfg w repo tr1
     ∧ (on_disk w (tr1 ++ [LogInfo (Removing_orphaned_repository repo)]) repo_path
          = true →
        ∃ rc, Run (rm_rf repo_path) rc ∈ (remove_if_empty cfg w repo tr).2)) ∧
  (∀ tr,
     ¬ (400 ≤ status_code (respond w tr GET_catalog) < 600) →
     repo ∈ default [] (json_repositories (respond w tr GET_catalog)) →
     (∀ tr0, status_code (respond w tr0 (GET_tags repo)) ≠ 200) →
     (∀ tr0, on_disk w tr0 repo_path = true) →
     ∃ rc, Run (rm_rf repo_path) rc ∈ (remove_empty_repositories cfg w tr).2).
Proof.
  intros repo_path.
  assert (Hone : ∀ tr,
     let response := respond w tr (GET_tags repo) in
     let tr1 := tr ++ [Http (GET_tags repo) (status_code response)] in
     status_code response ≠ 200 ∨ default [] (json_tags response) = [] →
     fetch_image_tags w repo tr = (Ok [], tr1)
     ∧ remove_if_empty cfg w repo tr = remove_orphan cfg w repo tr1
     ∧ (on_disk w (tr1 ++ [LogInfo (Removing_orphaned_repository repo)]) repo_path
          = true →
        ∃ rc, Run (rm_rf repo_path) rc ∈ (remove_if_empty cfg w repo tr).2)).
  { intros tr response tr1 Hempty.
    assert (Htags : (if status_code response =? 200
                     then default [] (json_tags response) else []) = []).
    { destruct Hempty as [Hst| ->]; [|by destruct (_ =? _)].
      by destruct (Z.eqb_spec (status_code response) 200). }
    rewrite fetch_image_tags_run, remove_if_empty_run. cbv zeta.
    fold response. rewrite Htags. split_and!; [done|done|].
    intros Hdisk. rewrite remove_orphan_run. cbv zeta. fold tr1 repo_path.
    rewrite Hdisk. eexists. simpl. rewrite elem_of_app. right.
    do 2 apply list_elem_of_further. apply list_elem_of_here. }
  split; [done|].
  intros tr Hcat Hin Hfail Hdisk. unfold remove_empty_repositories, bind.
  rewrite fetch_repositories_run. simpl.
  destruct (_ && _) eqn:Hb; [lia|]. simpl.
  destruct (sweep_all_reaches cfg w
              (default [] (json_repositories (respond w tr GET_catalog)))
              repo (λ ev, ∃ rc, ev = Run (rm_rf repo_path) rc)
              (tr ++ [Http GET_catalog (status_code (respond w tr GET_catalog))]))
    as (ev & Hev & rc & ->); [done| |by exists rc].
  intros tr0. destruct (Hone tr0) as (_ & _ & [rc Hrc]); eauto.
Qed.

(** C6 (amended). A tag list answered with a status other than 200
    skips that repository, and [process_repository] returns; a manifest or
    a config blob answered with a status other than 200 skips that tag,
    the records resolved so far being kept, and the loop over the tags
    goes on: when no creation date is rejected by the parser, the manifest
    of every tag of the list is requested.  A catalog answered with a 4xx
    or 5xx status is different: [fetch_repositories] raises, and the run
    ends in the handler of [main] with the error logged, no repository
    processed, no garbage collected and nothing swept.  On a registry
    whose catalog requests are not answered so, whose creation dates are
    readable and whose threshold dates are in range, the run goes to its
    end whatever the other requests are answered: the tag list of every
    repository of the catalog that is not excluded is requested, garbage
    is collected, the sweep lists the catalog and requests the tag list of
    each of its repositories. *)
Theorem C6_fetch_failures_skip_one_unit
    (fromisoformat : string → option datetime) (cfg : Config) (w : World) :
  (∀ tr repository,
     let status := status_code (respond w tr (GET_tags repository)) in
     repository ∉ EXCLUDE_REPOS cfg → status ≠ 200 →
     process_repository fromisoformat cfg w repository tr =
       (Ok tt, tr ++ [Http (GET_tags repository) status;
                      LogInfo (Skipping_no_images repository)])) ∧
  (∀ tr repository tag tag_details,
     let status := status_code (respond w tr (GET_manifest repository tag)) in
     status ≠ 200 →
     resolve_tag fromisoformat w repository tag tag_details tr =
       (Ok tag_details, tr ++ [Http (GET_manifest repository tag) status])) ∧
  (∀ tr repository tag tag_details,
     let manifest := respond w tr (GET_manifest repository tag) in
     let tr1 := tr ++ [Http (GET_manifest repository tag) 200] in
     let config_digest := default "" (json_config_digest manifest) in
     let status :=
       status_code (respond w tr1 (GET_blob repository config_digest)) in
     status_code manifest = 200 →
     truthy (docker_content_digest manifest) = true →
     truthy (json_config_digest manifest) = true →
     status ≠ 200 →
     resolve_tag fromisoformat w repository tag tag_details tr =
       (Ok tag_details,
        tr1 ++ [Http (GET_blob repository config_digest) status])) ∧
  (timestamps_readable fromisoformat w →
   ∀ tr repository tags,
     ∃ tag_details ext,
       for_fold tags (resolve_tag fromisoformat w repository) [] tr
         = (Ok tag_details, tr ++ ext)
       ∧ manifests_requested ext = (λ tag, (repository, tag)) <$> tags) ∧
  (∀ tr,
     let status := status_code (respond w tr GET_catalog) in
     400 ≤ status < 600 →
     fetch_repositories w tr =
       (Raised (HTTPError status), tr ++ [Http GET_catalog status])) ∧
  (let status := status_code (respond w [] GET_catalog) in
   400 ≤ status < 600 →
   main fromisoformat cfg w [] =
     (Ok tt, [Http GET_catalog status;
              LogError (Error_message (HTTPError status))])) ∧
  (catalog_listed w →
   timestamps_readable fromisoformat w →
   threshold_in_range cfg w →
   ∃ tr1 ext,
     let rc := exit_status w tr1 garbage_collect in
     let tr2 := tr1 ++ [Run garbage_collect rc; garbage_collection_logged rc] in
     let catalog := respond w tr2 GET_catalog in
     process_catalog fromisoformat cfg w [] = (Ok tt, tr1)
     ∧ tags_requested tr1 =
         filter (λ r, r ∉ EXCLUDE_REPOS cfg)
                (default [] (json_repositories (respond w [] GET_catalog)))
     ∧ main fromisoformat cfg w [] =
         (Ok tt, tr2 ++ Http GET_catalog (status_code catalog) :: ext)
     ∧ tags_requested ext = default [] (json_repositories catalog)).
Proof.
  assert (Hfetch : ∀ tr,
     let status := status_code (respond w tr GET_catalog) in
     400 ≤ status < 600 →
     fetch_repositories w tr =
       (Raised (HTTPError status), tr ++ [Http GET_catalog status])).
  { intros tr status Hst. rewrite fetch_repositories_run. cbv zeta.
    fold status.
    destruct (Z.leb_spec 400 status); [|lia].
    by destruct (Z.ltb_spec status 600); [|lia]. }
  split_and!.
  - intros tr repository status Hex Hst. unfold process_repository.
    rewrite bool_decide_eq_false_2 by done.
    erewrite bind_ok by apply fetch_image_tags_run. fold status.
    destruct (Z.eqb_spec status 200); [done|].
    unfold logging_info, emit. by rewrite <- app_assoc.
  - intros tr repository tag tag_details status Hst.
    rewrite resolve_tag_unfold. cbv zeta. fold status.
    by destruct (Z.eqb_spec status 200).
  - intros tr repository tag tag_details manifest tr1 config_digest status
      Hm Hd Hcd Hst.
    rewrite resolve_tag_unfold. cbv zeta. fold manifest.
    rewrite Hm, Hcd, Hd. simpl. unfold bind.
    rewrite fetch_creation_date_run. cbv zeta.
    fold config_digest tr1 status.
    by destruct (Z.eqb_spec status 200).
  - intros Hreadable tr repository tags. by apply resolve_tags_run.
  - done.
  - intros status Hst. rewrite main_run. unfold process_catalog.
    unfold bind. by rewrite (Hfetch [] Hst).
  - intros Hcatalog Hreadable Hrange.
    destruct (succeeds_process_catalog fromisoformat cfg w Hreadable Hrange
                Hcatalog []) as ([] & Hok).
    destruct (process_catalog fromisoformat cfg w []) as [r tr1] eqn:Hcat.
    simpl in Hok. subst r.
    destruct (process_catalog_trace _ _ _ _ _ Hcat) as (ext1 & Htr1 & _ & Htags).
    set (rc := exit_status w tr1 garbage_collect).
    set (tr2 := tr1 ++ [Run garbage_collect rc; garbage_collection_logged rc]).
    destruct (remove_empty_repositories_trace cfg w tr2 (Hcatalog tr2))
      as (ext & Hsweep & Htags2).
    exists tr1, ext. cbv zeta. fold rc tr2. split_and!; [done| |  |done].
    + rewrite Htr1. done.
    + rewrite main_run, Hcat. cbv zeta. fold rc tr2. by rewrite Hsweep.
Qed.

(** A repository of the exclusion set is left alone while the catalog is
    processed: no request of that phase is made for it. *)
Lemma excluded_repository_not_processed
    (fromisoformat : string → option datetime) (cfg : Config) (h : Host)
    (repo : string) :
  repo ∈ EXCLUDE_REPOS cfg →
  emits (λ ev, ¬ concerns repo ev) (process_catalog fromisoformat cfg h).
Proof.
  intros Hex. unfold process_catalog. apply emits_bind.
  - apply emits_fetch_repositories; [intros st Hc|intros Hc]; exact Hc.
  - intros repositories. apply emits_for_each_repository. intros r.
    destruct (decide (r ∈ EXCLUDE_REPOS cfg)) as [Hr|Hr].
    + unfold process_repository. rewrite bool_decide_eq_true_2 by done.
      apply emits_ret.
    + eapply emits_impl; [|apply emits_process_repository].
      intros ev Hev Hc. apply Hr.
      unfold processes, concerns in *.
      destruct ev as [[]| | | | | |[]|]; simpl in *; try done; by subst.
Qed.


(** ** The normalization of creation dates *)

Lemma drop_last_snoc s c : drop_last (String.append s (String c "")) = s.
Proof.
  induction s as [|a s IH]; [done|].
  simpl. rewrite IH. by destruct s.
Qed.

Lemma chars_app s1 s2 :
  list_ascii_of_string (String.append s1 s2)
  = list_ascii_of_string s1 ++ list_ascii_of_string s2.
Proof. induction s1 as [|a s1 IH]; simpl; by rewrite ?IH. Qed.

Lemma string_of_chars_app l1 l2 :
  string_of_list_ascii (l1 ++ l2)
  = String.append (string_of_list_ascii l1) (string_of_list_ascii l2).
Proof. induction l1 as [|a l1 IH]; simpl; by rewrite ?IH. Qed.

Lemma offset_fixup_chars p suffix suffix' :
  offset_fixup_rev (rev (list_ascii_of_string suffix) ++ rev (list_ascii_of_string p))
  = rev (list_ascii_of_string suffix') ++ rev (list_ascii_of_string p) →
  offset_fixup (String.append p suffix) = String.append p suffix'.
Proof.
  intros H. unfold offset_fixup.
  rewrite chars_app, rev_app_distr, H, <- rev_app_distr, rev_involutive.
  by rewrite string_of_chars_app, !string_of_list_ascii_of_string.
Qed.

(** The fix-up of a string that ends in [+HH:M]. *)
Lemma offset_fixup_single_digit p h1 h2 m :
  is_digit h1 = true → is_digit h2 = true → is_digit m = true →
  offset_fixup
    (String.append p (String plus_sign (String h1 (String h2
       (String colon (String m ""))))))
  = String.append p (String plus_sign (String h1 (String h2
       (String zero_digit (String m ""))))).
Proof.
  intros H1 H2 Hm. apply offset_fixup_chars. simpl.
  by rewrite Hm, H1, H2.
Qed.

(** No fix-up for a string that ends in a character that is neither a
    digit nor a newline. *)
Lemma offset_fixup_other s c :
  is_digit c = false → c ≠ newline →
  offset_fixup (String.append s (String c "")) = String.append s (String c "").
Proof.
  intros Hc Hn. apply offset_fixup_chars. simpl.
  rewrite Hc. simpl. rewrite (bool_decide_eq_false_2 (c = newline)) by done.
  simpl. by repeat case_match.
Qed.

Lemma fixed_date_snoc s c :
  fixed_date (String.append s (String c "")) = offset_fixup s.
Proof. unfold fixed_date. by rewrite drop_last_snoc. Qed.

Lemma append_assoc s1 s2 s3 :
  String.append (String.append s1 s2) s3 = String.append s1 (String.append s2 s3).
Proof.
  induction s1 as [|a s1 IH]; [done|].
  change (String a (String.append (String.append s1 s2) s3)
          = String a (String.append s1 (String.append s2 s3))).
  by rewrite IH.
Qed.

(** A string in which [+HH:M] is followed by one more character. *)
Lemma fixed_date_single_digit p h1 h2 m c :
  is_digit h1 = true → is_digit h2 = true → is_digit m = true →
  fixed_date
    (String.append p (String plus_sign (String h1 (String h2
       (String colon (String m (String c "")))))))
  = String.append p (String plus_sign (String h1 (String h2
       (String zero_digit (String m ""))))).
Proof.
  intros H1 H2 Hm.
  rewrite <- (offset_fixup_single_digit p h1 h2 m) by done.
  rewrite <- (fixed_date_snoc _ c). by rewrite append_assoc.
Qed.

(** A string that ends in [+HH:M] itself. *)
Lemma fixed_date_lost_digit p h1 h2 m :
  fixed_date
    (String.append p (String plus_sign (String h1 (String h2
       (String colon (String m ""))))))
  = String.append p (String plus_sign (String h1 (String h2
       (String colon "")))).
Proof.
  transitivity
    (fixed_date
       (String.append
          (String.append p (String plus_sign (String h1 (String h2
             (String colon "")))))
          (String m ""))).
  { by rewrite append_assoc. }
  rewrite fixed_date_snoc.
  transitivity
    (offset_fixup
       (String.append
          (String.append p (String plus_sign (String h1 (String h2 ""))))
          (String colon ""))).
  { by rewrite append_assoc. }
  rewrite offset_fixup_other; [|done|done].
  by rewrite append_assoc.
Qed.

(** *** The reader of the examples *)

Lemma digit_value_Some c d :
  digit_value c = Some d → is_digit c = true ∧ 0 ≤ d ≤ 9.
Proof.
  unfold digit_value. destruct (is_digit c) eqn:Hc; [|done].
  intros [= <-]. split; [done|].
  unfold is_digit in Hc. apply andb_true_iff in Hc as [H1 H2].
  apply Nat.leb_le in H1, H2. lia.
Qed.

Lemma number_two a b n :
  number [a; b] = Some n →
  ∃ x y, digit_value a = Some x ∧ digit_value b = Some y ∧ n = 10 * x + y.
Proof.
  unfold number. simpl.
  destruct (digit_value a) as [x|]; simpl; [|done].
  destruct (digit_value b) as [y|]; simpl; [|done].
  intros [= <-]. exists x, y. split_and!; [done|done|lia].
Qed.

Lemma is_digit_not_colon c : is_digit c = true → c ≠ colon.
Proof. by intros Hc ->. Qed.

Lemma is_digit_not_newline c : is_digit c = true → c ≠ newline.
Proof. by intros Hc ->. Qed.

Lemma read_date_time_length cs t :
  read_date_time cs = Some t → length cs = 19%nat.
Proof.
  unfold read_date_time.
  do 20 (destruct cs as [|? cs]; [done|]); done.
Qed.

Lemma read_date_time_seconds cs t :
  read_date_time cs = Some t →
  ∃ front c1 c2, cs = front ++ [c1; c2] ∧ is_digit c1 = true ∧ is_digit c2 = true.
Proof.
  intros H. pose proof (read_date_time_length _ _ H) as Hlen.
  do 19 (destruct cs as [|? cs]; [done|]). destruct cs; [|done].
  unfold read_date_time in H.
  destruct (_ && _); [|done].
  repeat match type of H with
  | (?o ≫= _) = Some _ => destruct o eqn:?; simpl in H; [|done]
  end.
  eexists [_;_;_;_;_;_;_;_;_;_;_;_;_;_;_;_;_], _, _. split; [done|].
  match goal with
  | |- is_digit ?c1 = true ∧ is_digit ?c2 = true =>
      match goal with
      | Hn : number [c1; c2] = Some _ |- _ =>
          apply number_two in Hn
            as (x & y & Hx%digit_value_Some & Hy%digit_value_Some & _)
      end
  end.
  tauto.
Qed.

Lemma offset_fixup_date_time p t :
  read_date_time (list_ascii_of_string p) = Some t → offset_fixup p = p.
Proof.
  intros H. destruct (read_date_time_seconds _ _ H) as (front & c1 & c2 & Hcs & H1 & H2).
  unfold offset_fixup. rewrite Hcs, rev_app_distr.
  change (rev [c1; c2] ++ rev front) with (c2 :: c1 :: rev front).
  assert (Hfix : offset_fixup_rev (c2 :: c1 :: rev front) = c2 :: c1 :: rev front).
  { unfold offset_fixup_rev.
    rewrite (bool_decide_eq_false_2 (c1 = colon))
      by by apply is_digit_not_colon.
    rewrite (bool_decide_eq_false_2 (c2 = newline))
      by by apply is_digit_not_newline.
    rewrite andb_false_r. simpl. by repeat case_match. }
  rewrite Hfix.
  change (c2 :: c1 :: rev front) with (rev [c1; c2] ++ rev front).
  by rewrite <- rev_app_distr, rev_involutive, <- Hcs,
    string_of_list_ascii_of_string.
Qed.

Lemma read_isoformat_naive p t :
  read_date_time (list_ascii_of_string p) = Some t →
  read_isoformat p = Some {| wall := t; tzinfo := None |}.
Proof.
  intros H. pose proof (read_date_time_length _ _ H) as Hlen.
  unfold read_isoformat.
  rewrite take_ge, drop_ge, H by lia. done.
Qed.

Lemma read_isoformat_offset p t suffix o :
  read_date_time (list_ascii_of_string p) = Some t →
  read_offset (list_ascii_of_string suffix) = Some o →
  read_isoformat (String.append p suffix) = Some {| wall := t; tzinfo := o |}.
Proof.
  intros H Ho. pose proof (read_date_time_length _ _ H) as Hlen.
  unfold read_isoformat.
  rewrite chars_app, take_app_length', drop_app_length', H, Ho by done. done.
Qed.

Lemma read_offset_basic h1 h2 m1 m2 h m :
  number [h1; h2] = Some h → number [m1; m2] = Some m → h < 24 → m < 60 →
  read_offset [plus_sign; h1; h2; m1; m2]
  = Some (Some ((h * 3600 + m * 60) * 1000000)).
Proof.
  intros Hh Hm ? ?. unfold read_offset. rewrite Hh, Hm. simpl.
  destruct (Z.ltb_spec h 24); [|lia]. by destruct (Z.ltb_spec m 60); [|lia].
Qed.

Lemma read_offset_extended h1 h2 m1 m2 h m :
  number [h1; h2] = Some h → number [m1; m2] = Some m → h < 24 → m < 60 →
  read_offset [plus_sign; h1; h2; colon; m1; m2]
  = Some (Some ((h * 3600 + m * 60) * 1000000)).
Proof.
  intros Hh Hm ? ?. unfold read_offset. simpl. rewrite Hh, Hm. simpl.
  destruct (Z.ltb_spec h 24); [|lia]. by destruct (Z.ltb_spec m 60); [|lia].
Qed.

Lemma number_padded m d :
  digit_value m = Some d → number [zero_digit; m] = Some d.
Proof. intros H. unfold number. simpl. by rewrite H. Qed.

Lemma offset_fixup_rev_cases r :
  offset_fixup_rev r = r
  ∨ (∃ m h2 h1 rest,
       is_digit m = true ∧ is_digit h2 = true ∧ is_digit h1 = true
       ∧ r = m :: colon :: h2 :: h1 :: plus_sign :: rest
       ∧ offset_fixup_rev r = m :: zero_digit :: h2 :: h1 :: plus_sign :: rest)
  ∨ (∃ m h2 h1 rest,
       is_digit m = true ∧ is_digit h2 = true ∧ is_digit h1 = true
       ∧ r = newline :: m :: colon :: h2 :: h1 :: plus_sign :: rest
       ∧ offset_fixup_rev r
         = newline :: m :: zero_digit :: h2 :: h1 :: plus_sign :: rest).
Proof.
  destruct r as [|d [|c [|d2 [|d1 [|p rest]]]]]; try by left.
  unfold offset_fixup_rev.
  destruct (is_digit d && bool_decide (c = colon) && is_digit d2 && is_digit d1
            && bool_decide (p = plus_sign)) eqn:Hfirst.
  - right. left.
    do 4 (apply andb_true_iff in Hfirst as [Hfirst ?]).
    repeat match goal with
           | H : bool_decide _ = true |- _ => apply bool_decide_eq_true in H
           end.
    subst c p. exists d, d2, d1, rest. by split_and!.
  - destruct rest as [|p' rest']; [by left|].
    destruct (bool_decide (d = newline) && is_digit c && bool_decide (d2 = colon)
              && is_digit d1 && is_digit p && bool_decide (p' = plus_sign))
      eqn:Hsecond; [|by left].
    right. right.
    do 5 (apply andb_true_iff in Hsecond as [Hsecond ?]).
    repeat match goal with
           | H : bool_decide _ = true |- _ => apply bool_decide_eq_true in H
           end.
    subst d d2 p'. exists c, d1, p, rest'. by split_and!.
Qed.

Lemma length_string_of_chars l :
  String.length (string_of_list_ascii l) = length l.
Proof. induction l as [|c l IH]; simpl; [done|by f_equal]. Qed.

Lemma length_chars s : length (list_ascii_of_string s) = String.length s.
Proof. induction s as [|c s IH]; simpl; [done|by f_equal]. Qed.

Lemma length_drop_last s :
  String.length (drop_last s) = Nat.pred (String.length s).
Proof.
  induction s as [|c s IH]; [done|]. simpl.
  destruct s as [|c' s']; [done|]. simpl in *. by rewrite IH.
Qed.

Lemma string_of_rev_chars s :
  string_of_list_ascii (rev (rev (list_ascii_of_string s))) = s.
Proof. by rewrite rev_involutive, string_of_list_ascii_of_string. Qed.

Lemma length_offset_fixup s :
  String.length (offset_fixup s) = String.length s.
Proof.
  unfold offset_fixup.
  rewrite length_string_of_chars, length_rev, <- length_chars.
  rewrite <- (length_rev (list_ascii_of_string s)).
  destruct (offset_fixup_rev_cases (rev (list_ascii_of_string s)))
    as [->|[(m & h2 & h1 & rest & _ & _ & _ & -> & ->)
           |(m & h2 & h1 & rest & _ & _ & _ & -> & ->)]]; done.
Qed.

Lemma length_fixed_date s :
  String.length (fixed_date s) = Nat.pred (String.length s).
Proof. unfold fixed_date. by rewrite length_offset_fixup, length_drop_last. Qed.

(** The reader rejects what is left of a plain date and time when its
    last character is cut. *)
Lemma read_isoformat_cut p t :
  read_date_time (list_ascii_of_string p) = Some t →
  read_isoformat (fixed_date p) = None.
Proof.
  intros H%read_date_time_length. unfold read_isoformat.
  destruct (read_date_time _) as [t'|] eqn:Hcut; [|done].
  apply read_date_time_length in Hcut. rewrite length_take in Hcut.
  rewrite length_chars in H, Hcut. rewrite length_fixed_date in Hcut. lia.
Qed.

(** The reader rejects an offset that stops at its colon. *)
Lemma read_isoformat_lost_digit p t h1 h2 :
  read_date_time (list_ascii_of_string p) = Some t →
  read_isoformat
    (String.append p (String plus_sign (String h1 (String h2
       (String colon "")))))
  = None.
Proof.
  intros H. pose proof (read_date_time_length _ _ H) as Hlen.
  unfold read_isoformat.
  by rewrite chars_app, take_app_length', drop_app_length', H by done.
Qed.

(** C5. The script does not correct a creation date whose offset ends in
    a single minute digit.  The regular expression would pad the digit,
    and the padded date is read with the offset of HH hours and M minutes;
    but [fetch_creation_date] drops the last character of the date first:
    the digit is lost, the pattern has nothing left to match, the parser
    is handed the date ending in [+HH:], and the reader of the ISO forms
    rejects it, so that the ValueError is raised.  The same cut makes the
    reader reject a plain date and time written without a timezone,
    instead of its being read in UTC. *)
Theorem C5_single_digit_minute_is_cut_not_padded
    (fromisoformat : string → option datetime) :
  (∀ p h1 h2 m,
     is_digit h1 = true → is_digit h2 = true → is_digit m = true →
     offset_fixup
       (String.append p (String plus_sign (String h1 (String h2
          (String colon (String m ""))))))
     = String.append p (String plus_sign (String h1 (String h2
          (String zero_digit (String m "")))))) ∧
  (∀ p h1 h2 m,
     fixed_date
       (String.append p (String plus_sign (String h1 (String h2
          (String colon (String m ""))))))
     = String.append p (String plus_sign (String h1 (String h2
          (String colon ""))))) ∧
  (∀ w tr repository config_digest p h1 h2 m,
     let created_date :=
       String.append p (String plus_sign (String h1 (String h2
         (String colon (String m ""))))) in
     let cut :=
       String.append p (String plus_sign (String h1 (String h2
         (String colon "")))) in
     let response := respond w tr (GET_blob repository config_digest) in
     status_code response = 200 →
     json_created response = Some created_date →
     fetch_creation_date fromisoformat w repository config_digest tr =
       (match fromisoformat cut with
        | Some dt => Ok (Some (ensure_aware dt))
        | None => Raised (ValueError cut)
        end,
        tr ++ [Http (GET_blob repository config_digest) 200])) ∧
  (∀ p t h1 h2 m hours minutes,
     read_date_time (list_ascii_of_string p) = Some t →
     number [h1; h2] = Some hours → hours < 24 →
     digit_value m = Some minutes →
     read_isoformat
       (String.append p (String plus_sign (String h1 (String h2
          (String zero_digit (String m ""))))))
     = Some {| wall := t;
               tzinfo := Some ((hours * 3600 + minutes * 60) * 1000000) |}
     ∧ read_isoformat
         (String.append p (String plus_sign (String h1 (String h2
            (String colon "")))))
       = None) ∧
  (∀ p t,
     read_date_time (list_ascii_of_string p) = Some t →
     ensure_aware <$> read_isoformat p = Some (utc t)
     ∧ read_isoformat (fixed_date p) = None).
Proof.
  split_and!.
  - intros. by apply offset_fixup_single_digit.
  - apply fixed_date_lost_digit.
  - intros w tr repository config_digest p h1 h2 m created_date cut response
      Hst Hc.
    rewrite fetch_creation_date_run. cbv zeta. fold response.
    rewrite Hst, Hc. simpl.
    assert (Hne : String.eqb created_date "" = false).
    { subst created_date. by destruct p. }
    rewrite Hne. simpl. subst created_date cut.
    by rewrite fixed_date_lost_digit.
  - intros p t h1 h2 m hours minutes Ht Hh Hlt Hm.
    destruct (digit_value_Some _ _ Hm) as [Hd Hrange].
    split; [|by apply (read_isoformat_lost_digit p t)].
    apply read_isoformat_offset; [done|].
    apply read_offset_basic; [done|by apply number_padded|done|lia].
  - intros p t Ht. split; [|by apply (read_isoformat_cut p t)].
    by rewrite (read_isoformat_naive p t).
Qed.

(** C10 (amended). The normalization drops the last character of every
    creation date, whatever it is, before the offset fix-up.  So a date
    ending in [+HH:M1M2] comes out ending in [+HH0M1], an offset of HH
    hours and M1 minutes, which is the offset the date was written with
    exactly when its minutes are 00; a date and time followed by [Z] is
    handed to the parser without the [Z] and comes out in UTC; and a date
    ending in [+HH:M] itself comes out ending in [+HH:], its minute digit
    lost and nothing padded. *)
Theorem C10_last_character_always_dropped :
  (∀ s c, fixed_date (String.append s (String c "")) = offset_fixup s) ∧
  (∀ p h1 h2 m1 m2,
     is_digit h1 = true → is_digit h2 = true → is_digit m1 = true →
     fixed_date
       (String.append p (String plus_sign (String h1 (String h2
          (String colon (String m1 (String m2 "")))))))
     = String.append p (String plus_sign (String h1 (String h2
          (String zero_digit (String m1 "")))))) ∧
  (∀ h1 h2 m1 m2 hours minutes,
     number [h1; h2] = Some hours → number [m1; m2] = Some minutes →
     hours < 24 → minutes < 60 →
     (read_offset [plus_sign; h1; h2; zero_digit; m1]
      = read_offset [plus_sign; h1; h2; colon; m1; m2] ↔ minutes = 0)) ∧
  (∀ p t,
     read_date_time (list_ascii_of_string p) = Some t →
     fixed_date (String.append p "Z") = p
     ∧ ensure_aware <$> read_isoformat (fixed_date (String.append p "Z"))
       = Some (utc t)) ∧
  (∀ p h1 h2 m,
     fixed_date
       (String.append p (String plus_sign (String h1 (String h2
          (String colon (String m ""))))))
     = String.append p (String plus_sign (String h1 (String h2
          (String colon ""))))).
Proof.
  split_and!.
  - apply fixed_date_snoc.
  - intros. by apply fixed_date_single_digit.
  - intros h1 h2 m1 m2 hours minutes Hh Hm Hlt Hlt'.
    destruct (number_two _ _ _ Hm) as (x & y & Hx & Hy & ->).
    destruct (digit_value_Some _ _ Hx) as [_ ?], (digit_value_Some _ _ Hy) as [_ ?].
    rewrite (read_offset_basic h1 h2 zero_digit m1 hours x),
      (read_offset_extended h1 h2 m1 m2 hours (10 * x + y));
      [|done|done|lia|lia|done|by apply number_padded|lia|lia].
    split; [intros [=]; lia|intros ?; do 2 f_equal; lia].
  - intros p t Ht.
    assert (Hfix : fixed_date (String.append p "Z") = p).
    { by rewrite fixed_date_snoc, (offset_fixup_date_time p t). }
    split; [done|]. rewrite Hfix, (read_isoformat_naive p t) by done. done.
  - apply fixed_date_lost_digit.
Qed.

(** ** The example of the three records *)

Lemma insert_desc_older (x y : tag_detail) l :
  instant (td_creation_date x) < instant (td_creation_date y) →
  insert_desc x (y :: l) = y :: insert_desc x l.
Proof.
  intros H. simpl.
  destruct (Z.gtb_spec (instant (td_creation_date y))
                       (instant (td_creation_date x))); [done|lia].
Qed.

(** C4. For the records A, B and C created 40, 10 and 1 days before [T],
    with one image kept and a threshold of 20 days at time [T]: the
    protected set is C alone, the only record handed to deletion is A, and
    B, which is younger than the threshold, is kept.  So the script, when
    its clock shows [T], requests one deletion, that of the manifest of A,
    and no other. *)
Theorem C4_protects_C_keeps_B_deletes_A
    (T threshold_date : Z) (dA dB dC : string)
    (Hthreshold : minus_days T 20 = Some threshold_date) :
  let A : tag_detail := ("A", utc (T - 40 * DAY), dA) in
  let B : tag_detail := ("B", utc (T - 10 * DAY), dB) in
  let C : tag_detail := ("C", utc (T - 1 * DAY), dC) in
  sort_desc [A; B; C] = [C; B; A]
  ∧ protected_tags [A; B; C] 1 = {[ "C" ]}
  ∧ decide_deletions [A; B; C] 1 threshold_date = [A]
  ∧ (B ∉ decide_deletions [A; B; C] 1 threshold_date)
  ∧ (C ∉ decide_deletions [A; B; C] 1 threshold_date)
  ∧ instant (td_creation_date A) < threshold_date
      ≤ instant (td_creation_date B)
  ∧ (∀ w repository tr,
       clock w tr = T →
       let status :=
         status_code (respond w (tr ++ [Now T])
                        (DELETE_manifest repository dA)) in
       retain w repository [A; B; C] 1 20 tr =
         (Ok tt,
          tr ++ Now T :: Http (DELETE_manifest repository dA) status
             :: (if status =? 202
                 then [LogInfo (Deleted_image repository "A" dA)]
                 else []))).
Proof.
  intros A B C. pose proof Hthreshold as Hminus.
  apply minus_days_Some in Hthreshold.
  assert (HA : instant (td_creation_date A) = T - 40 * DAY)
    by (unfold instant; simpl; lia).
  assert (HB : instant (td_creation_date B) = T - 10 * DAY)
    by (unfold instant; simpl; lia).
  assert (HC : instant (td_creation_date C) = T - 1 * DAY)
    by (unfold instant; simpl; lia).
  assert (Hday : DAY = 86400000000) by done.
  assert (Hsort : sort_desc [A; B; C] = [C; B; A]).
  { unfold sort_desc. cbn [foldr].
    change (insert_desc C []) with [C].
    rewrite (insert_desc_older B C) by lia.
    change (insert_desc B []) with [B].
    rewrite (insert_desc_older A C), (insert_desc_older A B) by lia.
    done. }
  assert (Hprotected : protected_tags [A; B; C] 1 = {[ "C" ]}).
  { unfold protected_tags. rewrite Hsort. unfold recent_tags. simpl.
    apply (right_id_L ∅ (∪)). }
  assert (Hdelete : decide_deletions [A; B; C] 1 threshold_date = [A]).
  { unfold decide_deletions. cbv zeta.
    fold (protected_tags [A; B; C] 1). rewrite Hprotected, Hsort.
    unfold to_delete.
    rewrite filter_cons_False
      by (intros [Hn _]; apply Hn; by apply elem_of_singleton).
    rewrite filter_cons_False by (intros [_ ?]; lia).
    rewrite filter_cons_True; [done|].
    split; [by intros [=]%elem_of_singleton|lia]. }
  split_and!; try done.
  - rewrite Hdelete. by intros [=]%list_elem_of_singleton.
  - rewrite Hdelete. by intros [=]%list_elem_of_singleton.
  - lia.
  - lia.
  - intros w repository tr Hclock status.
    rewrite retain_run. cbv zeta. rewrite Hclock, Hminus, Hdelete.
    simpl. fold status. rewrite app_nil_r, <- app_assoc. done.
Qed.

(** ** Runs on the example registries *)

Example fixed_date_Z :
  fixed_date "2024-01-01T00:00:00.5Z" = "2024-01-01T00:00:00.5".
Proof. reflexivity. Qed.

Example fixed_date_trailing_newline :
  fixed_date (String.append "2024-01-01T00:00:00+05:3" (String newline "Z"))
  = String.append "2024-01-01T00:00:00+0503" (String newline "").
Proof. reflexivity. Qed.

Example path_join_absolute : path_join "/var/lib/registry" "/etc" = "/etc".
Proof. reflexivity. Qed.

Example app_registry_processed :
  process_catalog read_isoformat (default_config []) (app_registry 202) [] =
    (Ok tt,
     [Http GET_catalog 200; Http (GET_tags "app") 200;
      Http (GET_manifest "app" "A") 200; Http (GET_blob "app" "sha256:cA") 200;
      Http (GET_manifest "app" "B") 200; Http (GET_blob "app" "sha256:cB") 200;
      Http (GET_manifest "app" "C") 200; Http (GET_blob "app" "sha256:cC") 200;
      Now march_first;
      Http (DELETE_manifest "app" "sha256:mA") 202;
      LogInfo (Deleted_image "app" "A" "sha256:mA")]).
Proof. vm_compute. reflexivity. Qed.

Example app_registry_run :
  run read_isoformat (default_config []) (app_registry 202) =
    [Http GET_catalog 200; Http (GET_tags "app") 200;
     Http (GET_manifest "app" "A") 200; Http (GET_blob "app" "sha256:cA") 200;
     Http (GET_manifest "app" "B") 200; Http (GET_blob "app" "sha256:cB") 200;
     Http (GET_manifest "app" "C") 200; Http (GET_blob "app" "sha256:cC") 200;
     Now march_first;
     Http (DELETE_manifest "app" "sha256:mA") 202;
     LogInfo (Deleted_image "app" "A" "sha256:mA");
     Run garbage_collect 0; LogInfo Garbage_collection_completed;
     Http GET_catalog 200; Http (GET_tags "app") 200].
Proof. vm_compute. reflexivity. Qed.

(** C1. The exclusion set holds [keep] and the catalog lists [keep], a
    repository without tags.  Processing leaves [keep] alone, but the
    orphan sweep requests its tag list and removes its directory. *)
Theorem C1_excluded_repository_is_swept :
  "keep" ∈ EXCLUDE_REPOS (default_config ["keep"]) ∧
  run read_isoformat (default_config ["keep"]) keep_registry =
    [Http GET_catalog 200;
     Run garbage_collect 0; LogInfo Garbage_collection_completed;
     Http GET_catalog 200; Http (GET_tags "keep") 200;
     LogInfo (Removing_orphaned_repository "keep");
     OnDisk "/var/lib/registry/docker/registry/v2/repositories/keep" true;
     Run (rm_rf "/var/lib/registry/docker/registry/v2/repositories/keep") 0;
     LogInfo (Orphaned_repository_removed "keep")].
Proof. split; [apply list_elem_of_here|]. vm_compute. reflexivity. Qed.

(** In the example of the three records, B is neither protected nor
    handed to deletion: the protected tags and the tags handed to deletion
    do not make up the input tags, and the script deletes A alone. *)
Lemma C3_counterexample :
  NoDup (td_tag <$> sample_records)
  ∧ "B" ∈ (list_to_set (td_tag <$> sample_records) : gset string)
  ∧ ("B" ∉ protected_tags sample_records 1
          ∪ deletion_tags sample_records 1 (march_first - 20 * DAY))
  ∧ protected_tags sample_records 1
      ∪ deletion_tags sample_records 1 (march_first - 20 * DAY)
    ≠ list_to_set (td_tag <$> sample_records)
  ∧ deletes_requested
      (retain (app_registry 202) "app" sample_records 1 20 []).2
    = [("app", "sha256:mA")].
Proof.
  assert (Hin : "B" ∈ (list_to_set (td_tag <$> sample_records) : gset string)).
  { apply (bool_decide_unpack _). vm_compute. exact I. }
  assert (Hout : "B" ∉ protected_tags sample_records 1
          ∪ deletion_tags sample_records 1 (march_first - 20 * DAY)).
  { apply (bool_decide_unpack _). vm_compute. exact I. }
  split_and!; [|done|done| |].
  - apply (bool_decide_unpack _). vm_compute. exact I.
  - intros Heq. apply Hout. by rewrite Heq.
  - vm_compute. reflexivity.
Qed.

(** A catalog answered with 500 ends the run: no repository is processed,
    no garbage is collected, nothing is swept. *)
Lemma C6_counterexample :
  run read_isoformat (default_config []) failing_registry =
    [Http GET_catalog 500; LogError (Error_message (HTTPError 500))].
Proof. vm_compute. reflexivity. Qed.

(** A deletion answered with 500: nothing is logged for it, and it is
    counted, so that the line saying no image was to delete is not logged
    either. *)
Lemma C7_counterexample :
  run read_isoformat (default_config []) (app_registry 500) =
    [Http GET_catalog 200; Http (GET_tags "app") 200;
     Http (GET_manifest "app" "A") 200; Http (GET_blob "app" "sha256:cA") 200;
     Http (GET_manifest "app" "B") 200; Http (GET_blob "app" "sha256:cB") 200;
     Http (GET_manifest "app" "C") 200; Http (GET_blob "app" "sha256:cC") 200;
     Now march_first;
     Http (DELETE_manifest "app" "sha256:mA") 500;
     Run garbage_collect 0; LogInfo Garbage_collection_completed;
     Http GET_catalog 200; Http (GET_tags "app") 200]
  ∧ for_fold (sort_desc sample_records)
      (delete_if_old (app_registry 500) "app"
         (recent_tags (sort_desc sample_records) 1)
         (march_first - 20 * DAY)) 0 []
    = (Ok 1, [Http (DELETE_manifest "app" "sha256:mA") 500]).
Proof. split; vm_compute; reflexivity. Qed.

(** A run whose catalog is answered with 500 collects no garbage. *)
Lemma C8_counterexample :
  garbage_collections (run read_isoformat (default_config []) failing_registry)
  = [].
Proof. vm_compute. reflexivity. Qed.

(** A date written with the offset [+05:00] ends in neither [Z] nor a
    single-digit minute; it is rewritten to [+0500], the same offset, and
    read with it. *)
Lemma C10_counterexample :
  fixed_date "2024-01-01T00:00:00+05:00" = "2024-01-01T00:00:00+0500"
  ∧ read_isoformat (fixed_date "2024-01-01T00:00:00+05:00")
    = read_isoformat "2024-01-01T00:00:00+05:00"
  ∧ read_isoformat "2024-01-01T00:00:00+05:00"
    = Some {| wall := 1704067200000000; tzinfo := Some 18000000000 |}
  ∧ read_isoformat (fixed_date "2024-01-01T00:00:00+05:3") = None.
Proof. split_and!; vm_compute; reflexivity. Qed.

(** ** The properties at concrete inputs *)

Lemma C2_witness :
  let B : tag_detail := ("B", utc (march_first - 10 * DAY), "sha256:mB") in
  march_first - 20 * DAY = march_first - 20 * DAY
  ∧ (B ∉ decide_deletions sample_records 1 (march_first - 20 * DAY)).
Proof.
  intros B.
  destruct (C2_not_older_than_threshold_is_kept sample_records 1 20
              march_first (march_first - 20 * DAY) B)
    as (Hthreshold & Hkept & _).
  - reflexivity.
  - split; [exact Hthreshold|]. apply Hkept. vm_compute. discriminate.
Defined.

Lemma C3_witness :
  (td_tag <$> slice_to 1 (sort_desc sample_records)) = ["C"]
  ∧ (td_tag <$> decide_deletions sample_records 1 (march_first - 20 * DAY))
    = ["A"]
  ∧ (td_tag <$> kept_by_age (protected_tags sample_records 1)
                  (march_first - 20 * DAY) (sort_desc sample_records))
    = ["B"]
  ∧ ["C"] ++ ["A"] ++ ["B"] ≡ₚ td_tag <$> sample_records
  ∧ ∃ ext,
      retain (app_registry 202) "app" sample_records 1 20 [] = (Ok tt, ext)
      ∧ deletes_requested ext = [("app", "sha256:mA")].
Proof.
  assert (Hnd : NoDup (td_tag <$> sample_records)).
  { apply (bool_decide_unpack _). vm_compute. exact I. }
  destruct (C3_protected_deleted_and_kept_partition sample_records 1
              (march_first - 20 * DAY) Hnd)
    as (_ & Hperm & _ & _ & _ & _ & Hscript).
  split_and!; [vm_compute; reflexivity..| |].
  - exact Hperm.
  - destruct (Hscript (app_registry 202) "app" 20 []) as (ext & Hrun & Hext);
      [reflexivity|].
    exists ext. split; [exact Hrun|exact Hext].
Defined.

Lemma C4_witness :
  decide_deletions sample_records 1 (march_first - 20 * DAY)
  = [("A", utc (march_first - 40 * DAY), "sha256:mA")]
  ∧ retain (app_registry 202) "app" sample_records 1 20 [] =
      (Ok tt, [Now march_first; Http (DELETE_manifest "app" "sha256:mA") 202;
               LogInfo (Deleted_image "app" "A" "sha256:mA")]).
Proof.
  destruct (C4_protects_C_keeps_B_deletes_A march_first (march_first - 20 * DAY)
              "sha256:mA" "sha256:mB" "sha256:mC")
    as (_ & _ & Hdecided & _ & _ & _ & Hscript).
  - reflexivity.
  - split; [exact Hdecided|].
    apply (Hscript (app_registry 202) "app" []). reflexivity.
Defined.

Lemma C5_witness :
  offset_fixup "2024-01-01T00:00:00+05:3" = "2024-01-01T00:00:00+0503"
  ∧ read_isoformat "2024-01-01T00:00:00+0503"
    = Some {| wall := 1704067200000000;
              tzinfo := Some ((5 * 3600 + 3 * 60) * 1000000) |}
  ∧ fixed_date "2024-01-01T00:00:00+05:3" = "2024-01-01T00:00:00+05:"
  ∧ read_isoformat "2024-01-01T00:00:00+05:" = None
  ∧ fetch_creation_date read_isoformat
      (stamp_registry "2024-01-01T00:00:00+05:3") "app" "sha256:cA" []
    = (Raised (ValueError "2024-01-01T00:00:00+05:"),
       [Http (GET_blob "app" "sha256:cA") 200])
  ∧ run read_isoformat (default_config [])
        (stamp_registry "2024-01-01T00:00:00+05:3") =
      [Http GET_catalog 200; Http (GET_tags "app") 200;
       Http (GET_manifest "app" "A") 200; Http (GET_blob "app" "sha256:cA") 200;
       LogError (Error_message (ValueError "2024-01-01T00:00:00+05:"))]
  ∧ read_isoformat (fixed_date "2024-01-01T00:00:00") = None
  ∧ run read_isoformat (default_config [])
        (stamp_registry "2024-01-01T00:00:00") =
      [Http GET_catalog 200; Http (GET_tags "app") 200;
       Http (GET_manifest "app" "A") 200; Http (GET_blob "app" "sha256:cA") 200;
       LogError (Error_message (ValueError "2024-01-01T00:00:0"))].
Proof.
  destruct (C5_single_digit_minute_is_cut_not_padded read_isoformat)
    as (Hpad & Hcut & Hfetch & Hread & Hnaive).
  assert (Ht : read_date_time (list_ascii_of_string "2024-01-01T00:00:00")
               = Some 1704067200000000) by (vm_compute; reflexivity).
  destruct (Hread "2024-01-01T00:00:00" 1704067200000000
              "0"%char "5"%char "3"%char 5 3) as [Hpadded Hlost];
    [exact Ht|vm_compute; reflexivity|lia|vm_compute; reflexivity|].
  split_and!.
  - apply (Hpad "2024-01-01T00:00:00" "0"%char "5"%char "3"%char);
      reflexivity.
  - exact Hpadded.
  - apply (Hcut "2024-01-01T00:00:00" "0"%char "5"%char "3"%char).
  - exact Hlost.
  - rewrite (Hfetch (stamp_registry "2024-01-01T00:00:00+05:3") [] "app"
               "sha256:cA" "2024-01-01T00:00:00" "0"%char "5"%char "3"%char)
      by reflexivity.
    simpl String.append. rewrite Hlost. reflexivity.
  - vm_compute. reflexivity.
  - apply (Hnaive "2024-01-01T00:00:00" 1704067200000000). exact Ht.
  - vm_compute. reflexivity.
Defined.

Lemma C6_witness :
  process_repository read_isoformat (default_config []) patchy_registry "web" []
    = (Ok tt, [Http (GET_tags "web") 503; LogInfo (Skipping_no_images "web")])
  ∧ resolve_tag read_isoformat patchy_registry "app" "A" [] []
    = (Ok [], [Http (GET_manifest "app" "A") 404])
  ∧ resolve_tag read_isoformat patchy_registry "app" "B" [] []
    = (Ok [], [Http (GET_manifest "app" "B") 200;
               Http (GET_blob "app" "sha256:cB") 500])
  ∧ (∃ tag_details ext,
       for_fold ["A"; "B"; "C"; "D"]
         (resolve_tag read_isoformat patchy_registry "app") [] []
         = (Ok tag_details, ext)
       ∧ manifests_requested ext
         = [("app", "A"); ("app", "B"); ("app", "C"); ("app", "D")])
  ∧ fetch_repositories failing_registry []
    = (Raised (HTTPError 500), [Http GET_catalog 500])
  ∧ main read_isoformat (default_config []) failing_registry []
    = (Ok tt, [Http GET_catalog 500; LogError (Error_message (HTTPError 500))])
  ∧ (∃ tr1 ext,
       process_catalog read_isoformat (default_config []) patchy_registry []
         = (Ok tt, tr1)
       ∧ tags_requested tr1 = ["app"; "web"]
       ∧ main read_isoformat (default_config []) patchy_registry [] =
           (Ok tt,
            tr1 ++ [Run garbage_collect 0; LogInfo Garbage_collection_completed]
                ++ Http GET_catalog 200 :: ext)
       ∧ tags_requested ext = ["app"; "web"])
  ∧ run read_isoformat (default_config []) patchy_registry =
      [Http GET_catalog 200;
       Http (GET_tags "app") 200;
       Http (GET_manifest "app" "A") 404;
       Http (GET_manifest "app" "B") 200; Http (GET_blob "app" "sha256:cB") 500;
       Http (GET_manifest "app" "C") 200; Http (GET_blob "app" "sha256:cC") 200;
       Http (GET_manifest "app" "D") 200; Http (GET_blob "app" "sha256:cD") 200;
       Now march_first;
       Http (DELETE_manifest "app" "sha256:mC") 202;
       LogInfo (Deleted_image "app" "C" "sha256:mC");
       Http (GET_tags "web") 503; LogInfo (Skipping_no_images "web");
       Run garbage_collect 0; LogInfo Garbage_collection_completed;
       Http GET_catalog 200;
       Http (GET_tags "app") 200;
       Http (GET_tags "web") 503;
       LogInfo (Removing_orphaned_repository "web");
       OnDisk "/var/lib/registry/docker/registry/v2/repositories/web" false].
Proof.
  destruct (C6_fetch_failures_skip_one_unit read_isoformat (default_config [])
              patchy_registry)
    as (Htags & Hmanifest & Hblob & Hloop & _ & _ & Hrun).
  destruct (C6_fetch_failures_skip_one_unit read_isoformat (default_config [])
              failing_registry)
    as (_ & _ & _ & _ & Hcatalog & Hmain & _).
  assert (Hreadable : timestamps_readable read_isoformat patchy_registry).
  { intros tr repository config_digest created_date _ Hcreated _.
    simpl in Hcreated.
    destruct (String.eqb config_digest "sha256:cB"); simpl in Hcreated;
      [discriminate|].
    destruct (String.eqb config_digest "sha256:cC");
      injection Hcreated as <-; by eexists. }
  split_and!.
  - apply (Htags [] "web"); [apply not_elem_of_nil|vm_compute; discriminate].
  - apply (Hmanifest [] "app" "A" []). vm_compute. discriminate.
  - apply (Hblob [] "app" "B" []);
      [reflexivity|reflexivity|reflexivity|vm_compute; discriminate].
  - destruct (Hloop Hreadable [] "app" ["A"; "B"; "C"; "D"])
      as (tag_details & ext & Hfold & Hext).
    exists tag_details, ext. split; [exact Hfold|exact Hext].
  - apply (Hcatalog []). simpl. lia.
  - apply Hmain. simpl. lia.
  - destruct Hrun as (tr1 & ext & Hcat & Htr1 & Hmain' & Hsweep).
    + intros tr. simpl. lia.
    + exact Hreadable.
    + intros tr repository. by eexists.
    + exists tr1, ext. split_and!.
      * exact Hcat.
      * rewrite Htr1. vm_compute. reflexivity.
      * rewrite Hmain'. simpl. rewrite <- app_assoc. reflexivity.
      * exact Hsweep.
  - vm_compute. reflexivity.
Defined.

Lemma C8_witness :
  garbage_collections (run read_isoformat (default_config []) (app_registry 202))
  = [0].
Proof.
  apply (proj2 (C8_garbage_collection_between_processing_and_sweep
                  read_isoformat (default_config []) (app_registry 202))
           _ app_registry_processed).
Defined.

Lemma C9_witness :
  let repo_path := "/var/lib/registry/docker/registry/v2/repositories/app" in
  fetch_image_tags flaky_registry "app" [] = (Ok [], [Http (GET_tags "app") 503])
  ∧ ∃ rc, Run (rm_rf repo_path) rc
          ∈ (remove_empty_repositories (default_config []) flaky_registry []).2.
Proof.
  intros repo_path.
  destruct (C9_failed_listing_is_swept_as_empty (default_config [])
              flaky_registry "app") as [Hone Hsweep].
  split.
  - apply (Hone []). left. vm_compute. discriminate.
  - apply (Hsweep []).
    + vm_compute. intros [H _]. apply H. reflexivity.
    + apply list_elem_of_here.
    + intros tr0. vm_compute. discriminate.
    + intros tr0. reflexivity.
Defined.

Lemma C10_witness :
  fixed_date "2024-01-01T00:00:00+05:30" = "2024-01-01T00:00:00+0503"
  ∧ (read_offset (list_ascii_of_string "+0503")
     = read_offset (list_ascii_of_string "+05:30") ↔ 30 = 0)
  ∧ fixed_date "2024-01-01T00:00:00Z" = "2024-01-01T00:00:00".
Proof.
  destruct C10_last_character_always_dropped
    as (_ & Hpad & Hoffset & HZ & _).
  split_and!.
  - apply (Hpad "2024-01-01T00:00:00" "0"%char "5"%char "3"%char "0"%char);
      reflexivity.
  - apply (Hoffset "0"%char "5"%char "3"%char "0"%char 5 30);
      [reflexivity|reflexivity|lia|lia].
  - apply (HZ "2024-01-01T00:00:00" 1704067200000000). vm_compute. reflexivity.
Defined.

(** * Further properties *)

(** ** More on the retention decision *)

(** X1. The sort of line 153 rearranges the resolved records, most recent
    first, and records created at the same time keep their order. *)
Theorem X1_sort_is_stable_and_descending (records : list tag_detail) :
  sort_desc records ≡ₚ records
  ∧ StronglySorted
      (λ x y, instant (td_creation_date y) ≤ instant (td_creation_date x))
      (sort_desc records)
  ∧ ∀ t, filter (λ y, instant (td_creation_date y) = t) (sort_desc records)
         = filter (λ y, instant (td_creation_date y) = t) records.
Proof.
  split_and!.
  - apply sort_desc_perm.
  - apply sort_desc_sorted.
  - intros t. apply sort_desc_stable.
Qed.

Lemma slice_to_all {A} n (l : list A) :
  Z.of_nat (length l) ≤ n → slice_to n l = l.
Proof.
  intros Hn. unfold slice_to.
  destruct (Z.leb_spec 0 n); [|lia]. apply take_ge. lia.
Qed.

Lemma to_delete_none recent threshold_date (tag_details : list tag_detail) :
  (∀ x, x ∈ tag_details → td_tag x ∈ recent) →
  to_delete recent threshold_date tag_details = [].
Proof.
  intros Hall. unfold to_delete. apply filter_none, Forall_forall.
  intros x Hx [Hn _]. by apply Hn, Hall.
Qed.

(** X2. When [recent_count] is at least the number of resolved records,
    every record is protected: nothing is handed to deletion, and the
    script, once it has read the clock, requests no deletion and logs that
    all images are within the retention policy. *)
Theorem X2_recent_count_covers_all_records
    (records : list tag_detail) (recent_count : Z)
    (Hcount : Z.of_nat (length records) ≤ recent_count) :
  (∀ threshold_date,
     decide_deletions records recent_count threshold_date = []) ∧
  (∀ w repository days_threshold tr,
     is_Some (minus_days (clock w tr) days_threshold) →
     retain w repository records recent_count days_threshold tr =
       (Ok tt, tr ++ [Now (clock w tr);
                      LogInfo (Skipping_within_retention_policy repository)])).
Proof.
  assert (Hnone : ∀ threshold_date,
            decide_deletions records recent_count threshold_date = []).
  { intros threshold_date. unfold decide_deletions. cbv zeta.
    apply to_delete_none. intros x Hx. unfold recent_tags.
    rewrite slice_to_all
      by (rewrite (Permutation_length (sort_desc_perm records)); done).
    apply elem_of_list_to_set. by apply list_elem_of_fmap_2. }
  split; [done|].
  intros w repository days_threshold tr [threshold_date Hthr].
  rewrite retain_run. cbv zeta. rewrite Hthr, Hnone. simpl.
  by rewrite <- app_assoc.
Qed.

Lemma StronglySorted_take_drop {A} (R : A → A → Prop) k (l : list A) x y :
  StronglySorted R l → x ∈ take k l → y ∈ drop k l → R x y.
Proof.
  intros Hs. revert k. induction Hs as [|a l Hs IH Ha]; intros k Hx Hy.
  { destruct k; by inversion Hx. }
  destruct k as [|k]; [by inversion Hx|]. simpl in Hx, Hy.
  apply elem_of_cons in Hx as [->|Hx]; [|by eapply IH].
  rewrite Forall_forall in Ha. apply Ha.
  rewrite <- (take_drop k l). apply elem_of_app. by right.
Qed.

Lemma eligible_in_drop k (tag_details : list tag_detail) y :
  y ∈ eligible (list_to_set (td_tag <$> take k tag_details)) tag_details →
  y ∈ drop k tag_details.
Proof.
  unfold eligible. rewrite list_elem_of_filter. intros [Hn Hy].
  rewrite <- (take_drop k tag_details) in Hy.
  apply elem_of_app in Hy as [Hy|Hy]; [|done].
  destruct Hn. apply elem_of_list_to_set. by apply list_elem_of_fmap_2.
Qed.

(** X3. The protected records are the most recent ones: a record that
    reaches the age test, and so every record that is deleted, was created
    no later than each record of the protected prefix.  For a
    [recent_count] that is not negative the prefix holds [recent_count]
    records, or all of them when there are fewer. *)
Theorem X3_protected_records_are_the_most_recent
    (records : list tag_detail) (recent_count : Z) :
  (∀ x y,
     x ∈ slice_to recent_count (sort_desc records) →
     y ∈ eligible (protected_tags records recent_count) (sort_desc records) →
     instant (td_creation_date y) ≤ instant (td_creation_date x)) ∧
  (∀ x y threshold_date,
     x ∈ slice_to recent_count (sort_desc records) →
     y ∈ decide_deletions records recent_count threshold_date →
     instant (td_creation_date y) ≤ instant (td_creation_date x)) ∧
  (0 ≤ recent_count →
   Z.of_nat (length (slice_to recent_count (sort_desc records)))
   = Z.min recent_count (Z.of_nat (length records))).
Proof.
  assert (Hfirst : ∀ x y,
     x ∈ slice_to recent_count (sort_desc records) →
     y ∈ eligible (protected_tags records recent_count) (sort_desc records) →
     instant (td_creation_date y) ≤ instant (td_creation_date x)).
  { intros x y. unfold protected_tags, recent_tags.
    destruct (slice_to_take recent_count (sort_desc records)) as [k ->].
    intros Hx Hy%eligible_in_drop.
    by apply (StronglySorted_take_drop _ k (sort_desc records) x y
                (sort_desc_sorted records)). }
  split_and!; [done| |].
  - intros x y threshold_date Hx Hy. apply Hfirst; [done|].
    by apply (to_delete_eligible _ threshold_date).
  - intros Hpos. unfold slice_to. destruct (Z.leb_spec 0 recent_count); [|lia].
    rewrite length_take, (Permutation_length (sort_desc_perm records)). lia.
Qed.

Lemma recent_tags_mono (tag_details : list tag_detail) n1 n2 :
  0 ≤ n1 ≤ n2 →
  recent_tags tag_details n1 ⊆ recent_tags tag_details n2.
Proof.
  intros Hn t. unfold recent_tags, slice_to.
  destruct (Z.leb_spec 0 n1), (Z.leb_spec 0 n2); try lia.
  rewrite !elem_of_list_to_set.
  intros (x & -> & Hx)%list_elem_of_fmap. apply list_elem_of_fmap_2.
  apply list_elem_of_lookup in Hx as [i Hi].
  apply lookup_take_Some in Hi as [Hi Hlt].
  apply list_elem_of_lookup. exists i. apply lookup_take_Some. split; [done|lia].
Qed.

(** The deletions [retain] requests: those of the decided records when
    the threshold date is in range, none when it is not. *)
Lemma retain_deletes (w : World) repository records recent_count days_threshold tr :
  ∃ ext,
    (retain w repository records recent_count days_threshold tr).2 = tr ++ ext
    ∧ deletes_requested ext =
        match minus_days (clock w tr) days_threshold with
        | Some threshold_date =>
            (λ x, (repository, td_digest x))
              <$> decide_deletions records recent_count threshold_date
        | None => []
        end.
Proof.
  rewrite retain_run. cbv zeta.
  destruct (minus_days _ _) as [threshold_date|]; [|by eexists].
  destruct (deletions_from_requests w repository
              (decide_deletions records recent_count threshold_date)
              (tr ++ [Now (clock w tr)])) as (ext & -> & Hext).
  eexists. simpl. rewrite <- !app_assoc. split; [done|].
  unfold deletes_requested in *. simpl. rewrite omap_app, Hext.
  destruct (decide_deletions _ _ _); simpl; by rewrite ?app_nil_r.
Qed.

(** X4. A more generous policy never deletes more.  When the threshold
    date of the stricter policy is in range, a larger [recent_count] (none
    negative) or a larger number of days gives a decision included in the
    stricter one, and the script run from the same trace requests no
    deletion that it does not request under the stricter policy.  (A
    stricter policy whose threshold date is out of range deletes nothing:
    the script raises before the first deletion.) *)
Theorem X4_generous_policy_deletes_less
    (records : list tag_detail) (now threshold_date : Z)
    (recent_count recent_count' days_threshold days_threshold' : Z)
    (Hcount : 0 ≤ recent_count ≤ recent_count')
    (Hdays : days_threshold ≤ days_threshold')
    (Hthreshold : minus_days now days_threshold = Some threshold_date) :
  (∀ threshold_date',
     minus_days now days_threshold' = Some threshold_date' →
     decide_deletions records recent_count' threshold_date'
     ⊆ decide_deletions records recent_count threshold_date) ∧
  (∀ w repository tr,
     clock w tr = now →
     ∃ ext ext',
       (retain w repository records recent_count days_threshold tr).2
         = tr ++ ext
       ∧ (retain w repository records recent_count' days_threshold' tr).2
         = tr ++ ext'
       ∧ deletes_requested ext' ⊆ deletes_requested ext).
Proof.
  assert (Hsub : ∀ threshold_date',
     minus_days now days_threshold' = Some threshold_date' →
     decide_deletions records recent_count' threshold_date'
     ⊆ decide_deletions records recent_count threshold_date).
  { intros threshold_date' Hthreshold' x.
    apply minus_days_Some in Hthreshold, Hthreshold'.
    rewrite !elem_of_decide_deletions.
    intros (Hx & Hn & Hlt). split_and!; [done| |].
    - intros Hin. apply Hn. unfold protected_tags in *.
      by apply (recent_tags_mono _ recent_count recent_count').
    - assert (0 < DAY) by done. nia. }
  split; [done|].
  intros w repository tr Hclock.
  destruct (retain_deletes w repository records recent_count days_threshold tr)
    as (ext & Hext & Hdel).
  destruct (retain_deletes w repository records recent_count' days_threshold' tr)
    as (ext' & Hext' & Hdel').
  exists ext, ext'. split_and!; [done|done|].
  rewrite Hdel, Hdel', Hclock, Hthreshold.
  destruct (minus_days now days_threshold') as [threshold_date'|] eqn:Hthreshold';
    [|by intros ? ?%elem_of_nil].
  intros rd (x & -> & Hx)%list_elem_of_fmap.
  apply list_elem_of_fmap. exists x. split; [done|]. by apply (Hsub threshold_date' eq_refl).
Qed.

(** X5. A [recent_count] of zero protects nothing, and so does a negative
    one that reaches beyond the head of the list: the records handed to
    deletion are then exactly the records older than the threshold, most
    recent first.  Any other negative [recent_count] protects all the
    records but the [-recent_count] oldest. *)
Theorem X5_recent_count_zero_or_negative
    (records : list tag_detail) (recent_count : Z) :
  (recent_count = 0 ∨ recent_count ≤ - Z.of_nat (length records) →
   protected_tags records recent_count = ∅
   ∧ ∀ threshold_date,
       decide_deletions records recent_count threshold_date
       = filter (λ x, instant (td_creation_date x) < threshold_date)
                (sort_desc records)) ∧
  (recent_count < 0 →
   slice_to recent_count (sort_desc records)
   = take (length records - Z.to_nat (- recent_count)) (sort_desc records)).
Proof.
  pose proof (Permutation_length (sort_desc_perm records)) as Hlen.
  split.
  - intros Hrc.
    assert (Hslice : slice_to recent_count (sort_desc records) = []).
    { unfold slice_to. destruct Hrc as [->|Hrc]; [done|].
      destruct (Z.leb_spec 0 recent_count).
      - assert (recent_count = 0) as -> by lia. done.
      - rewrite Hlen. by replace (Z.to_nat _) with 0%nat by lia. }
    assert (Hprot : protected_tags records recent_count = ∅).
    { unfold protected_tags, recent_tags. by rewrite Hslice. }
    split; [done|]. intros threshold_date.
    unfold decide_deletions. cbv zeta.
    fold (protected_tags records recent_count). rewrite Hprot.
    unfold to_delete. apply list_filter_iff. intros x.
    split; [tauto|]. intros ?. split; [|done]. apply not_elem_of_empty.
  - intros Hneg. unfold slice_to.
    destruct (Z.leb_spec 0 recent_count); [lia|]. f_equal. lia.
Qed.

(** ** More on a run *)

(** The images of an excluded repository are left alone in every phase,
    on any host. *)
Lemma emits_main_excluded
    (fromisoformat : string → option datetime) (cfg : Config) (h : Host)
    (repo : string) :
  repo ∈ EXCLUDE_REPOS cfg →
  emits (λ ev, ¬ image_request repo ev) (main fromisoformat cfg h).
Proof.
  intros Hexcluded. unfold main. apply emits_try_except.
  - apply emits_bind; [|intros _; apply emits_bind; [|intros _]].
    + eapply emits_impl;
        [|by apply excluded_repository_not_processed].
      intros ev Hev Hi. apply Hev.
      unfold image_request, concerns in *.
      by destruct ev as [[]| | | | | |[]|].
    + script_unfold. repeat emits_step; simpl; tauto.
    + eapply emits_impl; [|apply emits_remove_empty_repositories].
      intros ev Hev Hi. by destruct ev as [[]| | | | | |[]|].
  - intros e. apply emits_emit. simpl. tauto.
Qed.


Lemma truthy_Some o : truthy o = true → ∃ s, o = Some s ∧ s ≠ "".
Proof.
  destruct o as [s|]; [|done]. simpl.
  destruct (String.eqb_spec s ""); [done|]. eauto.
Qed.

Lemma for_fold_invariant {A S} (I : S → Prop) (l : list A)
    (body : A → S → Script S) s tr s' tr' :
  (∀ x s tr s' tr', x ∈ l → body x s tr = (Ok s', tr') → I s → I s') →
  I s → for_fold l body s tr = (Ok s', tr') → I s'.
Proof.
  revert s tr. induction l as [|x l IH]; intros s tr Hbody Hs; simpl.
  { unfold ret. by intros [= <- _]. }
  unfold bind. destruct (body x s tr) as [[s1|e] tr1] eqn:Hx; [|done].
  apply IH.
  - intros y ? ? ? ? Hy. apply Hbody. by right.
  - eapply Hbody; [by left|done|done].
Qed.

(** A tag adds at most one record, a resolved one that carries the tag. *)
Lemma resolve_tag_resolved fromisoformat (w : World) repository tag tag_details tr
    tag_details' tr' :
  resolve_tag fromisoformat w repository tag tag_details tr
    = (Ok tag_details', tr') →
  tag_details' = tag_details
  ∨ ∃ x, tag_details' = tag_details ++ [x] ∧ td_tag x = tag
         ∧ resolved fromisoformat w repository x.
Proof.
  rewrite resolve_tag_unfold. cbv zeta.
  set (manifest := respond w tr (GET_manifest repository tag)).
  destruct (Z.eqb_spec (status_code manifest) 200) as [Hst|]; simpl;
    [|intros [= <- _]; by left].
  destruct (truthy (json_config_digest manifest)) eqn:Hcd; simpl;
    [|intros [= <- _]; by left].
  destruct (truthy (docker_content_digest manifest)) eqn:Hd; simpl;
    [|intros [= <- _]; by left].
  apply truthy_Some in Hcd as (config_digest & Hcd & Hcdne).
  apply truthy_Some in Hd as (digest & Hd & Hdne).
  rewrite Hcd, Hd. simpl. unfold bind. rewrite fetch_creation_date_run.
  cbv zeta. rewrite Hst.
  set (blob := respond w _ (GET_blob repository config_digest)).
  destruct (Z.eqb_spec (status_code blob) 200) as [Hbst|];
    [|unfold ret; intros [= <- _]; by left].
  destruct (truthy (json_created blob)) eqn:Hcr;
    [|unfold ret; intros [= <- _]; by left].
  apply truthy_Some in Hcr as (created_date & Hcr & Hcrne).
  rewrite Hcr. simpl.
  destruct (fromisoformat (fixed_date created_date)) as [dt|] eqn:Hdt; [|done].
  unfold ret. intros [= <- _]. right.
  exists (tag, ensure_aware dt, digest). split_and!; [done|done|].
  exists tr, config_digest, created_date, dt. cbv zeta. simpl.
  fold manifest blob. by split_and!.
Qed.

Lemma resolve_tags_resolved fromisoformat (w : World) repository tags tr tag_details tr' :
  for_fold tags (resolve_tag fromisoformat w repository) [] tr
    = (Ok tag_details, tr') →
  Forall (λ x, td_tag x ∈ tags ∧ resolved fromisoformat w repository x)
         tag_details.
Proof.
  apply (for_fold_invariant
           (Forall (λ x, td_tag x ∈ tags
                         ∧ resolved fromisoformat w repository x))).
  - intros tag s tr0 s' tr0' Htag Hrun Hs.
    apply resolve_tag_resolved in Hrun as [->|(x & -> & Hx & Hres)]; [done|].
    apply Forall_app. split; [done|]. constructor; [|done]. by subst tag.
  - constructor.
Qed.

Lemma deletes_requested_none tr :
  Forall (λ ev, deletes_requested [ev] = []) tr → deletes_requested tr = [].
Proof.
  intros H. unfold deletes_requested. eapply omap_none; [|exact H].
  simpl. intros ev Hev. unfold deletes_requested in Hev. simpl in Hev.
  by case_match.
Qed.

Lemma deletes_requested_app tr1 tr2 :
  deletes_requested (tr1 ++ tr2)
  = deletes_requested tr1 ++ deletes_requested tr2.
Proof. apply omap_app. Qed.


Lemma resolve_tags_sublist fromisoformat (w : World) repository tags tag_details tr
    tag_details' tr' :
  for_fold tags (resolve_tag fromisoformat w repository) tag_details tr
    = (Ok tag_details', tr') →
  ∃ added, tag_details' = tag_details ++ added
           ∧ (td_tag <$> added) `sublist_of` tags.
Proof.
  revert tag_details tr. induction tags as [|tag tags IH];
    intros tag_details tr; simpl.
  { unfold ret. intros [= <- _]. exists []. by rewrite app_nil_r. }
  unfold bind.
  destruct (resolve_tag fromisoformat w repository tag tag_details tr)
    as [[tag_details1|e] tr1] eqn:Hone; [|done].
  intros (added & -> & Hsub)%IH.
  apply resolve_tag_resolved in Hone as [->|(x & -> & Hx & _)].
  - exists added. split; [done|]. by apply sublist_cons.
  - exists (x :: added). rewrite <- app_assoc. split; [done|].
    rewrite fmap_cons, Hx. by apply sublist_skip.
Qed.

(** X9. The records the script resolves for a tag list: each one is a
    resolved record, with a digest that is not empty and a creation date
    that carries a timezone, so that creation dates can always be
    compared; and their tags follow the order of the tag list, a tag that
    could not be resolved being left out. *)
Theorem X9_resolved_records_follow_the_tag_list
    (fromisoformat : string → option datetime) (w : World)
    (repository : string) (tags : list string) (tr tr' : Trace)
    (tag_details : list tag_detail)
    (Hresolved :
       for_fold tags (resolve_tag fromisoformat w repository) [] tr
         = (Ok tag_details, tr')) :
  Forall (λ x, resolved fromisoformat w repository x
               ∧ td_digest x ≠ ""
               ∧ is_Some (tzinfo (td_creation_date x))) tag_details
  ∧ (td_tag <$> tag_details) `sublist_of` tags
  ∧ (length tag_details ≤ length tags)%nat.
Proof.
  split_and!.
  - eapply Forall_impl; [by apply resolve_tags_resolved in Hresolved|].
    intros x [_ Hx]. split; [done|].
    destruct Hx as (tr0 & config_digest & created_date & dt & H).
    cbv zeta in H. destruct H as (_ & _ & Hd & _ & _ & _ & _ & _ & _ & Hdt).
    split; [done|]. rewrite Hdt. unfold ensure_aware.
    destruct (tzinfo dt) eqn:Htz; [by rewrite Htz|done].
  - apply resolve_tags_sublist in Hresolved as (added & -> & Hsub). done.
  - apply resolve_tags_sublist in Hresolved as (added & -> & Hsub).
    apply sublist_length in Hsub. by rewrite length_fmap in Hsub.
Qed.

(** ** More on the orphan sweep *)

Lemma remove_if_empty_removal cfg (w : World) repo tr :
  ∃ ext,
    remove_if_empty cfg w repo tr = (Ok tt, tr ++ ext)
    ∧ ∀ p rc, Run (rm_rf p) rc ∈ ext →
              p = path_join (REPOSITORY_PATH cfg) repo
              ∧ OnDisk p true ∈ ext.
Proof.
  rewrite remove_if_empty_run. cbv zeta.
  destruct (if _ =? _ then _ else _).
  - rewrite remove_orphan_run. cbv zeta. rewrite <- app_assoc.
    eexists. split; [done|]. intros p rc. simpl.
    destruct (on_disk w _ _) eqn:Hdisk.
    + rewrite !elem_of_cons, elem_of_nil.
      intros [?|[?|[?|[[= <-]|[Hlog|[]]]]]]; try done.
      * split; [done|]. do 2 right. by left.
      * by destruct (_ =? 0).
    + rewrite !elem_of_cons, elem_of_nil. intros [?|[?|[?|[]]]]; done.
  - eexists. split; [done|]. intros p rc.
    rewrite list_elem_of_singleton. done.
Qed.

Lemma sweep_all_removal cfg (w : World) repositories tr :
  ∃ ext,
    for_each repositories (remove_if_empty cfg w) tr = (Ok tt, tr ++ ext)
    ∧ ∀ p rc, Run (rm_rf p) rc ∈ ext →
              ∃ repo, repo ∈ repositories
                      ∧ p = path_join (REPOSITORY_PATH cfg) repo
                      ∧ OnDisk p true ∈ ext.
Proof.
  revert tr. induction repositories as [|r l IH]; intros tr; simpl.
  { exists []. rewrite app_nil_r. split; [done|]. by intros ? ? ?%elem_of_nil. }
  destruct (remove_if_empty_removal cfg w r tr) as (ext1 & Hr & H1).
  erewrite bind_ok by done.
  destruct (IH (tr ++ ext1)) as (ext2 & -> & H2).
  exists (ext1 ++ ext2). rewrite app_assoc. split; [done|].
  intros p rc [Hin|Hin]%elem_of_app.
  - destruct (H1 p rc Hin) as [-> Hdisk]. exists r.
    split_and!; [by left|done|]. apply elem_of_app. by left.
  - destruct (H2 p rc Hin) as (repo & Hrepo & -> & Hdisk). exists repo.
    split_and!; [by right|done|]. apply elem_of_app. by right.
Qed.

(** X10. The sweep removes nothing it should keep: a repository whose tag
    list is served with the status 200 and holds a tag is left alone after
    that one request; and whatever the registry answers, every [rm -rf] of
    the sweep is run on the directory of a repository of the catalog just
    listed, [REPOSITORY_PATH] joined with its name, which was found on
    disk in that sweep. *)
Theorem X10_sweep_removes_only_listed_orphans (cfg : Config) (w : World) :
  (∀ tr repo,
     let listing := respond w tr (GET_tags repo) in
     status_code listing = 200 → default [] (json_tags listing) ≠ [] →
     remove_if_empty cfg w repo tr = (Ok tt, tr ++ [Http (GET_tags repo) 200])) ∧
  (∀ tr, ∃ ext,
     (remove_empty_repositories cfg w tr).2 = tr ++ ext
     ∧ ∀ p rc, Run (rm_rf p) rc ∈ ext →
         ∃ repo,
           repo ∈ default [] (json_repositories (respond w tr GET_catalog))
           ∧ p = path_join (REPOSITORY_PATH cfg) repo
           ∧ OnDisk p true ∈ ext).
Proof.
  split.
  - intros tr repo listing Hst Htags. rewrite remove_if_empty_run. cbv zeta.
    fold listing. rewrite Hst. simpl.
    by destruct (default [] (json_tags listing)).
  - intros tr. unfold remove_empty_repositories, bind.
    rewrite fetch_repositories_run. simpl.
    destruct (_ && _).
    { eexists [_]. split; [done|]. intros p rc.
      rewrite list_elem_of_singleton. done. }
    simpl.
    destruct (sweep_all_removal cfg w
                (default [] (json_repositories (respond w tr GET_catalog)))
                (tr ++ [Http GET_catalog (status_code (respond w tr GET_catalog))]))
      as (ext & -> & Hext).
    eexists (_ :: ext). rewrite <- app_assoc. split; [done|].
    intros p rc [?|Hin]%elem_of_cons; [done|].
    destruct (Hext p rc Hin) as (repo & ? & ? & ?). exists repo.
    split_and!; [done|done|by right].
Qed.

(** X11. A removal that fails stays local: when the directory of an
    orphaned repository is not on disk no command is run; when [rm -rf]
    exits with a status other than zero the failure is logged as an error;
    in both cases [remove_orphan] returns normally.  So a sweep whose
    catalog is listed returns normally and requests the tag list of every
    repository of the catalog, once and in order. *)
Theorem X11_failed_removal_does_not_stop_the_sweep (cfg : Config) (w : World) :
  (∀ tr repo,
     let repo_path := path_join (REPOSITORY_PATH cfg) repo in
     let tr1 := tr ++ [LogInfo (Removing_orphaned_repository repo)] in
     on_disk w tr1 repo_path = false →
     remove_orphan cfg w repo tr = (Ok tt, tr1 ++ [OnDisk repo_path false])) ∧
  (∀ tr repo,
     let repo_path := path_join (REPOSITORY_PATH cfg) repo in
     let tr1 := tr ++ [LogInfo (Removing_orphaned_repository repo)] in
     let rc := exit_status w (tr1 ++ [OnDisk repo_path true]) (rm_rf repo_path) in
     on_disk w tr1 repo_path = true → rc ≠ 0 →
     remove_orphan cfg w repo tr =
       (Ok tt,
        tr1 ++ [OnDisk repo_path true; Run (rm_rf repo_path) rc;
                LogError (Failed_to_remove_orphaned_repository repo
                            (CalledProcessError rc))])) ∧
  (∀ tr,
     let catalog := respond w tr GET_catalog in
     ¬ (400 ≤ status_code catalog < 600) →
     ∃ ext,
       remove_empty_repositories cfg w tr
         = (Ok tt, tr ++ Http GET_catalog (status_code catalog) :: ext)
       ∧ tags_requested ext = default [] (json_repositories catalog)).
Proof.
  split_and!.
  - intros tr repo repo_path tr1 Hdisk. rewrite remove_orphan_run. cbv zeta.
    fold repo_path tr1. rewrite Hdisk. unfold tr1. by rewrite <- app_assoc.
  - intros tr repo repo_path tr1 rc Hdisk Hrc. rewrite remove_orphan_run.
    cbv zeta. fold repo_path tr1. rewrite Hdisk. fold rc.
    destruct (Z.eqb_spec rc 0); [done|]. unfold tr1. by rewrite <- app_assoc.
  - intros tr catalog Hst. by apply remove_empty_repositories_trace.
Qed.

(** ** An empty catalog *)

(** X13. When the catalog lists no repository (the key is missing or the
    list is empty), nothing is processed and nothing is swept, but garbage
    is still collected: the run is the catalog request, the collection
    with its log line, and the catalog request of the sweep. *)
Theorem X13_run_on_an_empty_catalog
    (fromisoformat : string → option datetime) (cfg : Config) (w : World)
    (Hlisted : catalog_listed w)
    (Hempty : ∀ tr, default [] (json_repositories (respond w tr GET_catalog))
                    = []) :
  let tr1 := [Http GET_catalog (status_code (respond w [] GET_catalog))] in
  let rc := exit_status w tr1 garbage_collect in
  let tr2 := tr1 ++ [Run garbage_collect rc; garbage_collection_logged rc] in
  main fromisoformat cfg w [] =
    (Ok tt, tr2 ++ [Http GET_catalog (status_code (respond w tr2 GET_catalog))]).
Proof.
  intros tr1 rc tr2. rewrite main_run.
  assert (Hcat : process_catalog fromisoformat cfg w [] = (Ok tt, tr1)).
  { unfold process_catalog, bind. rewrite fetch_repositories_run. simpl.
    destruct (_ && _) eqn:Hst; [destruct (Hlisted []); lia|].
    by rewrite Hempty. }
  rewrite Hcat. cbv zeta. fold rc tr2.
  unfold remove_empty_repositories, bind. rewrite fetch_repositories_run.
  simpl. destruct (_ && _) eqn:Hst; [destruct (Hlisted tr2); lia|].
  by rewrite Hempty.
Qed.

(** ** More on the normalization of creation dates *)

(** X14. The offset fix-up never changes the length of a string, and the
    only strings it changes are those that end in [+HH:M], or in [+HH:M]
    and a newline, with digits for H and M: there the colon becomes the
    character 0 and nothing else moves.  A creation date is therefore
    handed to the parser one character shorter than it was served. *)
Theorem X14_fixup_only_replaces_the_colon (s : string) :
  String.length (offset_fixup s) = String.length s
  ∧ String.length (fixed_date s) = Nat.pred (String.length s)
  ∧ (offset_fixup s ≠ s →
     ∃ p h1 h2 m tail,
       is_digit h1 = true ∧ is_digit h2 = true ∧ is_digit m = true
       ∧ (tail = "" ∨ tail = String newline "")
       ∧ s = String.append p (String plus_sign (String h1 (String h2
               (String colon (String m tail)))))
       ∧ offset_fixup s
         = String.append p (String plus_sign (String h1 (String h2
               (String zero_digit (String m tail)))))).
Proof.
  split_and!; [apply length_offset_fixup|apply length_fixed_date|].
  - intros Hne. unfold offset_fixup in *.
    pose proof (string_of_rev_chars s) as Hs.
    destruct (offset_fixup_rev_cases (rev (list_ascii_of_string s)))
      as [Hid|[(m & h2 & h1 & rest & Hm & H2 & H1 & Hr & Hfix)
              |(m & h2 & h1 & rest & Hm & H2 & H1 & Hr & Hfix)]].
    + rewrite Hid in Hne. by destruct Hne.
    + exists (string_of_list_ascii (rev rest)), h1, h2, m, "".
      split_and!; [done|done|done|by left| |].
      * rewrite <- Hs, Hr. simpl. rewrite <- !app_assoc. simpl.
        by rewrite string_of_chars_app.
      * rewrite Hfix. simpl. rewrite <- !app_assoc. simpl.
        by rewrite string_of_chars_app.
    + exists (string_of_list_ascii (rev rest)), h1, h2, m, (String newline "").
      split_and!; [done|done|done|by right| |].
      * rewrite <- Hs, Hr. simpl. rewrite <- !app_assoc. simpl.
        by rewrite string_of_chars_app.
      * rewrite Hfix. simpl. rewrite <- !app_assoc. simpl.
        by rewrite string_of_chars_app.
Qed.

(** ** The configuration *)

Lemma split_commas_cons raw : ∃ field fields, split_commas raw = field :: fields.
Proof.
  destruct raw as [|c raw]; simpl; [by eauto|].
  case_bool_decide; [by eauto|]. destruct (split_commas raw); eauto.
Qed.

Lemma concat_cons_char c field fields :
  String.concat "," (String c field :: fields)
  = String c (String.concat "," (field :: fields)).
Proof. by destruct fields. Qed.

Lemma split_commas_join raw : String.concat "," (split_commas raw) = raw.
Proof.
  induction raw as [|c raw IH]; [done|]. simpl.
  case_bool_decide as Hc.
  - subst c. destruct (split_commas_cons raw) as (field & fields & Hsplit).
    rewrite Hsplit in *. simpl. by rewrite <- IH.
  - destruct (split_commas_cons raw) as (field & fields & Hsplit).
    rewrite Hsplit in *. by rewrite concat_cons_char, IH.
Qed.

Lemma split_commas_fields raw :
  Forall (λ field, ","%char ∉ list_ascii_of_string field) (split_commas raw).
Proof.
  induction raw as [|c raw IH]; simpl.
  { repeat constructor. by intros ?%elem_of_nil. }
  case_bool_decide as Hc.
  - constructor; [by intros ?%elem_of_nil|done].
  - destruct (split_commas raw) as [|field fields].
    + repeat constructor. simpl. by intros [?|?%elem_of_nil]%elem_of_cons.
    + inversion IH as [|? ? Hfield Hfields]; subst. constructor; [|done].
      simpl. by intros [?|?]%elem_of_cons.
Qed.

Lemma split_commas_char c raw :
  c ≠ ","%char →
  split_commas (String c raw)
  = match split_commas raw with
    | field :: fields => String c field :: fields
    | [] => [String c ""]
    end.
Proof. intros Hc. simpl. by rewrite bool_decide_eq_false_2. Qed.

Lemma split_commas_field field rest fields :
  ","%char ∉ list_ascii_of_string field →
  split_commas rest = fields →
  split_commas (String.append field (String ","%char rest)) = field :: fields.
Proof.
  intros Hfield <-. induction field as [|c field IH]; [done|].
  change (String.append (String c field) ?s)
    with (String c (String.append field s)).
  rewrite split_commas_char by (intros ->; apply Hfield; by left).
  rewrite IH; [done|]. intros ?. apply Hfield. by right.
Qed.

Lemma split_commas_last field :
  ","%char ∉ list_ascii_of_string field → split_commas field = [field].
Proof.
  intros Hfield. induction field as [|c field IH]; [done|].
  rewrite split_commas_char by (intros ->; apply Hfield; by left).
  rewrite IH; [done|]. intros ?. apply Hfield. by right.
Qed.

Lemma split_commas_of_join field fields :
  Forall (λ field, ","%char ∉ list_ascii_of_string field) (field :: fields) →
  split_commas (String.concat "," (field :: fields)) = field :: fields.
Proof.
  revert field. induction fields as [|next fields IH]; intros field Hfree;
    inversion Hfree as [|? ? Hfield Hrest]; subst.
  - by apply split_commas_last.
  - change (String.concat "," (field :: next :: fields))
      with (String.append field
              (String ","%char (String.concat "," (next :: fields)))).
    apply split_commas_field; [done|by apply IH].
Qed.

(** X15. The exclusion list is the list of the fields of the option
    [EXCLUDE_REPOS] between its commas: joined with commas they give the
    option back, none of them holds a comma, there is always at least one
    (the empty name, for an empty option), and a list of names without
    commas that is written with commas is read back as it was.  Nothing is
    stripped from a field. *)
Theorem X15_exclusion_list_is_the_comma_separated_fields (raw : string) :
  String.concat "," (split_commas raw) = raw
  ∧ Forall (λ field, ","%char ∉ list_ascii_of_string field) (split_commas raw)
  ∧ split_commas raw ≠ []
  ∧ ∀ field fields,
      Forall (λ field, ","%char ∉ list_ascii_of_string field)
             (field :: fields) →
      split_commas (String.concat "," (field :: fields)) = field :: fields.
Proof.
  split_and!.
  - apply split_commas_join.
  - apply split_commas_fields.
  - by destruct (split_commas_cons raw) as (field & fields & ->).
  - apply split_commas_of_join.
Qed.

Lemma specific_table_snoc int default_keys items item :
  specific_table int default_keys (items ++ [item])
  = (m ← specific_table int default_keys items;
     if bool_decide (item.1 ∈ default_keys) then Some m
     else n ← int item.2; Some (<[item.1 := n]> m)).
Proof. unfold specific_table. by rewrite foldl_app. Qed.

Lemma specific_table_None int default_keys items :
  specific_table int default_keys items = None ↔
  ∃ item, item ∈ items ∧ (item.1 ∉ default_keys) ∧ int item.2 = None.
Proof.
  induction items as [|item items IH] using rev_ind.
  { split; [done|]. by intros (? & ?%elem_of_nil & _). }
  rewrite specific_table_snoc.
  destruct (specific_table int default_keys items) as [m|] eqn:Htable; simpl.
  - case_bool_decide as Hkey.
    + split; [done|]. intros (item' & [Hin| ->%list_elem_of_singleton]%elem_of_app & Hn & Hint).
      * assert (Some m = None) by (apply IH; eauto). done.
      * done.
    + destruct (int item.2) as [n|] eqn:Hint; simpl.
      * split; [done|].
        intros (item' & [Hin| ->%list_elem_of_singleton]%elem_of_app & Hn & Hint').
        -- assert (Some m = None) by (apply IH; eauto). done.
        -- congruence.
      * split; [|done]. intros _. exists item.
        split_and!; [|done|done]. apply elem_of_app. right. by left.
  - split; [|done]. intros _.
    destruct (proj1 IH eq_refl) as (item' & Hin & ? & ?). exists item'.
    split_and!; [|done|done]. apply elem_of_app. by left.
Qed.

Lemma specific_table_lookup int default_keys items m key n :
  NoDup items.*1 →
  specific_table int default_keys items = Some m →
  m !! key = Some n ↔
  (key ∉ default_keys) ∧ ∃ value, (key, value) ∈ items ∧ int value = Some n.
Proof.
  revert m. induction items as [|[k v] items IH] using rev_ind; intros m Hnd.
  { intros [= <-]. rewrite lookup_empty. split; [done|].
    by intros (_ & ? & ?%elem_of_nil & _). }
  rewrite fmap_app in Hnd. apply NoDup_app in Hnd as (Hnd & Hfresh & _).
  rewrite specific_table_snoc.
  destruct (specific_table int default_keys items) as [m'|] eqn:Htable;
    [|done]. simpl.
  specialize (IH m' Hnd eq_refl).
  assert (Hk : ∀ value, (k, value) ∉ items).
  { intros value Hin. apply (Hfresh k); [|by left].
    by apply (list_elem_of_fmap_2 fst _ (k, value)). }
  case_bool_decide as Hkey.
  - intros [= <-]. rewrite IH. split.
    + intros (Hn & value & Hin & Hint). split; [done|]. exists value.
      split; [|done]. apply elem_of_app. by left.
    + intros (Hn & value & [Hin|[= -> ->]%list_elem_of_singleton]%elem_of_app & Hint);
        [by eauto|done].
  - destruct (int v) as [n'|] eqn:Hint; [|done]. simpl. intros [= <-].
    destruct (decide (k = key)) as [->|Hne].
    + rewrite lookup_insert_eq. split.
      * intros [= <-]. split; [done|]. exists v. split; [|done].
        apply elem_of_app. right. by left.
      * intros (_ & value & [Hin|[= ->]%list_elem_of_singleton]%elem_of_app & Hint');
          [by destruct (Hk value)|congruence].
    + rewrite lookup_insert_ne by done. rewrite IH. split.
      * intros (Hn & value & Hin & Hint'). split; [done|]. exists value.
        split; [|done]. apply elem_of_app. by left.
      * intros (Hn & value & [Hin|[= ? ?]%list_elem_of_singleton]%elem_of_app & Hint');
          [by eauto|done].
Qed.

(** X16. The table of overrides built from a section of [config.ini]: it
    cannot be built exactly when the value of an option that the DEFAULT
    section does not have fails to convert to an integer (the values of the
    DEFAULT options are never converted); when it is built, it maps a name
    to the integer of its value exactly for the options of the section
    that DEFAULT does not have.  So a repository named as an option of
    DEFAULT, or not named in the section, gets the default count. *)
Theorem X16_overrides_leave_out_the_default_options
    (int : string → option Z) (default_keys : gset string)
    (items : list (string * string)) (Hunique : NoDup items.*1) :
  (specific_table int default_keys items = None ↔
   ∃ item, item ∈ items ∧ (item.1 ∉ default_keys) ∧ int item.2 = None) ∧
  (∀ table,
     specific_table int default_keys items = Some table →
     (∀ key n,
        table !! key = Some n ↔
        (key ∉ default_keys)
        ∧ ∃ value, (key, value) ∈ items ∧ int value = Some n) ∧
     (∀ cfg repository,
        SPECIFIC_RECENT_IMAGES cfg = table →
        repository ∈ default_keys ∨ repository ∉ items.*1 →
        recent_count_of cfg repository = DEFAULT_RECENT_IMAGES cfg)).
Proof.
  split; [apply specific_table_None|].
  intros table Htable. split.
  - intros key n. by apply specific_table_lookup.
  - intros cfg repository Hcfg Hrepo. unfold recent_count_of. rewrite Hcfg.
    destruct (table !! repository) as [n|] eqn:Hlookup; [|done].
    apply (specific_table_lookup int default_keys items table) in Hlookup
      as (Hn & value & Hin & _); [|done|done].
    destruct Hrepo as [?|Hout]; [done|]. destruct Hout.
    by apply (list_elem_of_fmap_2 fst _ (repository, value)).
Qed.

(** ** Missing keys, and exceptions *)

(** X17. A response that lacks what the script looks up skips one unit:
    a tag list without tags (key missing, null or empty) skips the
    repository after the one request; a manifest served without a
    Docker-Content-Digest header (or with an empty one), or in which no
    digest is found under [config] (the key [config] is missing, or its
    object has no digest or an empty one) skips the tag with no blob
    request; a config blob without a creation date (missing, null or
    empty) gives no date, the parser not being called. *)
Theorem X17_missing_keys_skip_one_unit
    (fromisoformat : string → option datetime) (cfg : Config) (w : World) :
  (∀ tr repository,
     let listing := respond w tr (GET_tags repository) in
     repository ∉ EXCLUDE_REPOS cfg →
     default [] (json_tags listing) = [] →
     process_repository fromisoformat cfg w repository tr =
       (Ok tt, tr ++ [Http (GET_tags repository) (status_code listing);
                      LogInfo (Skipping_no_images repository)])) ∧
  (∀ tr repository tag tag_details,
     let manifest := respond w tr (GET_manifest repository tag) in
     truthy (docker_content_digest manifest) = false
     ∨ truthy (json_config_digest manifest) = false →
     resolve_tag fromisoformat w repository tag tag_details tr =
       (Ok tag_details,
        tr ++ [Http (GET_manifest repository tag) (status_code manifest)])) ∧
  (∀ tr repository config_digest,
     let blob := respond w tr (GET_blob repository config_digest) in
     truthy (json_created blob) = false →
     fetch_creation_date fromisoformat w repository config_digest tr =
       (Ok None,
        tr ++ [Http (GET_blob repository config_digest) (status_code blob)])).
Proof.
  split_and!.
  - intros tr repository listing Hex Htags. unfold process_repository.
    rewrite bool_decide_eq_false_2 by done.
    erewrite bind_ok by apply fetch_image_tags_run. fold listing.
    rewrite Htags. unfold logging_info, emit.
    destruct (_ =? _); by rewrite <- app_assoc.
  - intros tr repository tag tag_details manifest Hmissing.
    rewrite resolve_tag_unfold. cbv zeta. fold manifest.
    destruct (status_code manifest =? 200); [|done]. simpl.
    destruct (truthy (json_config_digest manifest)) eqn:Hcd; simpl; [|done].
    destruct Hmissing as [Hd|?]; [|done]. by rewrite Hd.
  - intros tr repository config_digest blob Hcreated.
    rewrite fetch_creation_date_run. cbv zeta. fold blob. rewrite Hcreated.
    by destruct (_ =? _).
Qed.

Lemma deletions_from_events (w : World) repository l tr :
  ∃ ext, deletions_from w repository l tr = tr ++ ext
         ∧ Forall (is_deletion_event repository) ext.
Proof.
  revert tr. induction l as [|x l IH]; intros tr; simpl.
  { exists []. by rewrite app_nil_r. }
  set (status := status_code (respond w tr _)).
  destruct (IH (tr ++ deletion_events repository x status))
    as (ext & -> & Hext).
  exists (deletion_events repository x status ++ ext).
  rewrite app_assoc. split; [done|]. apply Forall_app. split; [|done].
  unfold deletion_events. destruct (_ =? _); by repeat constructor.
Qed.

(** X18. The fetches of a repository come before its first deletion: the
    events of [process_repository] are a first part without any deletion
    request (the tag list, the manifests and the blobs, the reading of the
    clock) followed by a part made of deletion requests and of the lines
    logged for them, and of nothing else.  So when the parser rejects a
    creation date, or when the threshold date is out of range, no deletion
    has been requested for the repository. *)
Theorem X18_fetches_precede_deletions
    (fromisoformat : string → option datetime) (cfg : Config) (w : World)
    (repository : string) (tr : Trace) :
  ∃ ext1 ext2,
    (process_repository fromisoformat cfg w repository tr).2
      = tr ++ ext1 ++ ext2
    ∧ deletes_requested ext1 = []
    ∧ Forall (is_deletion_event repository) ext2
    ∧ ∀ e, (process_repository fromisoformat cfg w repository tr).1 = Raised e →
           e = OverflowError ∨ (∃ isoformat_string, e = ValueError isoformat_string) →
           ext2 = [].
Proof.
  assert (Hnone : ∀ ext,
            deletes_requested ext = [] →
            ∀ r,
              (process_repository fromisoformat cfg w repository tr) = (r, tr ++ ext) →
              ∃ ext1 ext2,
                (process_repository fromisoformat cfg w repository tr).2
                  = tr ++ ext1 ++ ext2
                ∧ deletes_requested ext1 = []
                ∧ Forall (is_deletion_event repository) ext2
                ∧ ∀ e, (process_repository fromisoformat cfg w repository tr).1
                       = Raised e →
                       e = OverflowError
                       ∨ (∃ isoformat_string, e = ValueError isoformat_string) →
                       ext2 = []).
  { intros ext Hext r Hrun. exists ext, []. rewrite Hrun, app_nil_r.
    by split_and!. }
  unfold process_repository in *. case_bool_decide as Hex.
  { apply (Hnone [] eq_refl (Ok tt)). unfold ret. by rewrite app_nil_r. }
  erewrite bind_ok in * by apply fetch_image_tags_run.
  set (listing := respond w tr (GET_tags repository)) in *.
  set (tr1 := tr ++ [Http (GET_tags repository) (status_code listing)]) in *.
  destruct (if status_code listing =? 200 then _ else _) as [|tag tags].
  { apply (Hnone [Http (GET_tags repository) (status_code listing);
                  LogInfo (Skipping_no_images repository)] eq_refl (Ok tt)).
    unfold logging_info, emit, tr1. by rewrite <- app_assoc. }
  unfold process_tags in *. cbv zeta in *. unfold bind in *.
  destruct (emits_for_fold (λ ev, deletes_requested [ev] = [])
              (tag :: tags) (resolve_tag fromisoformat w repository) [])
    with (tr := tr1) as (ext_r & Hr & Hext_r).
  { intros t s. script_unfold. repeat emits_step; done. }
  apply deletes_requested_none in Hext_r.
  destruct (for_fold (tag :: tags) _ [] tr1) as [[tag_details|e1] tr2];
    simpl in Hr; subst tr2.
  - destruct tag_details as [|x0 tag_details0] eqn:Hdetails.
    { apply (Hnone (Http (GET_tags repository) (status_code listing)
                      :: ext_r
                      ++ [LogInfo (Skipping_no_eligible_images repository)]))
        with (r := Ok tt).
      - change (deletes_requested
                  (ext_r ++ [LogInfo (Skipping_no_eligible_images repository)])
                = []).
        by rewrite deletes_requested_app, Hext_r.
      - unfold logging_info, emit, tr1. by rewrite <- !app_assoc. }
    rewrite <- Hdetails in *. clear Hdetails.
    rewrite retain_run in *. cbv zeta in *.
    set (now := clock w (tr1 ++ ext_r)) in *.
    assert (Hfirst : deletes_requested
              (Http (GET_tags repository) (status_code listing)
                 :: ext_r ++ [Now now]) = []).
    { change (deletes_requested (ext_r ++ [Now now]) = []).
      by rewrite deletes_requested_app, Hext_r. }
    destruct (minus_days _ _) as [threshold_date|].
    + set (decided := decide_deletions _ _ _) in *.
      destruct (deletions_from_events w repository decided
                  ((tr1 ++ ext_r) ++ [Now now])) as (ext2 & Hdel & Hext2).
      destruct decided as [|y decided'] eqn:Hdecided.
      * apply (Hnone (Http (GET_tags repository) (status_code listing)
                      :: ext_r
                      ++ [Now now;
                          LogInfo (Skipping_within_retention_policy repository)]))
          with (r := Ok tt).
        -- change (deletes_requested
                    (ext_r ++ [Now now; LogInfo
                        (Skipping_within_retention_policy repository)]) = []).
           by rewrite deletes_requested_app, Hext_r.
        -- simpl. unfold tr1. by rewrite <- !app_assoc.
      * rewrite <- Hdecided in *. rewrite Hdel.
        exists (Http (GET_tags repository) (status_code listing)
                  :: ext_r ++ [Now now]), ext2.
        simpl. unfold tr1. rewrite app_nil_r, <- !app_assoc. simpl.
        split_and!; [done|done|done|done].
    + apply (Hnone (Http (GET_tags repository) (status_code listing)
                      :: ext_r ++ [Now now]) Hfirst (Raised OverflowError)).
      unfold tr1. by rewrite <- !app_assoc.
  - apply (Hnone (Http (GET_tags repository) (status_code listing) :: ext_r))
      with (r := Raised e1); [done|].
    unfold tr1. by rewrite <- !app_assoc.
Qed.

(** ** Calls that fail *)

Section Hosts.

Context (fromisoformat : string → option datetime) (cfg : Config) (h : Host).

(** An exception raised while the catalog is processed ends the run: the
    handler of [main] logs it, and nothing follows. *)
Lemma main_after_exception e tr tr1 :
  process_catalog fromisoformat cfg h tr = (Raised e, tr1) →
  main fromisoformat cfg h tr = (Ok tt, tr1 ++ [LogError (Error_message e)]).
Proof. intros Hcat. unfold main, try_except, bind. by rewrite Hcat. Qed.

Lemma request_answered rq response tr :
  answer h tr rq = answered response →
  request h rq tr = (Ok response, tr ++ [Http rq (reply_status response)]).
Proof. intros Hrq. unfold request. by rewrite Hrq. Qed.

Lemma request_unanswered rq tr :
  answer h tr rq = unanswered →
  request h rq tr = (Raised RequestException, tr ++ [Unanswered rq]).
Proof. intros Hrq. unfold request. by rewrite Hrq. Qed.

End Hosts.

(** X19. A garbage collection that cannot be launched is not the failure
    [run_garbage_collection] catches: the exception leaves the function,
    the handler of [main] logs it, and the orphan sweep does not run.  In
    the sweep, a removal that cannot be launched is caught and logged as a
    failed removal. *)
Theorem X19_command_that_cannot_be_launched
    (fromisoformat : string → option datetime) (cfg : Config) (h : Host) :
  (∀ tr,
     launch h tr garbage_collect = not_launched →
     run_garbage_collection h tr
       = (Raised OSError, tr ++ [Unlaunched garbage_collect])) ∧
  (∀ tr1,
     process_catalog fromisoformat cfg h [] = (Ok tt, tr1) →
     launch h tr1 garbage_collect = not_launched →
     main fromisoformat cfg h [] =
       (Ok tt, tr1 ++ [Unlaunched garbage_collect;
                       LogError (Error_message OSError)])) ∧
  (∀ tr repo,
     let repo_path := path_join (REPOSITORY_PATH cfg) repo in
     let tr1 := tr ++ [LogInfo (Removing_orphaned_repository repo)] in
     host_on_disk h tr1 repo_path = true →
     launch h (tr1 ++ [OnDisk repo_path true]) (rm_rf repo_path)
       = not_launched →
     remove_orphan cfg h repo tr =
       (Ok tt,
        tr1 ++ [OnDisk repo_path true; Unlaunched (rm_rf repo_path);
                LogError (Failed_to_remove_orphaned_repository repo OSError)])).
Proof.
  assert (Hgc : ∀ tr,
     launch h tr garbage_collect = not_launched →
     run_garbage_collection h tr
       = (Raised OSError, tr ++ [Unlaunched garbage_collect])).
  { intros tr Hlaunch.
    unfold run_garbage_collection, try_except, bind, subprocess_run_check.
    by rewrite Hlaunch. }
  split_and!; [done| |].
  - intros tr1 Hcat Hlaunch. unfold main, try_except. unfold bind at 1.
    rewrite Hcat. unfold bind. rewrite (Hgc tr1 Hlaunch).
    unfold logging_error, emit. by rewrite <- app_assoc.
  - intros tr repo repo_path tr1 Hdisk Hlaunch.
    unfold remove_orphan, try_except, bind, logging_info, logging_error, emit,
      path_exists, subprocess_run_check. cbv zeta.
    fold repo_path tr1. rewrite Hdisk, Hlaunch.
    by rewrite <- !app_assoc.
Qed.

(** X20. A body the script cannot read ends the run.  A catalog that is
    not answered with a 4xx or 5xx status is read: a body that is not JSON
    raises at [response.json()], a body that is not an object at the
    lookup, and a null under [repositories] when the loop starts to
    iterate over it, in the processing as in the sweep.  A manifest served
    with the status 200 whose [config] is not an object (a null, for
    instance) raises at the lookup of its digest, after the one request.
    An exception raised while the catalog is processed is logged by the
    handler of [main], and nothing follows: the remaining tags and
    repositories, the garbage collection and the sweep are left out.  A
    tag list answered with a status other than 200 is not read at all. *)
Theorem X20_unreadable_body_ends_the_run
    (fromisoformat : string → option datetime) (cfg : Config) (h : Host) :
  (∀ tr response,
     let tr1 := tr ++ [Http GET_catalog (reply_status response)] in
     answer h tr GET_catalog = answered response →
     ¬ (400 ≤ reply_status response < 600) →
     fetch_repositories h tr =
       match reply_body response with
       | None => (Raised JSONDecodeError, tr1)
       | Some not_an_object => (Raised AttributeError, tr1)
       | Some (object d) =>
           (Ok match doc_repositories d with
               | missing => Some []
               | null => None
               | holds repositories => Some repositories
               end, tr1)
       end) ∧
  (∀ tr response d,
     let tr1 := tr ++ [Http GET_catalog (reply_status response)] in
     answer h tr GET_catalog = answered response →
     ¬ (400 ≤ reply_status response < 600) →
     reply_body response = Some (object d) →
     doc_repositories d = null →
     process_catalog fromisoformat cfg h tr = (Raised TypeError, tr1)
     ∧ remove_empty_repositories cfg h tr = (Raised TypeError, tr1)) ∧
  (∀ tr repository tag tag_details response d,
     answer h tr (GET_manifest repository tag) = answered response →
     reply_status response = 200 →
     reply_body response = Some (object d) →
     doc_config d = config_not_an_object →
     resolve_tag fromisoformat h repository tag tag_details tr =
       (Raised AttributeError, tr ++ [Http (GET_manifest repository tag) 200])) ∧
  (∀ e tr1,
     process_catalog fromisoformat cfg h [] = (Raised e, tr1) →
     main fromisoformat cfg h [] =
       (Ok tt, tr1 ++ [LogError (Error_message e)])) ∧
  (∀ tr repository response,
     answer h tr (GET_tags repository) = answered response →
     reply_status response ≠ 200 →
     fetch_image_tags h repository tr =
       (Ok [], tr ++ [Http (GET_tags repository) (reply_status response)])).
Proof.
  assert (Hfetch : ∀ tr response,
     let tr1 := tr ++ [Http GET_catalog (reply_status response)] in
     answer h tr GET_catalog = answered response →
     ¬ (400 ≤ reply_status response < 600) →
     fetch_repositories h tr =
       match reply_body response with
       | None => (Raised JSONDecodeError, tr1)
       | Some not_an_object => (Raised AttributeError, tr1)
       | Some (object d) =>
           (Ok match doc_repositories d with
               | missing => Some []
               | null => None
               | holds repositories => Some repositories
               end, tr1)
       end).
  { intros tr response tr1 Hrq Hst. unfold fetch_repositories.
    erewrite bind_ok by by apply request_answered.
    unfold bind, raise_for_status, json, get_in. fold tr1.
    destruct (Z.leb_spec 400 (reply_status response)),
             (Z.ltb_spec (reply_status response) 600); simpl; try lia.
    all: destruct (reply_body response) as [[|d]|]; simpl; try done.
    all: by destruct (doc_repositories d). }
  split_and!; [done| | | |].
  - intros tr response d tr1 Hrq Hst Hbody Hnull.
    unfold process_catalog, remove_empty_repositories, bind.
    rewrite (Hfetch tr response Hrq Hst), Hbody, Hnull. done.
  - intros tr repository tag tag_details response d Hrq Hst Hbody Hconfig.
    unfold resolve_tag, fetch_manifest_and_config_digest.
    unfold bind at 1 2. rewrite (request_answered h _ _ _ Hrq), Hst. simpl.
    unfold bind, json, get_in, get_config_digest.
    rewrite Hbody. simpl. by rewrite Hconfig.
  - intros e tr1. apply main_after_exception.
  - intros tr repository response Hrq Hst. unfold fetch_image_tags.
    erewrite bind_ok by by apply request_answered.
    by destruct (Z.eqb_spec (reply_status response) 200).
Qed.

(** X21. A request that gets no response is not a request that is
    rejected: the exception leaves the loop it is raised in.  In the
    deletion loop, the records after the one whose deletion got no
    response are not attempted; in the sweep, the repositories after the
    one whose tag list got no response are not visited. *)
Theorem X21_unanswered_request_ends_the_loop (cfg : Config) (h : Host) :
  (∀ tr repository recent threshold_date x tag_details deleted_count,
     let rq := DELETE_manifest repository (td_digest x) in
     td_tag x ∉ recent →
     instant (td_creation_date x) < threshold_date →
     answer h tr rq = unanswered →
     for_fold (x :: tag_details)
       (delete_if_old h repository recent threshold_date) deleted_count tr
     = (Raised RequestException, tr ++ [Unanswered rq])) ∧
  (∀ tr repo repositories,
     answer h tr (GET_tags repo) = unanswered →
     for_each (repo :: repositories) (remove_if_empty cfg h) tr
     = (Raised RequestException, tr ++ [Unanswered (GET_tags repo)])).
Proof.
  split.
  - intros tr repository recent threshold_date [[tag creation_date] digest]
      tag_details deleted_count rq Hrecent Hold Hrq.
    subst rq. unfold td_tag, td_creation_date, td_digest in *.
    cbn [fst snd for_fold] in *. unfold bind at 1. unfold delete_if_old.
    rewrite bool_decide_eq_false_2 by done.
    destruct (Z.ltb_spec (instant creation_date) threshold_date); [|lia].
    unfold bind, delete_image. unfold bind.
    by rewrite (request_unanswered h _ _ Hrq).
  - intros tr repo repositories Hrq. simpl.
    unfold bind at 1. unfold remove_if_empty, fetch_image_tags.
    unfold bind. by rewrite (request_unanswered h _ _ Hrq).
Qed.

(** X22. Whatever fails: on any host, no manifest and no blob of a
    repository of the exclusion set is requested, and no deletion, in any
    phase of the run; and the line the handler of [main] logs for an
    exception is the last event of the run: at most one is logged, and
    nothing is done after it. *)
Theorem X22_whatever_fails
    (fromisoformat : string → option datetime) (cfg : Config) (h : Host) :
  (∀ repo,
     repo ∈ EXCLUDE_REPOS cfg →
     Forall (λ ev, ¬ image_request repo ev) (run fromisoformat cfg h)) ∧
  (∀ e,
     LogError (Error_message e) ∈ run fromisoformat cfg h →
     ∃ tr, run fromisoformat cfg h = tr ++ [LogError (Error_message e)]
           ∧ ∀ e', LogError (Error_message e') ∉ tr).
Proof.
  split.
  - intros repo Hexcluded. unfold run.
    destruct (emits_main_excluded fromisoformat cfg h repo Hexcluded [])
      as (ext & -> & Hext).
    done.
  - intros e.
    assert (Hbody : emits (λ ev, ∀ e', ev ≠ LogError (Error_message e'))
              (process_catalog fromisoformat cfg h ;;
               run_garbage_collection h ;;
               remove_empty_repositories cfg h)).
    { apply emits_bind; [|intros _; apply emits_bind; [|intros _]].
      - eapply emits_impl; [|apply emits_process_catalog].
        intros ev Hev e' ->. simpl in Hev. by destruct Hev as [? []].
      - script_unfold. repeat emits_step; done.
      - eapply emits_impl; [|apply emits_remove_empty_repositories].
        by intros ev Hev e' ->. }
    unfold run, main, try_except.
    destruct (Hbody []) as (ext & Hext & Hno). simpl in Hext.
    assert (Hnone : ∀ e', LogError (Error_message e') ∉ ext).
    { intros e' Hin. rewrite Forall_forall in Hno. by apply (Hno _ Hin e'). }
    destruct ((process_catalog fromisoformat cfg h ;;
               run_garbage_collection h ;;
               remove_empty_repositories cfg h) []) as [[[]|e0] tr3];
      simpl in Hext; subst tr3; simpl.
    + intros Hin. by destruct (Hnone e).
    + rewrite elem_of_app, list_elem_of_singleton.
      intros [Hin|[= ->]]; [by destruct (Hnone e)|]. by exists ext.
Qed.

(** ** The further properties at concrete inputs *)

Lemma X2_witness :
  decide_deletions sample_records 3 (march_first - 20 * DAY) = []
  ∧ retain (app_registry 202) "app" sample_records 3 20 [] =
      (Ok tt, [Now march_first;
               LogInfo (Skipping_within_retention_policy "app")]).
Proof.
  destruct (X2_recent_count_covers_all_records sample_records 3)
    as [Hnone Hretain].
  - simpl. lia.
  - split; [apply Hnone|]. apply (Hretain (app_registry 202) "app" 20 []).
    eexists. reflexivity.
Defined.

Lemma X3_witness :
  Z.of_nat (length (slice_to 1 (sort_desc sample_records))) = Z.min 1 3.
Proof.
  apply (proj2 (proj2 (X3_protected_records_are_the_most_recent
                         sample_records 1))).
  lia.
Defined.

Lemma X4_witness :
  decide_deletions sample_records 2 (march_first - 20 * DAY)
  ⊆ decide_deletions sample_records 1 (march_first - 5 * DAY)
  ∧ ∃ ext ext',
      (retain (app_registry 202) "app" sample_records 1 5 []).2 = ext
      ∧ (retain (app_registry 202) "app" sample_records 2 20 []).2 = ext'
      ∧ deletes_requested ext' ⊆ deletes_requested ext.
Proof.
  destruct (X4_generous_policy_deletes_less sample_records march_first
              (march_first - 5 * DAY) 1 2 5 20) as [Hdecision Hscript];
    [lia|lia|reflexivity|].
  split.
  - apply Hdecision. reflexivity.
  - destruct (Hscript (app_registry 202) "app" []) as (ext & ext' & H & H' & Hsub);
      [reflexivity|].
    exists ext, ext'. split_and!; [exact H|exact H'|exact Hsub].
Defined.

Lemma X5_witness :
  protected_tags sample_records 0 = ∅
  ∧ slice_to (-1) (sort_desc sample_records)
    = take (3 - 1) (sort_desc sample_records).
Proof.
  destruct (X5_recent_count_zero_or_negative sample_records 0) as [Hzero _].
  destruct (X5_recent_count_zero_or_negative sample_records (-1))
    as [_ Hnegative].
  split.
  - apply Hzero. left. reflexivity.
  - apply Hnegative. lia.
Defined.



Lemma X9_witness :
  (td_tag <$> sample_records) `sublist_of` ["A"; "B"; "C"]
  ∧ (length sample_records ≤ 3)%nat.
Proof.
  apply (X9_resolved_records_follow_the_tag_list read_isoformat
           (app_registry 202) "app" ["A"; "B"; "C"] []
           (for_fold ["A"; "B"; "C"]
              (resolve_tag read_isoformat (app_registry 202) "app") [] []).2
           sample_records).
  vm_compute. reflexivity.
Defined.

Lemma X10_witness :
  remove_if_empty (default_config []) (app_registry 202) "app" []
  = (Ok tt, [] ++ [Http (GET_tags "app") 200]).
Proof.
  apply (proj1 (X10_sweep_removes_only_listed_orphans (default_config [])
                  (app_registry 202)) [] "app").
  - reflexivity.
  - simpl. discriminate.
Defined.

Lemma X11_witness :
  let repo_path := "/var/lib/registry/docker/registry/v2/repositories/app" in
  remove_orphan (default_config []) stubborn_registry "app" [] =
    (Ok tt,
     [LogInfo (Removing_orphaned_repository "app"); OnDisk repo_path true;
      Run (rm_rf repo_path) 1;
      LogError (Failed_to_remove_orphaned_repository "app"
                  (CalledProcessError 1))])
  ∧ ∃ ext,
      remove_empty_repositories (default_config []) stubborn_registry []
        = (Ok tt, [] ++ Http GET_catalog 200 :: ext)
      ∧ tags_requested ext = ["app"].
Proof.
  intros repo_path.
  destruct (X11_failed_removal_does_not_stop_the_sweep (default_config [])
              stubborn_registry) as (_ & Hfailed & Hsweep).
  split.
  - apply (Hfailed [] "app").
    + reflexivity.
    + vm_compute. discriminate.
  - apply (Hsweep []). simpl. lia.
Defined.

Lemma X13_witness :
  main read_isoformat (default_config []) empty_registry [] =
    (Ok tt,
     [Http GET_catalog 200; Run garbage_collect 1;
      LogError Garbage_collection_failed; Http GET_catalog 200]).
Proof.
  apply (X13_run_on_an_empty_catalog read_isoformat (default_config [])
           empty_registry).
  - intros tr. simpl. lia.
  - intros tr. reflexivity.
Defined.

Lemma X14_witness :
  ∃ p h1 h2 m tail,
    is_digit h1 = true ∧ is_digit h2 = true ∧ is_digit m = true
    ∧ (tail = "" ∨ tail = String newline "")
    ∧ "2024-01-01T00:00:00+05:3"
      = String.append p (String plus_sign (String h1 (String h2
          (String colon (String m tail)))))
    ∧ offset_fixup "2024-01-01T00:00:00+05:3"
      = String.append p (String plus_sign (String h1 (String h2
          (String zero_digit (String m tail))))).
Proof.
  apply (proj2 (proj2 (X14_fixup_only_replaces_the_colon
                         "2024-01-01T00:00:00+05:3"))).
  vm_compute. discriminate.
Defined.

Lemma X15_witness :
  split_commas "a, b,,c" = ["a"; " b"; ""; "c"].
Proof.
  apply (proj2 (proj2 (proj2
           (X15_exclusion_list_is_the_comma_separated_fields "")))
           "a" [" b"; ""; "c"]).
  apply (bool_decide_unpack _). vm_compute. exact I.
Defined.

Lemma X16_witness :
  recent_count_of override_config "registry" = 1.
Proof.
  destruct (X16_overrides_leave_out_the_default_options
              int_of_digits {[ "registry"; "default_recent_images" ]}
              [("registry", "7"); ("default_recent_images", "1");
               ("app/web", "5")]) as [_ Htable].
  - apply (bool_decide_unpack _). vm_compute. exact I.
  - destruct (Htable (SPECIFIC_RECENT_IMAGES override_config)) as [_ Hdefault].
    + vm_compute. reflexivity.
    + apply (Hdefault override_config "registry").
      * reflexivity.
      * left. apply elem_of_union_l, elem_of_singleton. reflexivity.
Defined.

Lemma X17_witness :
  process_repository read_isoformat (default_config []) keep_registry "keep" []
    = (Ok tt, [Http (GET_tags "keep") 200; LogInfo (Skipping_no_images "keep")])
  ∧ resolve_tag read_isoformat bare_registry "app" "A" [] []
    = (Ok [], [Http (GET_manifest "app" "A") 200])
  ∧ resolve_tag read_isoformat bare_registry "app" "B" [] []
    = (Ok [], [Http (GET_manifest "app" "B") 200])
  ∧ fetch_creation_date read_isoformat bare_registry "app" "sha256:cC" []
    = (Ok None, [Http (GET_blob "app" "sha256:cC") 200])
  ∧ process_catalog read_isoformat (default_config []) bare_registry [] =
      (Ok tt,
       [Http GET_catalog 200; Http (GET_tags "app") 200;
        Http (GET_manifest "app" "A") 200;
        Http (GET_manifest "app" "B") 200;
        Http (GET_manifest "app" "C") 200; Http (GET_blob "app" "sha256:cC") 200;
        LogInfo (Skipping_no_eligible_images "app")]).
Proof.
  destruct (X17_missing_keys_skip_one_unit read_isoformat (default_config [])
              keep_registry) as (Htags & _ & _).
  destruct (X17_missing_keys_skip_one_unit read_isoformat (default_config [])
              bare_registry) as (_ & Hmanifest & Hblob).
  split_and!.
  - apply (Htags [] "keep"); [apply not_elem_of_nil|reflexivity].
  - apply (Hmanifest [] "app" "A" []). left. reflexivity.
  - apply (Hmanifest [] "app" "B" []). right. reflexivity.
  - apply (Hblob [] "app" "sha256:cC"). reflexivity.
  - vm_compute. reflexivity.
Defined.

Lemma X18_witness :
  (∃ ext1 ext2,
     (process_repository read_isoformat (default_config [])
        (app_registry 202) "app" []).2 = ext1 ++ ext2
     ∧ deletes_requested ext1 = []
     ∧ Forall (is_deletion_event "app") ext2)
  ∧ deletes_requested
      (process_repository read_isoformat (default_config [])
         (stamp_registry "2024-01-01T00:00:00+05:3") "app" []).2 = [].
Proof.
  split.
  - destruct (X18_fetches_precede_deletions read_isoformat (default_config [])
                (app_registry 202) "app" [])
      as (ext1 & ext2 & Htr & Hext1 & Hext2 & _).
    exists ext1, ext2. split_and!; [exact Htr|exact Hext1|exact Hext2].
  - destruct (X18_fetches_precede_deletions read_isoformat (default_config [])
                (stamp_registry "2024-01-01T00:00:00+05:3") "app" [])
      as (ext1 & ext2 & Htr & Hext1 & _ & Hraise).
    rewrite Htr, (Hraise (ValueError "2024-01-01T00:00:00+05:")).
    + rewrite app_nil_r. exact Hext1.
    + vm_compute. reflexivity.
    + right. eexists. reflexivity.
Defined.

Lemma X19_witness :
  main read_isoformat (default_config []) (without_docker keep_registry) []
    = (Ok tt, [Http GET_catalog 200; Http (GET_tags "keep") 200;
               LogInfo (Skipping_no_images "keep");
               Unlaunched garbage_collect;
               LogError (Error_message OSError)])
  ∧ remove_orphan (default_config []) (without_commands keep_registry)
      "keep" []
    = (Ok tt,
       [LogInfo (Removing_orphaned_repository "keep");
        OnDisk "/var/lib/registry/docker/registry/v2/repositories/keep" true;
        Unlaunched
          (rm_rf "/var/lib/registry/docker/registry/v2/repositories/keep");
        LogError (Failed_to_remove_orphaned_repository "keep" OSError)]).
Proof.
  split.
  - apply (proj1 (proj2 (X19_command_that_cannot_be_launched read_isoformat
                           (default_config []) (without_docker keep_registry)))
             [Http GET_catalog 200; Http (GET_tags "keep") 200;
              LogInfo (Skipping_no_images "keep")]).
    + vm_compute. reflexivity.
    + reflexivity.
  - apply (proj2 (proj2 (X19_command_that_cannot_be_launched read_isoformat
                           (default_config []) (without_commands keep_registry)))
             [] "keep"); reflexivity.
Defined.

Lemma X20_witness :
  main read_isoformat (default_config []) (answering null_catalog (app_registry 202)) []
    = (Ok tt, [Http GET_catalog 200; LogError (Error_message TypeError)])
  ∧ resolve_tag read_isoformat (answering null_config (app_registry 202))
      "app" "B" [] []
    = (Raised AttributeError, [Http (GET_manifest "app" "B") 200])
  ∧ main read_isoformat (default_config []) (answering null_config (app_registry 202)) []
    = (Ok tt,
       [Http GET_catalog 200; Http (GET_tags "app") 200;
        Http (GET_manifest "app" "A") 200; Http (GET_blob "app" "sha256:cA") 200;
        Http (GET_manifest "app" "B") 200;
        LogError (Error_message AttributeError)])
  ∧ fetch_image_tags (answering html_error_page (app_registry 202)) "app" []
    = (Ok [], [Http (GET_tags "app") 503]).
Proof.
  destruct (X20_unreadable_body_ends_the_run read_isoformat (default_config [])
              (answering null_catalog (app_registry 202)))
    as (_ & Hnull & _ & Hmain & _).
  destruct (X20_unreadable_body_ends_the_run read_isoformat (default_config [])
              (answering null_config (app_registry 202)))
    as (_ & _ & Hconfig & Hmain' & _).
  destruct (X20_unreadable_body_ends_the_run read_isoformat (default_config [])
              (answering html_error_page (app_registry 202)))
    as (_ & _ & _ & _ & Htags).
  split_and!.
  - apply (Hmain TypeError [Http GET_catalog 200]).
    destruct (Hnull []
                (mk_Reply 200 None
                   (Some (object (mk_Document null None no_config None))))
                (mk_Document null None no_config None)) as [Hcat _];
      [reflexivity|simpl; lia|reflexivity|reflexivity|exact Hcat].
  - apply (Hconfig [] "app" "B" []
             (mk_Reply 200 (Some "sha256:mB")
                (Some (object (mk_Document missing None
                                 config_not_an_object None))))
             (mk_Document missing None config_not_an_object None));
      reflexivity.
  - apply (Hmain' AttributeError
             [Http GET_catalog 200; Http (GET_tags "app") 200;
              Http (GET_manifest "app" "A") 200;
              Http (GET_blob "app" "sha256:cA") 200;
              Http (GET_manifest "app" "B") 200]).
    vm_compute. reflexivity.
  - apply (Htags [] "app" (mk_Reply 503 None None)); [reflexivity|].
    simpl. lia.
Defined.

Lemma X21_witness :
  for_fold [("B", utc (march_first - 10 * DAY), "sha256:mB");
            ("A", utc (march_first - 40 * DAY), "sha256:mA")]
    (delete_if_old (answering deletions_unanswered (app_registry 202)) "app"
       ∅ (march_first - 5 * DAY)) 0 []
  = (Raised RequestException, [Unanswered (DELETE_manifest "app" "sha256:mB")])
  ∧ for_each ["app"; "web"]
      (remove_if_empty (default_config [])
         (answering tags_unanswered (app_registry 202))) []
    = (Raised RequestException, [Unanswered (GET_tags "app")])
  ∧ main read_isoformat (default_config [])
      (answering deletions_unanswered (app_registry 202)) []
    = (Ok tt,
       [Http GET_catalog 200; Http (GET_tags "app") 200;
        Http (GET_manifest "app" "A") 200; Http (GET_blob "app" "sha256:cA") 200;
        Http (GET_manifest "app" "B") 200; Http (GET_blob "app" "sha256:cB") 200;
        Http (GET_manifest "app" "C") 200; Http (GET_blob "app" "sha256:cC") 200;
        Now march_first;
        Unanswered (DELETE_manifest "app" "sha256:mA");
        LogError (Error_message RequestException)]).
Proof.
  split_and!.
  - apply (proj1 (X21_unanswered_request_ends_the_loop (default_config [])
                    (answering deletions_unanswered (app_registry 202)))
             [] "app" ∅ (march_first - 5 * DAY)
             ("B", utc (march_first - 10 * DAY), "sha256:mB")).
    + apply not_elem_of_empty.
    + vm_compute. reflexivity.
    + reflexivity.
  - apply (proj2 (X21_unanswered_request_ends_the_loop (default_config [])
                    (answering tags_unanswered (app_registry 202)))
             [] "app" ["web"]).
    reflexivity.
  - vm_compute. reflexivity.
Defined.

Lemma X22_witness :
  Forall (λ ev, ¬ image_request "app" ev)
    (run read_isoformat (default_config ["app"])
       (without_docker (app_registry 202)))
  ∧ ∃ tr,
      run read_isoformat (default_config ["app"])
        (without_docker (app_registry 202))
      = tr ++ [LogError (Error_message OSError)]
      ∧ ∀ e', LogError (Error_message e') ∉ tr.
Proof.
  destruct (X22_whatever_fails read_isoformat (default_config ["app"])
              (without_docker (app_registry 202))) as [Hexcluded Hlast].
  split.
  - apply (Hexcluded "app"). apply list_elem_of_here.
  - apply (Hlast OSError). vm_compute.
    do 2 apply list_elem_of_further. apply list_elem_of_here.
Defined.
